(** * TEcount: the annotation aggregation engine

    A shallow embedding of [TEcount.py]: the interning table
    ([Double_dict]), the annotation table ([Rosette]), the
    classification loop of the alignment counting engine
    ([Count.__count]) and the module body for samples given as sam
    files, followed by the properties proved about them.

    Python values are modelled as follows.
    - [int] is [Z]; results of [len] and dictionary keys produced by
      [len] are [nat].
    - [str] is [string], each character being one code point below 256.
    - a [list] is a [list]; indexing follows Python (negative indices
      count from the end, anything else out of range raises
      [IndexError]).
    - a [dict] whose iteration order is never observed is a [gmap]; the
      one dictionary that is iterated and sorted ([TE_count_variable])
      is an insertion-ordered association list.
    - an uncaught exception is the [Raise] result; [print] appends a
      line to the [stdout] field of the table. A [Raise] result
      carries no table: what loading has printed when it raises is
      given by [Rosette.read_console].
    - a text file is the list of its lines, as iteration over the file
      handle yields them. *)

From Stdlib Require Import ZArith Lia Ascii String List Sorting.Sorted Permutation.
From stdpp Require Import base option list gmap strings pretty fin_maps sorting.

Local Open Scope Z_scope.

(** ** Exceptions *)

Inductive exn : Set :=
| KeyError
| IndexError
| ValueError
| AttributeError
| SystemExit (code : Z).

Inductive result (A : Type) : Type :=
| Ok (a : A)
| Raise (e : exn).
Arguments Ok {A} a.
Arguments Raise {A} e.

#[global] Instance result_ret : MRet result := @Ok.
#[global] Instance result_bind : MBind result :=
  λ A B f m, match m with Ok a => f a | Raise e => Raise e end.

Definition of_option {A} (e : exn) (o : option A) : result A :=
  match o with Some a => Ok a | None => Raise e end.

Definition is_Ok {A} (r : result A) : Prop := ∃ a, r = Ok a.

(** ** Python primitives *)

Module Py.

(** [l[i]] *)
Definition index {A} (l : list A) (i : Z) : result A :=
  let n := Z.of_nat (length l) in
  if (0 <=? i) && (i <? n) then of_option IndexError (l !! Z.to_nat i)
  else if (- n <=? i) && (i <? 0) then of_option IndexError (l !! Z.to_nat (n + i))
  else Raise IndexError.

(** [l[i] = x] *)
Definition setitem {A} (l : list A) (i : Z) (x : A) : result (list A) :=
  let n := Z.of_nat (length l) in
  if (0 <=? i) && (i <? n) then Ok (<[Z.to_nat i := x]> l)
  else if (- n <=? i) && (i <? 0) then Ok (<[Z.to_nat (n + i) := x]> l)
  else Raise IndexError.

(** [d[k]] on a dictionary *)
Definition getitem `{Countable K} {V} (d : gmap K V) (k : K) : result V :=
  of_option KeyError (d !! k).

(** [[x] * n] *)
Definition repeat {A} (x : A) (n : Z) : list A := replicate (Z.to_nat n) x.

(** [str.isspace] on one character *)
Definition isspace (c : ascii) : bool :=
  let n := nat_of_ascii c in
  ((9 <=? n) && (n <=? 13) || (28 <=? n) && (n <=? 32) || (n =? 133) || (n =? 160))%nat.

(** [s.split()]: maximal runs of non-whitespace characters. [tok] is
    the current run, last character first. *)
Fixpoint split_go (tok : list ascii) (s : string) : list string :=
  match s with
  | EmptyString =>
      match tok with [] => [] | _ => [string_of_list_ascii (rev tok)] end
  | String c s' =>
      if isspace c then
        match tok with
        | [] => split_go [] s'
        | _ => string_of_list_ascii (rev tok) :: split_go [] s'
        end
      else split_go (c :: tok) s'
  end.

Definition split (s : string) : list string := split_go [] s.

(** [s[0]] *)
Definition head (s : string) : result ascii :=
  match s with EmptyString => Raise IndexError | String c _ => Ok c end.

(** [s[1:]] *)
Definition tail (s : string) : string :=
  match s with EmptyString => EmptyString | String _ s' => s' end.

Definition digit (c : ascii) : option Z :=
  let n := nat_of_ascii c in
  if ((48 <=? n) && (n <=? 57))%nat then Some (Z.of_nat n - 48) else None.

(** The digits of an [int] literal: groups of decimal digits, single
    underscores allowed between two digits. [acc] is the value read so
    far, [after_digit] tells whether the previous character was a
    digit. *)
Fixpoint digits (acc : Z) (after_digit : bool) (s : string) : option Z :=
  match s with
  | EmptyString => if after_digit then Some acc else None
  | String c s' =>
      match digit c with
      | Some d => digits (10 * acc + d) true s'
      | None =>
          if (Ascii.eqb c "_" && after_digit)%bool then digits acc false s' else None
      end
  end.

(** The whitespace [int] skips around a literal: of the characters
    [str.isspace] accepts, the separators with codes 28 to 31 are not
    skipped. *)
Definition isspace_int (c : ascii) : bool :=
  let n := nat_of_ascii c in
  ((9 <=? n) && (n <=? 13) || (n =? 32) || (n =? 133) || (n =? 160))%nat.

Definition lstrip := fix go (s : string) : string :=
  match s with
  | String c s' => if isspace_int c then go s' else s
  | EmptyString => EmptyString
  end.

Definition strip (s : string) : string :=
  String.rev (lstrip (String.rev (lstrip s))).

(** The number of decimal digits of a literal. *)
Fixpoint count_digits (s : string) : nat :=
  match s with
  | EmptyString => 0
  | String c s' => (match digit c with Some _ => 1 | None => 0 end) + count_digits s'
  end.

(** The longest literal [int] converts, in digits
    ([sys.get_int_max_str_digits()], by default). *)
Definition int_max_str_digits : nat := 4300.

(** [int(s)] for a string [s]; [None] stands for [ValueError]. *)
Definition int (s : string) : option Z :=
  let literal s' :=
    if (count_digits s' <=? int_max_str_digits)%nat then digits 0 false s' else None in
  match strip s with
  | String "-" s' => Z.opp <$> literal s'
  | String "+" s' => literal s'
  | s' => literal s'
  end.

(** [str(n)] for an [int] *)
Definition str (n : Z) : string := pretty n.

(** [print(s)] on a console *)
Definition print (s : string) (console : list string) : list string :=
  console ++ [s].

End Py.

(** ** The interning table *)

Record Double_dict : Type := mkDD {
  forward_dict : gmap nat string;   (* where we store item according to key *)
  reverse_dict : gmap string nat    (* where we store key according to item *)
}.

Module DD.

Definition empty : Double_dict := mkDD ∅ ∅.

(** [__getitem__] with an [int] key *)
Definition getitem (d : Double_dict) (key : nat) : result string :=
  Py.getitem (forward_dict d) key.

(** [__getitem__] with a key that is not an [int]: the key of an item *)
Definition getitem_item (d : Double_dict) (item : string) : result nat :=
  Py.getitem (reverse_dict d) item.

(** [__contains__] *)
Definition contains (d : Double_dict) (item : string) : bool :=
  bool_decide (is_Some (reverse_dict d !! item)).

(** [__len__] *)
Definition len (d : Double_dict) : nat := size (forward_dict d).

(** [add]: the returned key and the table after the call *)
Definition add (item : string) (d : Double_dict) : nat * Double_dict :=
  match reverse_dict d !! item with
  | Some key => (key, d)
  | None =>
      let key := size (forward_dict d) in
      (key, mkDD (<[key := item]> (forward_dict d))
                 (<[item := key]> (reverse_dict d)))
  end.

(** A finite sequence of [add] calls: the keys returned, in call
    order, and the final table. *)
Fixpoint add_all (items : list string) (d : Double_dict) : list nat * Double_dict :=
  match items with
  | [] => ([], d)
  | item :: rest =>
      let '(key, d1) := add item d in
      let '(keys, d2) := add_all rest d1 in
      (key :: keys, d2)
  end.

End DD.


(** ** Loops and insertion-ordered dictionaries *)

(** [for a in l: s = f(a, s)], stopping at the first exception. *)
Fixpoint for_each {A S} (f : A → S → result S) (l : list A) (s : S) : result S :=
  match l with
  | [] => Ok s
  | a :: l' => s' ← f a s; for_each f l' s'
  end.

(** [range(n)] *)
Definition range (n : nat) : list nat := seq 0 n.

Module OD.

(** [d[k]] *)
Fixpoint get {V} (d : list (string * V)) (k : string) : option V :=
  match d with
  | [] => None
  | (k', v) :: d' => if decide (k = k') then Some v else get d' k
  end.

(** [d[k] = v]: an existing key keeps its place, a new one goes last. *)
Fixpoint set {V} (k : string) (v : V) (d : list (string * V)) : list (string * V) :=
  match d with
  | [] => [(k, v)]
  | (k', v') :: d' => if decide (k = k') then (k, v) :: d' else (k', v') :: set k v d'
  end.

(** [d.keys()], in iteration order *)
Definition keys {V} (d : list (string * V)) : list string := map fst d.

End OD.

(** ** Sorting with a key function *)

(** [a < b] on two lists of integers: lexicographic, a proper prefix
    being smaller. *)
Fixpoint list_lt (a b : list nat) : bool :=
  match a, b with
  | _, [] => false
  | [], _ :: _ => true
  | x :: a', y :: b' => if (x <? y)%nat then true else if (y <? x)%nat then false else list_lt a' b'
  end.

(** Insertion in front of the elements that are not smaller, which keeps
    equal elements in their original order. *)
Fixpoint insert_by {A} (key : A → list nat) (x : A) (l : list A) : list A :=
  match l with
  | [] => [x]
  | y :: l' => if list_lt (key y) (key x) then y :: insert_by key x l' else x :: y :: l'
  end.

(** [sorted(l, key=key)]: a stable sort. *)
Fixpoint sorted_by {A} (key : A → list nat) (l : list A) : list A :=
  match l with
  | [] => []
  | x :: l' => insert_by key x (sorted_by key l')
  end.

(** ** The annotation table *)

(** The attributes of a [Rosette] object. The paths of the output files
    are left out: a written file is returned by [write] as the list of
    its lines. [sirna_count] and [sirna_count_total] exist as attributes
    only when [count_sirna] is set; reading them otherwise raises
    [AttributeError]. [stdout] collects what the methods print. *)
Record Rosette : Type := mkRosette {
  count_sirna : bool;
  sample_number : Z;
  current_sample : Z;
  count_column : Z;
  TE_count_variable : list (string * list nat);
  TE_count : gmap string (list Z);
  TE_count_total : gmap string Z;
  TE_count_valid : gmap string bool;
  purged : bool;
  TE_identifier : gmap string (list nat);
  column_number : nat;
  TE : list Double_dict;
  sirna_count : gmap string (list Z);
  sirna_count_total : gmap string Z;
  stdout : list string
}.

Definition with_current_sample (x : Z) (st : Rosette) : Rosette :=
  {| count_sirna := count_sirna st; sample_number := sample_number st;
     current_sample := x; count_column := count_column st;
     TE_count_variable := TE_count_variable st; TE_count := TE_count st;
     TE_count_total := TE_count_total st;
     TE_count_valid := TE_count_valid st; purged := purged st;
     TE_identifier := TE_identifier st; column_number := column_number st;
     TE := TE st; sirna_count := sirna_count st;
     sirna_count_total := sirna_count_total st; stdout := stdout st |}.

Definition with_TE_count_variable (x : list (string * list nat)) (st : Rosette) : Rosette :=
  {| count_sirna := count_sirna st; sample_number := sample_number st;
     current_sample := current_sample st; count_column := count_column st;
     TE_count_variable := x; TE_count := TE_count st;
     TE_count_total := TE_count_total st;
     TE_count_valid := TE_count_valid st; purged := purged st;
     TE_identifier := TE_identifier st; column_number := column_number st;
     TE := TE st; sirna_count := sirna_count st;
     sirna_count_total := sirna_count_total st; stdout := stdout st |}.

Definition with_TE_count (x : gmap string (list Z)) (st : Rosette) : Rosette :=
  {| count_sirna := count_sirna st; sample_number := sample_number st;
     current_sample := current_sample st; count_column := count_column st;
     TE_count_variable := TE_count_variable st; TE_count := x;
     TE_count_total := TE_count_total st;
     TE_count_valid := TE_count_valid st; purged := purged st;
     TE_identifier := TE_identifier st; column_number := column_number st;
     TE := TE st; sirna_count := sirna_count st;
     sirna_count_total := sirna_count_total st; stdout := stdout st |}.

Definition with_TE_count_total (x : gmap string Z) (st : Rosette) : Rosette :=
  {| count_sirna := count_sirna st; sample_number := sample_number st;
     current_sample := current_sample st; count_column := count_column st;
     TE_count_variable := TE_count_variable st; TE_count := TE_count st;
     TE_count_total := x; TE_count_valid := TE_count_valid st;
     purged := purged st; TE_identifier := TE_identifier st;
     column_number := column_number st; TE := TE st;
     sirna_count := sirna_count st;
     sirna_count_total := sirna_count_total st; stdout := stdout st |}.

Definition with_TE_count_valid (x : gmap string bool) (st : Rosette) : Rosette :=
  {| count_sirna := count_sirna st; sample_number := sample_number st;
     current_sample := current_sample st; count_column := count_column st;
     TE_count_variable := TE_count_variable st; TE_count := TE_count st;
     TE_count_total := TE_count_total st; TE_count_valid := x;
     purged := purged st; TE_identifier := TE_identifier st;
     column_number := column_number st; TE := TE st;
     sirna_count := sirna_count st;
     sirna_count_total := sirna_count_total st; stdout := stdout st |}.

Definition with_purged (x : bool) (st : Rosette) : Rosette :=
  {| count_sirna := count_sirna st; sample_number := sample_number st;
     current_sample := current_sample st; count_column := count_column st;
     TE_count_variable := TE_count_variable st; TE_count := TE_count st;
     TE_count_total := TE_count_total st;
     TE_count_valid := TE_count_valid st; purged := x;
     TE_identifier := TE_identifier st; column_number := column_number st;
     TE := TE st; sirna_count := sirna_count st;
     sirna_count_total := sirna_count_total st; stdout := stdout st |}.

Definition with_TE_identifier (x : gmap string (list nat)) (st : Rosette) : Rosette :=
  {| count_sirna := count_sirna st; sample_number := sample_number st;
     current_sample := current_sample st; count_column := count_column st;
     TE_count_variable := TE_count_variable st; TE_count := TE_count st;
     TE_count_total := TE_count_total st;
     TE_count_valid := TE_count_valid st; purged := purged st;
     TE_identifier := x; column_number := column_number st; TE := TE st;
     sirna_count := sirna_count st;
     sirna_count_total := sirna_count_total st; stdout := stdout st |}.

Definition with_TE (x : list Double_dict) (st : Rosette) : Rosette :=
  {| count_sirna := count_sirna st; sample_number := sample_number st;
     current_sample := current_sample st; count_column := count_column st;
     TE_count_variable := TE_count_variable st; TE_count := TE_count st;
     TE_count_total := TE_count_total st;
     TE_count_valid := TE_count_valid st; purged := purged st;
     TE_identifier := TE_identifier st; column_number := column_number st;
     TE := x; sirna_count := sirna_count st;
     sirna_count_total := sirna_count_total st; stdout := stdout st |}.

Definition with_sirna_count (x : gmap string (list Z)) (st : Rosette) : Rosette :=
  {| count_sirna := count_sirna st; sample_number := sample_number st;
     current_sample := current_sample st; count_column := count_column st;
     TE_count_variable := TE_count_variable st; TE_count := TE_count st;
     TE_count_total := TE_count_total st;
     TE_count_valid := TE_count_valid st; purged := purged st;
     TE_identifier := TE_identifier st; column_number := column_number st;
     TE := TE st; sirna_count := x;
     sirna_count_total := sirna_count_total st; stdout := stdout st |}.

Definition with_sirna_count_total (x : gmap string Z) (st : Rosette) : Rosette :=
  {| count_sirna := count_sirna st; sample_number := sample_number st;
     current_sample := current_sample st; count_column := count_column st;
     TE_count_variable := TE_count_variable st; TE_count := TE_count st;
     TE_count_total := TE_count_total st;
     TE_count_valid := TE_count_valid st; purged := purged st;
     TE_identifier := TE_identifier st; column_number := column_number st;
     TE := TE st; sirna_count := sirna_count st; sirna_count_total := x;
     stdout := stdout st |}.

Definition with_stdout (x : list string) (st : Rosette) : Rosette :=
  {| count_sirna := count_sirna st; sample_number := sample_number st;
     current_sample := current_sample st; count_column := count_column st;
     TE_count_variable := TE_count_variable st; TE_count := TE_count st;
     TE_count_total := TE_count_total st;
     TE_count_valid := TE_count_valid st; purged := purged st;
     TE_identifier := TE_identifier st; column_number := column_number st;
     TE := TE st; sirna_count := sirna_count st;
     sirna_count_total := sirna_count_total st; stdout := x |}.
Definition print (s : string) (st : Rosette) : Rosette :=
  with_stdout (Py.print s (stdout st)) st.

Module Rosette.

(** One round of the loop of [add] over the other columns: the tables
    and the keys collected so far. *)
Definition add_attr (line : list string) (cc : Z) (i : nat)
    (acc : list Double_dict * list nat) : result (list Double_dict * list nat) :=
  if bool_decide (Z.of_nat i + 1 ≠ cc) then
    d ← Py.index acc.1 (Z.of_nat i);
    item ← Py.index line (Z.of_nat i + 1);
    tables ← Py.setitem acc.1 (Z.of_nat i) (DD.add item d).2;
    Ok (tables, acc.2 ++ [(DD.add item d).1])
  else Ok acc.

Definition add (line : list string) (st : Rosette) : result Rosette :=
  (* the first column correspond to an unique TE copy identifier *)
  identifier ← Py.index line 0;
  (* we add the count column first *)
  d ← Py.index (TE st) (count_column st);
  item ← Py.index line (count_column st);
  tables ← Py.setitem (TE st) (count_column st) (DD.add item d).2;
  acc ← (if bool_decide (1 < Z.of_nat (column_number st) - 1) then
           for_each (add_attr line (count_column st))
                    (range (column_number st - 1)) (tables, [(DD.add item d).1])
         else Ok (tables, [(DD.add item d).1]));
  count_variable ← Py.index line (count_column st);
  let st1 := with_TE acc.1 st in
  let st2 := with_TE_identifier (<[identifier := acc.2]> (TE_identifier st1)) st1 in
  let st3 := with_TE_count_variable (OD.set count_variable acc.2 (TE_count_variable st2)) st2 in
  let st4 := with_TE_count (<[count_variable := Py.repeat 0 (sample_number st3)]> (TE_count st3)) st3 in
  let st5 := with_TE_count_total (<[count_variable := 0]> (TE_count_total st4)) st4 in
  let st6 := with_TE_count_valid (<[count_variable := true]> (TE_count_valid st5)) st5 in
  (* we do the same thing for the siRNA if we need to count them *)
  if count_sirna st6 then
    let st7 := with_sirna_count (<[count_variable := Py.repeat 0 (sample_number st6)]> (sirna_count st6)) st6 in
    Ok (with_sirna_count_total (<[count_variable := 0]> (sirna_count_total st7)) st7)
  else Ok st6.

(** ['line '+str(i)+' has '+str(len(line))+' rows'] *)
Definition mismatch_message (i n : nat) : string :=
  "line " +:+ Py.str (Z.of_nat i) +:+ " has " +:+ Py.str (Z.of_nat n) +:+ " rows".

(** One round of the loop of [read]; [i] is the number of the line. *)
Definition read_line (i : nat) (raw : string) (st : Rosette) : result Rosette :=
  let line := Py.split raw in
  let st1 :=
    if bool_decide (length line ≠ column_number st) then
      print (mismatch_message i (length line)) st
    else st in
  add line st1.

(** The loop of [read]; [i] is the number of lines read before. *)
Fixpoint read_from (i : nat) (file : list string) (st : Rosette) : result Rosette :=
  match file with
  | [] => Ok st
  | raw :: rest => st' ← read_line (S i) raw st; read_from (S i) rest st'
  end.

Definition read (rosette_file : list string) (st : Rosette) : result Rosette :=
  read_from 0 rosette_file st.

(** [readline()] on a freshly opened file *)
Definition readline (file : list string) : string :=
  match file with [] => "" | line :: _ => line end.

Definition wrong_column_warning : string :=
  "wrong column number, changing column to count to the                   first one.".

(** The attributes [__init__] sets before it reads the file.
    [count_column] and [sample_number] are the values of
    [int(count_column)] and [int(sample_number)], [n] is the number of
    columns of the first line. *)
Definition fresh (count_column sample_number : Z) (count_sirna : bool) (n : nat) : Rosette :=
  let cc := count_column - 1 in
  {| count_sirna := count_sirna;
     sample_number := sample_number;
     current_sample := -1;
     count_column := if bool_decide (cc ≤ 0) then 1 else cc;
     TE_count_variable := [];
     TE_count := ∅;
     TE_count_total := ∅;
     TE_count_valid := ∅;
     purged := false;
     TE_identifier := ∅;
     column_number := n;
     TE := DD.empty :: replicate (n - 1) DD.empty;
     sirna_count := ∅;
     sirna_count_total := ∅;
     stdout := if bool_decide (cc ≤ 0) then [wrong_column_warning] else [] |}.

(** [__init__]: without a count file the program exits. *)
Definition init (rosette_file : list string) (count_column : Z)
    (count_file : option string) (sample_number : Z)
    (count_sirna_file : option string) : result Rosette :=
  match count_file with
  | None => Raise (SystemExit 1)
  | Some _ =>
      read rosette_file
        (fresh count_column sample_number (bool_decide (is_Some count_sirna_file))
               (length (Py.split (readline rosette_file))))
  end.

(** What is on the standard output when [read] ends, whether it
    returns or raises: the message for a line is printed before [add]
    is called, and [add] prints nothing, so that when [add] raises the
    output ends with what the loop printed for that line. *)
Fixpoint read_console (i : nat) (file : list string) (st : Rosette) : list string :=
  match file with
  | [] => stdout st
  | raw :: rest =>
      let line := Py.split raw in
      let st1 :=
        if bool_decide (length line ≠ column_number st) then
          print (mismatch_message (S i) (length line)) st
        else st in
      match add line st1 with
      | Ok st' => read_console (S i) rest st'
      | Raise _ => stdout st1
      end
  end.

(** What is on the standard output when [__init__] ends, whether it
    returns, raises or exits. *)
Definition init_console (rosette_file : list string) (count_column : Z)
    (count_file : option string) (sample_number : Z)
    (count_sirna_file : option string) : list string :=
  match count_file with
  | None => ["error: no count output file given"]
  | Some _ =>
      read_console 0 rosette_file
        (fresh count_column sample_number (bool_decide (is_Some count_sirna_file))
               (length (Py.split (readline rosette_file))))
  end.

Definition sirna (st : Rosette) : bool := count_sirna st.

(** The lookups shared by [count], [count_si] and [get_count_variable]
    once the identifier is known: [self.TE[self.count_column][keys[0]]]. *)
Definition variable_of_keys (st : Rosette) (keys : list nat) : result string :=
  d ← Py.index (TE st) (count_column st);
  key ← Py.index keys 0;
  DD.getitem d key.

Definition count (identifier : string) (amount : Z) (st : Rosette) : result Rosette :=
  match TE_identifier st !! identifier with
  | Some keys =>
      count_variable ← variable_of_keys st keys;
      counts ← Py.getitem (TE_count st) count_variable;
      old ← Py.index counts (current_sample st);
      counts' ← Py.setitem counts (current_sample st) (old + amount);
      let st1 := with_TE_count (<[count_variable := counts']> (TE_count st)) st in
      total ← Py.getitem (TE_count_total st1) count_variable;
      Ok (with_TE_count_total (<[count_variable := total + amount]> (TE_count_total st1)) st1)
  | None => Ok (print (identifier +:+ " not found in the Rosette file") st)
  end.

Definition count_si (identifier : string) (amount : Z) (st : Rosette) : result Rosette :=
  match TE_identifier st !! identifier with
  | Some keys =>
      count_variable ← variable_of_keys st keys;
      if count_sirna st then
        counts ← Py.getitem (sirna_count st) count_variable;
        old ← Py.index counts (current_sample st);
        counts' ← Py.setitem counts (current_sample st) (old + amount);
        let st1 := with_sirna_count (<[count_variable := counts']> (sirna_count st)) st in
        total ← Py.getitem (sirna_count_total st1) count_variable;
        Ok (with_sirna_count_total (<[count_variable := total + amount]> (sirna_count_total st1)) st1)
      else Raise AttributeError
  | None => Ok (print (identifier +:+ " not found in the Rosette file") st)
  end.

(** [get_count_variable]: the value returned ([None] is Python's
    [None]) and the table, which has the message when one is printed. *)
Definition get_count_variable (identifier : string) (st : Rosette)
    : result (option string * Rosette) :=
  match TE_identifier st !! identifier with
  | Some keys =>
      count_variable ← variable_of_keys st keys;
      Ok (Some count_variable, st)
  | None =>
      Ok (None, print (identifier +:+ " copy name not found                   in the Rosette file") st)
  end.

(** One round of the loops of [reset_count]. *)
Definition reset_slot (item : string) (st : Rosette) : result Rosette :=
  counts ← Py.getitem (TE_count st) item;
  counts' ← Py.setitem counts (current_sample st) 0;
  let st1 := with_TE_count (<[item := counts']> (TE_count st)) st in
  if count_sirna st1 then
    si ← Py.getitem (sirna_count st1) item;
    si' ← Py.setitem si (current_sample st1) 0;
    Ok (with_sirna_count (<[item := si']> (sirna_count st1)) st1)
  else Ok st1.

Definition reset_count (st : Rosette) : result Rosette :=
  let st1 := with_current_sample (current_sample st + 1) st in
  (* the total count is never reset *)
  for_each reset_slot (OD.keys (TE_count_variable st1)) st1.

(** One round of the loop of [purge] over the lines of the fasta file. *)
Definition purge_line (raw : string) (st : Rosette) : result Rosette :=
  c ← Py.head raw;
  if bool_decide (c = ">"%char) then
    token ← Py.index (Py.split raw) 0;
    r ← get_count_variable (Py.tail token) st;
    match r.1 with
    | Some count_variable =>
        Ok (with_TE_count_valid (<[count_variable := true]> (TE_count_valid r.2)) r.2)
    | None => Ok r.2
    end
  else Ok st.

Definition purge (fasta_file : list string) (st : Rosette) : result Rosette :=
  let st1 := with_TE_count_valid ((λ _, false) <$> TE_count_valid st) st in
  st2 ← for_each purge_line fasta_file st1;
  Ok (with_purged true st2).

(** One round of the loop of [write] over the attribute columns: the
    text written so far. *)
Definition write_attr (st : Rosette) (keys : list nat) (i : nat) (text : string)
    : result string :=
  if bool_decide (Z.of_nat i + 1 ≠ count_column st) then
    d ← Py.index (TE st) (Z.of_nat i);
    key ← Py.index keys (Z.of_nat i);
    value ← DD.getitem d key;
    Ok (text +:+ value +:+ " ")
  else Ok text.

(** [for count in counts: write(str(count)+' ')] *)
Definition write_counts (counts : list Z) (text : string) : string :=
  fold_left (λ text count, text +:+ Py.str count +:+ " ") counts text.

(** The text both branches of [write] send to each open file for one
    item that is valid: the shared columns, then the counts of that
    file, its total and the end of line. *)
Definition write_item (st : Rosette) (item : string) : result (string * option string) :=
  keys ← of_option KeyError (OD.get (TE_count_variable st) item);
  value ← variable_of_keys st keys;
  columns ← for_each (write_attr st keys) (range (column_number st - 1)) (value +:+ " ");
  counts ← Py.getitem (TE_count st) item;
  if count_sirna st then
    si ← Py.getitem (sirna_count st) item;
    total ← Py.getitem (TE_count_total st) item;
    si_total ← Py.getitem (sirna_count_total st) item;
    Ok (write_counts counts columns +:+ Py.str total +:+ "
",
        Some (write_counts si columns +:+ Py.str si_total +:+ "
"))
  else
    total ← Py.getitem (TE_count_total st) item;
    Ok (write_counts counts columns +:+ Py.str total +:+ "
", None).

(** The loop of [write] over the sorted items: the lines of the count
    file and of the small-RNA count file. *)
Fixpoint write_loop (st : Rosette) (items : list string) : result (list string * list string) :=
  match items with
  | [] => Ok ([], [])
  | item :: rest =>
      valid ← Py.getitem (TE_count_valid st) item;
      if valid : bool then
        lines ← write_item st item;
        files ← write_loop st rest;
        Ok (lines.1 :: files.1,
            match lines.2 with Some l => l :: files.2 | None => files.2 end)
      else write_loop st rest
  end.

(** The items in the order [write] visits them:
    [sorted(self.TE_count_variable, key=lambda key: self.TE_count_variable[key])]. *)
Definition sorted_items (st : Rosette) : list string :=
  OD.keys (sorted_by snd (TE_count_variable st)).

(** [write]: the lines of the count file and, when small-RNA counts are
    kept, those of the second file. *)
Definition write (st : Rosette) : result (list string * option (list string)) :=
  files ← write_loop st (sorted_items st);
  Ok (files.1, if count_sirna st then Some files.2 else None).

End Rosette.

(** ** The alignment counting engine *)

(** What [__count] does with one line of the alignment stream. *)
Inductive routed : Type :=
| ToCount (identifier : string)      (* [self.rosette.count(str(line[2]), 1)] *)
| ToCountSi (identifier : string)    (* [self.rosette.count_si(str(line[2]), 1)] *)
| NotCounted.

(** The attributes of a [Count] object that [__count] reads:
    [self.config['sirna_size']], [self.rosette] and [self.max_mapq]. *)
Record Count : Type := mkCount {
  config_sirna_size : string;
  rosette : Rosette;
  max_mapq : Z
}.

Module Count.

(** The tests [__count] makes on one line, in both of its branches;
    [sirna] is [self.rosette.sirna()]. *)
Definition classify (sirna : bool) (max_mapq : Z) (sirna_size : string) (raw : string)
    : result routed :=
  c ← Py.head raw;
  if bool_decide (c ≠ "@"%char) then
    let line := Py.split raw in
    if bool_decide (4 < length line)%nat then
      name ← Py.index line 2;
      c2 ← Py.head name;
      if bool_decide (c2 ≠ "*"%char) then
        field ← Py.index line 4;
        mapq ← of_option ValueError (Py.int field);
        if bool_decide (mapq ≤ max_mapq) then
          if sirna then
            read ← Py.index line 9;
            size ← of_option ValueError (Py.int sirna_size);
            if bool_decide (Z.of_nat (String.length read) ≠ size)
            then Ok (ToCount name) else Ok (ToCountSi name)
          else Ok (ToCount name)
        else Ok NotCounted
      else Ok NotCounted
    else Ok NotCounted
  else Ok NotCounted.

(** One round of the loop of [__count]. *)
Definition count_line (self : Count) (raw : string) (st : Rosette) : result Rosette :=
  r ← classify (Rosette.sirna st) (max_mapq self) (config_sirna_size self) raw;
  match r with
  | ToCount identifier => Rosette.count identifier 1 st
  | ToCountSi identifier => Rosette.count_si identifier 1 st
  | NotCounted => Ok st
  end.

(** [__count] on the lines of [self.sam_file] *)
Definition count (sam_file : list string) (self : Count) : result Count :=
  st ← for_each (count_line self) sam_file (rosette self);
  Ok (mkCount (config_sirna_size self) st (max_mapq self)).

(** [__init__], once [max_mapq] is read as an integer: the table is
    purged against the fasta file. *)
Definition init (sirna_size : string) (st : Rosette) (max_mapq : Z)
    (fasta_file : list string) : result Count :=
  st' ← Rosette.purge fasta_file st;
  Ok (mkCount sirna_size st' max_mapq).

(** [from_sam] on a file that exists *)
Definition from_sam (sam_file : list string) (self : Count) : result Count :=
  st ← Rosette.reset_count (rosette self);
  count sam_file (mkCount (config_sirna_size self) st (max_mapq self)).

(** [write] *)
Definition write (self : Count) : result (list string * option (list string)) :=
  Rosette.write (rosette self).

End Count.

(** ** The module body *)

Module Main.

(** The number of samples, as the module computes it from the numbers
    of fastq and sam files given ([None] when the option is absent):
    the program exits when there are fewer sam files than fastq files,
    and when there is no sample. *)
Definition sample_number (fastq_files sam_files : option nat) : result Z :=
  match fastq_files, sam_files with
  | Some f, Some s => if bool_decide (s < f)%nat then Raise (SystemExit 1)
                      else if bool_decide (s = 0)%nat then Raise (SystemExit 1)
                      else Ok (Z.of_nat s)
  | None, Some s => if bool_decide (s = 0)%nat then Raise (SystemExit 1) else Ok (Z.of_nat s)
  | Some f, None => if bool_decide (f = 0)%nat then Raise (SystemExit 1) else Ok (Z.of_nat f)
  | None, None => Raise (SystemExit 1)
  end.

(** The module body up to the end of the loop over the samples, when
    sam files are given and each of them is on disk, so that every
    sample goes through [from_sam]: the table is loaded, purged against
    the fasta file, and the samples are counted one after the other.
    [fastq_files] is the number of fastq files given, if any. *)
Definition count_samples (fastq_files : option nat) (sam_files : list (list string))
    (rosette_file : list string) (count_column : Z) (count_file : option string)
    (count_sirna_file : option string) (mapq : Z) (fasta_file : list string)
    (sirna_size : string) : result Count :=
  n ← sample_number fastq_files (Some (length sam_files));
  rosette ← Rosette.init rosette_file count_column count_file n count_sirna_file;
  count ← Count.init sirna_size rosette mapq fasta_file;
  for_each Count.from_sam sam_files count.

(** The whole module body: once the samples are counted, the last
    statement, [count.write()], writes the count files. The result is
    the [Count] object and the lines written. *)
Definition main (fastq_files : option nat) (sam_files : list (list string))
    (rosette_file : list string) (count_column : Z) (count_file : option string)
    (count_sirna_file : option string) (mapq : Z) (fasta_file : list string)
    (sirna_size : string) : result (Count * (list string * option (list string))) :=
  count ← count_samples fastq_files sam_files rosette_file count_column count_file
                        count_sirna_file mapq fasta_file sirna_size;
  files ← Count.write count;
  Ok (count, files).

End Main.

(** * Specification vocabulary *)

(** ** Interning *)

(** What one [add] does to the sequence of distinct values seen. *)
Definition see (seen : list string) (item : string) : list string :=
  if decide (item ∈ seen) then seen else seen ++ [item].

(** The distinct values of a sequence, in the order of their first
    occurrence. *)
Definition first_seen (items : list string) : list string :=
  foldl see [] items.

(** The table [d] interns exactly [vals], the value at position [k]
    under key [k]. *)
Definition dd_holds (d : Double_dict) (vals : list string) : Prop :=
  NoDup vals ∧
  forward_dict d = map_seq 0 vals ∧
  ∀ v k, reverse_dict d !! v = Some k ↔ vals !! k = Some v.

(** ** Runs of the annotation table *)

(** The calls a driver makes on a loaded table. *)
Inductive call : Type :=
| StartSample                                      (* [reset_count()] *)
| CountCall (identifier : string) (amount : Z)     (* [count(identifier, amount)] *)
| CountSmallRNA (identifier : string) (amount : Z) (* [count_si(identifier, amount)] *)
| Purge (fasta_file : list string).                (* [purge(fasta_file)] *)

Definition step (c : call) (st : Rosette) : result Rosette :=
  match c with
  | StartSample => Rosette.reset_count st
  | CountCall identifier amount => Rosette.count identifier amount st
  | CountSmallRNA identifier amount => Rosette.count_si identifier amount st
  | Purge fasta_file => Rosette.purge fasta_file st
  end.

Definition run (calls : list call) (st : Rosette) : result Rosette :=
  for_each step calls st.

(** The grouping variable an identifier resolves to, if any. *)
Definition resolve (st : Rosette) (identifier : string) : option string :=
  keys ← TE_identifier st !! identifier;
  match Rosette.variable_of_keys st keys with
  | Ok count_variable => Some count_variable
  | Raise _ => None
  end.

(** The grouping variable a line of the sequence file stands for: the
    line is a header (it starts with [>]) and its first token, the
    marker stripped, is an identifier that resolves. *)
Definition header_variable (st : Rosette) (raw : string) : option string :=
  match raw with
  | String ">" _ => token ← Py.split raw !! 0%nat; resolve st (Py.tail token)
  | _ => None
  end.

(** The sum of the amounts of the [count] calls resolving to [v]. *)
Fixpoint counted (st : Rosette) (v : string) (calls : list call) : Z :=
  match calls with
  | [] => 0
  | CountCall identifier amount :: rest =>
      (if decide (resolve st identifier = Some v) then amount else 0) + counted st v rest
  | _ :: rest => counted st v rest
  end.

(** The sum of the amounts of the [count_si] calls resolving to [v]. *)
Fixpoint counted_si (st : Rosette) (v : string) (calls : list call) : Z :=
  match calls with
  | [] => 0
  | CountSmallRNA identifier amount :: rest =>
      (if decide (resolve st identifier = Some v) then amount else 0) + counted_si st v rest
  | _ :: rest => counted_si st v rest
  end.

(** The number of [reset_count] calls. *)
Fixpoint resets (calls : list call) : Z :=
  match calls with
  | [] => 0
  | StartSample :: rest => 1 + resets rest
  | _ :: rest => resets rest
  end.

(** ** Classification *)

(** The reference name starts with the character [*]. *)
Definition starred (name : string) : bool :=
  match name with String c _ => bool_decide (c = "*"%char) | EmptyString => false end.

(** The three tests of [__count] on the fields of a line. *)
Definition qualifies (max_mapq : Z) (line : list string) : Prop :=
  (4 < length line)%nat ∧
  (∃ name, line !! 2%nat = Some name ∧ starred name = false) ∧
  ∃ mapq, line !! 4%nat ≫= Py.int = Some mapq ∧ mapq ≤ max_mapq.

(** Following the words of the specification: more than 4 fields, a
    reference identifier that is not the unmapped placeholder, a mapping
    quality at most the maximum. *)
Definition spec_qualifies (max_mapq : Z) (line : list string) : Prop :=
  (4 < length line)%nat ∧
  (∃ name, line !! 2%nat = Some name ∧ name ≠ "*") ∧
  ∃ mapq, line !! 4%nat ≫= Py.int = Some mapq ∧ mapq ≤ max_mapq.

(** A line is counted once, under the name in its third field. *)
Definition counts_once (r : result routed) (line : list string) : Prop :=
  ∃ name, line !! 2%nat = Some name ∧ (r = Ok (ToCount name) ∨ r = Ok (ToCountSi name)).

(** ** Grouping column *)

(** Following the words of the specification, with columns numbered
    from 1 and list positions from 0: a value below the range selects
    column 1, any other value [c] selects column [c]. *)
Definition spec_count_column (c : Z) : Z :=
  if bool_decide (c ≤ 0) then 0 else c - 1.

(** ** Loading *)

(** The lines [read] prints for a file whose rows are compared with [n]
    columns, [i] lines having been read before. *)
Fixpoint mismatches (n i : nat) (file : list string) : list string :=
  match file with
  | [] => []
  | raw :: rest =>
      (if bool_decide (length (Py.split raw) ≠ n)
       then [Rosette.mismatch_message (S i) (length (Py.split raw))] else [])
      ++ mismatches n (S i) rest
  end.

(** The rows loading reads when rows of fewer than [n] columns end it:
    those up to the first such row, that row included. *)
Fixpoint rows_read (n : nat) (file : list string) : list string :=
  match file with
  | [] => []
  | raw :: rest =>
      if bool_decide (length (Py.split raw) < n)%nat then [raw] else raw :: rows_read n rest
  end.

(** Every grouping variable has a total, and it is zero. *)
Definition zero_totals (st : Rosette) : Prop :=
  ∀ v, v ∈ OD.keys (TE_count_variable st) →
    TE_count_total st !! v = Some 0 ∧
    (count_sirna st = true → sirna_count_total st !! v = Some 0).

(** Every grouping variable has its count vectors, and every count
    vector has one slot per sample. *)
Definition counts_wf (st : Rosette) : Prop :=
  (∀ v, v ∈ OD.keys (TE_count_variable st) →
     is_Some (TE_count st !! v) ∧ is_Some (TE_count_total st !! v) ∧
     is_Some (TE_count_valid st !! v) ∧
     (count_sirna st = true →
        is_Some (sirna_count st !! v) ∧ is_Some (sirna_count_total st !! v))) ∧
  (∀ v counts, TE_count st !! v = Some counts →
     length counts = Z.to_nat (sample_number st)) ∧
  (∀ v counts, sirna_count st !! v = Some counts →
     length counts = Z.to_nat (sample_number st)).

(** A call other than [purge]. *)
Definition counting (c : call) : Prop :=
  match c with Purge _ => False | _ => True end.

(** ** Frames *)

(** The attributes no method changes once the table is created. *)
Definition same_config (st st' : Rosette) : Prop :=
  count_sirna st' = count_sirna st ∧
  sample_number st' = sample_number st ∧
  count_column st' = count_column st ∧
  column_number st' = column_number st.

(** The attributes only loading changes. *)
Definition same_annotation (st st' : Rosette) : Prop :=
  TE st' = TE st ∧
  TE_identifier st' = TE_identifier st ∧
  TE_count_variable st' = TE_count_variable st.

(** ** Sample data *)

Definition table_of (r : result Rosette) : Rosette :=
  match r with Ok st => st | Raise _ => Rosette.fresh 2 0 false 0 end.

(** Three copies of one family and one copy of another. *)
Definition sample_annotation : list string :=
  ["c1 LINE1 x"; "c2 LINE1 y"; "c3 LINE1 z"; "c4 SINE1 w"].

(** The annotation loaded for two samples, grouped on its second column. *)
Definition sample_table : Rosette :=
  table_of (Rosette.init sample_annotation 2 (Some "counts.txt") 2 None).

(** The same, with small-RNA counts kept apart. *)
Definition sample_table_si : Rosette :=
  table_of (Rosette.init sample_annotation 2 (Some "counts.txt") 2 (Some "sirna.txt")).

Definition sample_fasta : list string := [">c2 copy"; "ACGT"].

(** ** Purging and writing *)

(** Some line of the sequence file is a header that resolves to [v]. *)
Definition has_header (st : Rosette) (fasta : list string) (v : string) : Prop :=
  Exists (λ raw, header_variable st raw = Some v) fasta.

(** The grouping variable is flagged valid. *)
Definition valid (st : Rosette) (v : string) : Prop :=
  TE_count_valid st !! v = Some true.

#[global] Instance has_header_dec st fasta v : Decision (has_header st fasta v).
Proof. unfold has_header. apply _. Defined.

#[global] Instance valid_dec st v : Decision (valid st v).
Proof. unfold valid. apply _. Defined.

(** The lines [write] sends to the count file ([si = false]) or to the
    small-RNA count file ([si = true]) are those of [items], in order. *)
Definition lines_of (st : Rosette) (si : bool) (items lines : list string) : Prop :=
  Forall2 (λ v line, ∃ l, Rosette.write_item st v = Ok l ∧
                          (if si then l.2 = Some line else l.1 = line))
          items lines.

(** ** The tables behind the key vectors *)

(** The table interns some sequence of distinct values. *)
Definition dd_wf (d : Double_dict) : Prop := ∃ vals, dd_holds d vals.

(** The value table [i] stores under key [k]. *)
Definition stored (tables : list Double_dict) (i k : nat) : option string :=
  d ← tables !! i; forward_dict d !! k.

(** The tables only grow. *)
Definition tables_le (tables tables' : list Double_dict) : Prop :=
  length tables' = length tables ∧
  ∀ i k x, stored tables i k = Some x → stored tables' i k = Some x.

(** The positions [i] of [range(n - 1)] that the loops of [add] and
    [write] visit: those with [i + 1] other than the grouping column. *)
Definition other_columns (n cc : nat) : list nat :=
  filter (λ i, S i ≠ cc) (seq 0 (n - 1)).

(** [keys] is the key vector [add] builds for [row] when the grouping
    column is [cc]: first the key of the grouping value [v] in table
    [cc], then for each other position [i] the key of column [i + 1] in
    table [i]. *)
Definition row_keys (tables : list Double_dict) (n cc : nat)
    (keys : list nat) (v : string) (row : list string) : Prop :=
  ∃ k0 new, keys = k0 :: new ∧
    stored tables cc k0 = Some v ∧
    Forall2 (λ i k, ∃ x, row !! S i = Some x ∧ stored tables i k = Some x)
            (other_columns n cc) new.

(** The last row whose grouping column holds [v]. *)
Fixpoint last_row (cc : nat) (rows : list (list string)) (v : string)
    : option (list string) :=
  match rows with
  | [] => None
  | row :: rest =>
      match last_row cc rest v with
      | Some r => Some r
      | None => if decide (row !! cc = Some v) then Some row else None
      end
  end.

(** The table holds exactly the rows [rows], read with [n] columns and
    grouped on column [cc]: the grouping variables are the values of
    that column, each with the key vector of its last row, and the
    identifiers are the values of the first column, each with the key
    vector of its last row. *)
Definition loaded (st : Rosette) (n cc : nat) (rows : list (list string)) : Prop :=
  column_number st = n ∧ count_column st = Z.of_nat cc ∧ (1 ≤ cc)%nat ∧
  length (TE st) = Nat.max 1 n ∧
  Forall dd_wf (TE st) ∧
  NoDup (OD.keys (TE_count_variable st)) ∧
  (∀ v, v ∈ OD.keys (TE_count_variable st) ↔ ∃ row, row ∈ rows ∧ row !! cc = Some v) ∧
  (∀ v keys, OD.get (TE_count_variable st) v = Some keys →
     ∃ row, last_row cc rows v = Some row ∧ row_keys (TE st) n cc keys v row) ∧
  (∀ identifier,
     match TE_identifier st !! identifier with
     | Some keys =>
         ∃ row v, last_row 0 rows identifier = Some row ∧ row !! cc = Some v ∧
                  row_keys (TE st) n cc keys v row
     | None => last_row 0 rows identifier = None
     end).

(** Following the words of the specification: the grouping value, the
    other attribute values, the count of every sample and the lifetime
    total, each followed by one space but for the total, which ends the
    line. *)
Definition spec_line (v : string) (attrs : list string) (counts : list Z) (total : Z)
    : string :=
  v +:+ " " +:+
  fold_right (λ a text, a +:+ " " +:+ text)
    (fold_right (λ count text, Py.str count +:+ " " +:+ text)
       (Py.str total +:+ "
") counts) attrs.

(** The key vector of [a] starts with a smaller key than that of [b]. *)
Definition key_lt {A} (key : A → list nat) (a b : A) : Prop :=
  ∃ ka kb, head (key a) = Some ka ∧ head (key b) = Some kb ∧ (ka < kb)%nat.

(** The key under which the table of the grouping column interns [v]. *)
Definition group_key (st : Rosette) (v : string) : option nat :=
  d ← TE st !! Z.to_nat (count_column st); reverse_dict d !! v.

(** [u] was interned in the table of the grouping column before [v]. *)
Definition interned_before (st : Rosette) (u v : string) : Prop :=
  ∃ ku kv, group_key st u = Some ku ∧ group_key st v = Some kv ∧ (ku < kv)%nat.

(** The line of [v] in an output file agrees with the last row loaded
    for [v] and with the given counts and totals. *)
Definition line_for (st : Rosette) (rows : list (list string))
    (count : gmap string (list Z)) (total : gmap string Z) (v line : string) : Prop :=
  ∃ row counts t,
    last_row 1 rows v = Some row ∧ count !! v = Some counts ∧ total !! v = Some t ∧
    line = spec_line v (take (column_number st - 2) (drop 2 row)) counts t.


(** ** A sample run *)

(** The table is purged against the sequence file; the first sample
    has two reads on copies of LINE1 and one on an unknown copy, the
    second one read on the copy of SINE1. *)
Definition sample_calls : list call :=
  [Purge sample_fasta; StartSample; CountCall "c1" 1; CountCall "c2" 1;
   CountCall "zz" 1; StartSample; CountCall "c4" 1].

Definition sample_calls_si : list call :=
  [Purge sample_fasta; StartSample; CountCall "c1" 1; CountSmallRNA "c2" 1;
   StartSample; CountSmallRNA "c3" 1].

(** An annotation with four columns. *)
Definition wide_annotation : list string :=
  ["c1 A LINE1 x"; "c2 B LINE1 y"; "c3 C LINE2 y"].

(** ** Slots of the count vectors *)

(** The position a cursor [cs] addresses in a vector of [n] slots. *)
Definition slot_index (n cs : Z) : nat :=
  Z.to_nat (if cs <? 0 then n + cs else cs).

(** The main counts ([si = false]) or the small-RNA counts. *)
Definition counts_of (si : bool) (st : Rosette) : gmap string (list Z) :=
  if si then sirna_count st else TE_count st.

Definition totals_of (si : bool) (st : Rosette) : gmap string Z :=
  if si then sirna_count_total st else TE_count_total st.

(** What a call adds to the counts of [v]. *)
Definition amount_for (st : Rosette) (v : string) (si : bool) (c : call) : Z :=
  match c, si with
  | CountCall identifier amount, false
  | CountSmallRNA identifier amount, true =>
      if decide (resolve st identifier = Some v) then amount else 0
  | _, _ => 0
  end.

(** The content of slot [k] of the vector of [v] after the calls, when
    it holds [x] before them and the cursor is at [cs]: [reset_count]
    moves the cursor and zeroes the slot it reaches, a count adds to
    the slot under the cursor. *)
Fixpoint slot (st : Rosette) (v : string) (si : bool) (k : nat) (cs : Z)
    (calls : list call) (x : Z) : Z :=
  match calls with
  | [] => x
  | StartSample :: rest =>
      slot st v si k (cs + 1) rest
        (if decide (slot_index (sample_number st) (cs + 1) = k) then 0 else x)
  | c :: rest =>
      slot st v si k cs rest
        (if decide (slot_index (sample_number st) cs = k) then x + amount_for st v si c else x)
  end.

(** ** The calls behind a sample *)

(** The call [__count] makes for a line, if any. *)
Definition line_call (self : Count) (sirna : bool) (raw : string) : option call :=
  match Count.classify sirna (max_mapq self) (config_sirna_size self) raw with
  | Ok (ToCount identifier) => Some (CountCall identifier 1)
  | Ok (ToCountSi identifier) => Some (CountSmallRNA identifier 1)
  | _ => None
  end.

(** The calls [from_sam] makes on the table for one sam file. *)
Definition sam_calls (self : Count) (sirna : bool) (sam_file : list string) : list call :=
  StartSample :: omap (line_call self sirna) sam_file.

(** The number of lines of a sam file counted for [v]. *)
Definition hits (self : Count) (st : Rosette) (v : string) (si : bool)
    (sam_file : list string) : Z :=
  if si then counted_si st v (sam_calls self (count_sirna st) sam_file)
  else counted st v (sam_calls self (count_sirna st) sam_file).

(** Every line of the file is read without an exception. *)
Definition readable (self : Count) (sirna : bool) (sam_file : list string) : Prop :=
  Forall (λ raw, is_Ok (Count.classify sirna (max_mapq self) (config_sirna_size self) raw))
         sam_file.

(** The grouping column the table uses for a supplied value [c]. *)
Definition used_column (c : Z) : nat :=
  Z.to_nat (if bool_decide (c - 1 ≤ 0) then 1 else c - 1).

(** The value of column [cc] in each row that has one. *)
Definition column (cc : nat) (rows : list (list string)) : list string :=
  omap (λ row, row !! cc) rows.

(** A sample sam file for each of the two samples of the sample table. *)
Definition sample_sams : list (list string) :=
  [["@HD VN:1.0";
    "r1 0 c1 1 255 4M * 0 0 ACGT IIII";
    "r2 0 c2 1 0 4M * 0 0 ACGT IIII";
    "r3 4 * 0 0 * * 0 0 ACGT IIII";
    "r4 0 c4 1 3 4M * 0 0 ACGTA IIIII"];
   ["r5 0 c3 1 0 4M * 0 0 ACGT IIII";
    "r6 0 zz 1 0 4M * 0 0 ACGT IIII"]].

(** Every grouping variable has count vectors of zeros. *)
Definition zero_counts (st : Rosette) : Prop :=
  ∀ v, v ∈ OD.keys (TE_count_variable st) →
    TE_count st !! v = Some (Py.repeat 0 (sample_number st)) ∧
    (count_sirna st = true → sirna_count st !! v = Some (Py.repeat 0 (sample_number st))).

(** The sum of a list of integers. *)
Definition sum_list (l : list Z) : Z := foldr Z.add 0 l.

(** Every grouping variable is flagged valid. *)
Definition flagged (st : Rosette) : Prop :=
  ∀ v, v ∈ OD.keys (TE_count_variable st) → TE_count_valid st !! v = Some true.

(** The line is one [__count] passes on. *)
Definition counted_line (self : Count) (sirna : bool) (raw : string) : bool :=
  match line_call self sirna raw with Some _ => true | None => false end.

(** ** A sample run of the module body *)

Definition count_of (r : result Count) : Count :=
  match r with Ok count => count | Raise _ => mkCount "" (Rosette.fresh 2 0 false 0) 0 end.

(** The module body on the sample annotation and the two sample sam
    files, with reads of quality at most 10 counted: up to the end of
    the loop over the samples, and as a whole. *)
Definition sample_counted : result Count :=
  Main.count_samples None sample_sams sample_annotation 2 (Some "counts.txt") None 10
                     sample_fasta "4".

Definition sample_main : result (Count * (list string * option (list string))) :=
  Main.main None sample_sams sample_annotation 2 (Some "counts.txt") None 10
            sample_fasta "4".

(** One sample started and one read counted. *)
Definition sample_first_calls : list call :=
  [Purge sample_fasta; StartSample; CountCall "c1" 1].

(** Calls on a table without rows: more samples than the table was
    created for. *)
Definition sample_calls_no_rows : list call :=
  [StartSample; StartSample; StartSample; CountCall "c1" 1; Purge sample_fasta].

(** * Properties *)

(** ** The result monad *)

Lemma bind_Ok {A B} (m : result A) (f : A → result B) (b : B) :
  m ≫= f = Ok b ↔ ∃ a, m = Ok a ∧ f a = Ok b.
Proof.
  destruct m as [a|e]; simpl.
  - split; [eauto | by intros (? & [= <-] & ?)].
  - split; [done | by intros (? & ? & ?)].
Qed.

Lemma of_option_Ok {A} e (o : option A) a : of_option e o = Ok a ↔ o = Some a.
Proof. destruct o; simpl; split; congruence. Qed.

(** ** The interning table *)

Section interning.

Implicit Types (d : Double_dict) (vals items : list string) (item : string).

Lemma size_map_seq vals : size (map_seq 0 vals : gmap nat string) = length vals.
Proof.
  induction vals as [|x vals IH] using rev_ind; [done|].
  rewrite map_seq_snoc, length_app, map_size_insert_None; simpl; [lia|].
  apply lookup_map_seq_None. lia.
Qed.

Lemma dd_holds_empty : dd_holds DD.empty [].
Proof.
  split; [constructor|]. split; [done|].
  intros v k. simpl. rewrite lookup_empty, lookup_nil. done.
Qed.

Lemma dd_holds_len d vals : dd_holds d vals → DD.len d = length vals.
Proof. intros (_ & Hf & _). unfold DD.len. rewrite Hf. apply size_map_seq. Qed.

Lemma dd_holds_forward d vals k : dd_holds d vals → forward_dict d !! k = vals !! k.
Proof. intros (_ & -> & _). apply lookup_map_seq_0. Qed.

Lemma see_prefix vals item : vals `prefix_of` see vals item.
Proof. unfold see. case_decide; [done|]. by apply prefix_app_r. Qed.

Lemma foldl_see_prefix items vals : vals `prefix_of` foldl see vals items.
Proof.
  revert vals. induction items as [|x items IH]; intros vals; simpl; [done|].
  etrans; [apply see_prefix | apply IH].
Qed.

Lemma see_NoDup vals item : NoDup vals → NoDup (see vals item).
Proof.
  intros Hnd. unfold see. case_decide; [done|].
  apply NoDup_app. split_and!; [done| |apply NoDup_singleton].
  intros x Hx ->%list_elem_of_singleton. done.
Qed.

Lemma see_elem_of vals item v : v ∈ see vals item ↔ v ∈ vals ∨ v = item.
Proof.
  unfold see. case_decide.
  - naive_solver.
  - rewrite elem_of_app, list_elem_of_singleton. done.
Qed.

Lemma foldl_see_NoDup items vals : NoDup vals → NoDup (foldl see vals items).
Proof.
  revert vals. induction items as [|x items IH]; intros vals Hnd; simpl; [done|].
  by apply IH, see_NoDup.
Qed.

Lemma foldl_see_elem_of items vals v :
  v ∈ foldl see vals items ↔ v ∈ vals ∨ v ∈ items.
Proof.
  revert vals. induction items as [|x items IH]; intros vals; simpl.
  - rewrite elem_of_nil. naive_solver.
  - rewrite IH, see_elem_of, elem_of_cons. naive_solver.
Qed.

(** One call of [add]: the table follows [see], and the key returned is
    the position of the item among the distinct values. *)
Lemma dd_add_holds d vals item :
  dd_holds d vals →
  dd_holds (DD.add item d).2 (see vals item) ∧
  see vals item !! (DD.add item d).1 = Some item.
Proof.
  intros (Hnd & Hf & Hr). unfold DD.add, see.
  destruct (reverse_dict d !! item) as [key|] eqn:Hitem.
  - apply Hr in Hitem as Hk.
    rewrite decide_True by (by eapply list_elem_of_lookup_2).
    simpl. by split.
  - assert (item ∉ vals) as Hnotin.
    { intros (k & Hk)%list_elem_of_lookup_1. apply Hr in Hk. congruence. }
    rewrite decide_False by done. simpl.
    assert (size (forward_dict d) = length vals) as Hsize
      by (rewrite Hf; apply size_map_seq).
    rewrite Hsize. split.
    + split; [|split].
      * apply NoDup_app. split_and!; [done| |apply NoDup_singleton].
        by intros x Hx ->%list_elem_of_singleton.
      * simpl. by rewrite map_seq_snoc, Hf.
      * intros v k. simpl. rewrite lookup_insert. case_decide as Hv.
        -- subst v. split.
           ++ intros [= <-]. by rewrite lookup_app_r, Nat.sub_diag.
           ++ intros Hk. f_equal.
              destruct (decide (k < length vals)%nat) as [Hlt|Hge].
              ** rewrite lookup_app_l in Hk by done.
                 exfalso. by eapply Hnotin, list_elem_of_lookup_2.
              ** apply lookup_lt_Some in Hk. rewrite length_app in Hk.
                 simpl in Hk. lia.
        -- rewrite Hr. split.
           ++ intros Hk. by apply lookup_app_l_Some.
           ++ intros Hk. destruct (decide (k < length vals)%nat) as [Hlt|Hge].
              ** by rewrite lookup_app_l in Hk.
              ** rewrite lookup_app_r in Hk by lia.
                 apply list_lookup_singleton_Some in Hk as [_ ?]. congruence.
    + by rewrite lookup_app_r, Nat.sub_diag.
Qed.

Lemma dd_add_all_holds items d vals :
  dd_holds d vals →
  dd_holds (DD.add_all items d).2 (foldl see vals items) ∧
  Forall2 (λ item key, foldl see vals items !! key = Some item)
          items (DD.add_all items d).1.
Proof.
  revert d vals. induction items as [|x items IH]; intros d vals Hd; simpl.
  - split; [done | constructor].
  - destruct (dd_add_holds d vals x Hd) as [Hd1 Hkey].
    destruct (DD.add x d) as [key d1] eqn:Hadd. simpl in *.
    destruct (IH d1 (see vals x) Hd1) as [Hd2 Hkeys].
    destruct (DD.add_all items d1) as [keys d2]. simpl in *.
    split; [done|]. constructor; [|done].
    eapply prefix_lookup_Some; [done | apply foldl_see_prefix].
Qed.

Lemma first_seen_snoc items item :
  first_seen (items ++ [item]) =
  if decide (item ∈ items) then first_seen items else first_seen items ++ [item].
Proof.
  unfold first_seen. rewrite foldl_snoc. unfold see at 1.
  destruct (decide (item ∈ items)) as [Hin|Hnotin].
  - rewrite decide_True; [done|]. apply foldl_see_elem_of. by right.
  - rewrite decide_False; [done|]. rewrite foldl_see_elem_of, elem_of_nil. naive_solver.
Qed.

(** C5. For every finite sequence of [add] calls on a fresh interning
    table: two calls with the same value return the same key; the size
    of the table is the number of distinct values added; the keys handed
    out are exactly [0 .. len-1]; and the key of a value is its rank in
    the order of first occurrence. *)
Theorem interning_add_all items :
  let keys := (DD.add_all items DD.empty).1 in
  let d := (DD.add_all items DD.empty).2 in
  (∀ i j v, items !! i = Some v → items !! j = Some v →
     ∃ k, keys !! i = Some k ∧ keys !! j = Some k) ∧
  (DD.len d = length (first_seen items) ∧
   DD.len d = size (list_to_set items : gset string) ∧
   NoDup (first_seen items) ∧ ∀ v, v ∈ first_seen items ↔ v ∈ items) ∧
  (∀ k, (∃ i, keys !! i = Some k) ↔ (k < DD.len d)%nat) ∧
  (∀ i v, items !! i = Some v →
     ∃ k, keys !! i = Some k ∧ first_seen items !! k = Some v) ∧
  (∀ k, forward_dict d !! k = first_seen items !! k) ∧
  (∀ v k, reverse_dict d !! v = Some k ↔ first_seen items !! k = Some v).
Proof.
  intros keys d.
  destruct (dd_add_all_holds items DD.empty [] dd_holds_empty) as [Hd Hkeys].
  fold (first_seen items) in Hd, Hkeys. fold keys in Hkeys. fold d in Hd.
  assert (NoDup (first_seen items)) as Hnd by apply Hd.
  assert (∀ v, v ∈ first_seen items ↔ v ∈ items) as Hmem.
  { intros v. unfold first_seen. rewrite foldl_see_elem_of, elem_of_nil. naive_solver. }
  assert (∀ i v, items !! i = Some v →
            ∃ k, keys !! i = Some k ∧ first_seen items !! k = Some v) as Hrank.
  { intros i v Hi.
    destruct (Forall2_lookup_l _ _ _ _ _ Hkeys Hi) as (k & Hk & Hv). eauto. }
  split_and!.
  - intros i j v Hi Hj.
    destruct (Hrank i v Hi) as (k & Hk & Hkv).
    destruct (Hrank j v Hj) as (k' & Hk' & Hkv').
    assert (k = k') as <- by (eapply NoDup_lookup; eauto). eauto.
  - by apply dd_holds_len.
  - rewrite (dd_holds_len d _ Hd).
    rewrite <- (size_list_to_set (C:=gset string) (first_seen items)) by done.
    f_equal. apply set_eq. intros v. rewrite !elem_of_list_to_set. apply Hmem.
  - done.
  - done.
  - intros k. rewrite (dd_holds_len d _ Hd). split.
    + intros (i & Hi).
      destruct (Forall2_lookup_r _ _ _ _ _ Hkeys Hi) as (v & _ & Hv).
      by eapply lookup_lt_Some.
    + intros Hlt. apply lookup_lt_is_Some_2 in Hlt as [v Hv].
      assert (v ∈ items) as (i & Hi)%list_elem_of_lookup_1
        by (by eapply Hmem, list_elem_of_lookup_2).
      destruct (Hrank i v Hi) as (k' & Hk' & Hkv').
      assert (k = k') as <- by (eapply NoDup_lookup; eauto). eauto.
  - done.
  - intros k. by apply dd_holds_forward.
  - apply Hd.
Qed.

End interning.

(** ** Python indexing *)

Lemma index_nonneg {A} (l : list A) (i : Z) :
  0 ≤ i → Py.index l i = of_option IndexError (l !! Z.to_nat i).
Proof.
  intros Hi. unfold Py.index.
  destruct (decide (i < Z.of_nat (length l))) as [Hlt|Hge].
  - replace (0 <=? i) with true by lia.
    replace (i <? Z.of_nat (length l)) with true by lia. done.
  - replace (i <? Z.of_nat (length l)) with false by lia.
    replace (i <? 0) with false by lia. rewrite !andb_false_r.
    rewrite lookup_ge_None_2 by lia. done.
Qed.

Lemma index_nat {A} (l : list A) (i : nat) :
  Py.index l (Z.of_nat i) = of_option IndexError (l !! i).
Proof. rewrite index_nonneg by lia. by rewrite Nat2Z.id. Qed.

Lemma index_Raise {A} (l : list A) (i : Z) e : Py.index l i = Raise e → e = IndexError.
Proof.
  unfold Py.index. repeat case_match; try congruence;
    destruct (l !! _); simpl; congruence.
Qed.

Lemma setitem_nonneg {A} (l : list A) (i : Z) (x : A) :
  0 ≤ i → i < Z.of_nat (length l) → Py.setitem l i x = Ok (<[Z.to_nat i := x]> l).
Proof.
  intros Hi Hlt. unfold Py.setitem.
  replace (0 <=? i) with true by lia.
  replace (i <? Z.of_nat (length l)) with true by lia. done.
Qed.

Lemma setitem_length {A} (l l' : list A) (i : Z) (x : A) :
  Py.setitem l i x = Ok l' → length l' = length l.
Proof.
  unfold Py.setitem. repeat case_match; intros [= <-]; by rewrite length_insert.
Qed.

(** An assignment succeeds exactly where a read does. *)
Lemma setitem_is_Ok {A} (l : list A) (i : Z) (x : A) :
  is_Ok (Py.setitem l i x) ↔ is_Ok (Py.index l i).
Proof.
  unfold Py.setitem, Py.index, is_Ok.
  destruct ((0 <=? i) && (i <? Z.of_nat (length l))) eqn:H1.
  - apply andb_true_iff in H1 as [?%Z.leb_le ?%Z.ltb_lt].
    destruct (lookup_lt_is_Some_2 l (Z.to_nat i)) as [y ->]; [lia|].
    simpl. split; intros _; eexists; done.
  - destruct ((- Z.of_nat (length l) <=? i) && (i <? 0)) eqn:H2.
    + apply andb_true_iff in H2 as [?%Z.leb_le ?%Z.ltb_lt].
      destruct (lookup_lt_is_Some_2 l (Z.to_nat (Z.of_nat (length l) + i))) as [y ->]; [lia|].
      simpl. split; intros _; eexists; done.
    + split; intros [? [=]].
Qed.

(** ** Classification of alignment lines *)

Section classification.

Implicit Types (raw rest name : string) (line : list string) (c : ascii).

Lemma head_starred name :
  name ≠ "" → ∃ c, Py.head name = Ok c ∧ starred name = bool_decide (c = "*"%char).
Proof. destruct name as [|c name]; [done|]. intros _. by exists c. Qed.

Lemma split_go_nonempty tok raw : Forall (λ t, t ≠ "") (Py.split_go tok raw).
Proof.
  assert (∀ tok', tok' ≠ [] → string_of_list_ascii (rev tok') ≠ "") as Hne.
  { intros tok' Htok' Heq.
    apply (f_equal list_ascii_of_string) in Heq.
    rewrite list_ascii_of_string_of_list_ascii in Heq. simpl in Heq.
    apply (f_equal (@rev ascii)) in Heq. rewrite rev_involutive in Heq. done. }
  revert tok. induction raw as [|c raw IH]; intros tok; simpl.
  - destruct tok; [constructor|]. constructor; [by apply Hne | constructor].
  - destruct (Py.isspace c); [|apply IH].
    destruct tok; [apply IH|]. constructor; [by apply Hne | apply IH].
Qed.

Lemma split_nonempty raw name (i : nat) : Py.split raw !! i = Some name → name ≠ "".
Proof.
  intros Hi. pose proof (split_go_nonempty [] raw) as H.
  rewrite Forall_lookup in H. exact (H i name Hi).
Qed.

(** The outcome of [classify] on a line that does not start with [@],
    test by test. *)
Lemma classify_cases sirna max_mapq size c rest :
  c ≠ "@"%char →
  let raw := String c rest in
  let line := Py.split raw in
  let r := Count.classify sirna max_mapq size raw in
  ((length line ≤ 4)%nat ∧ r = Ok NotCounted) ∨
  ((4 < length line)%nat ∧ ∃ name, line !! 2%nat = Some name ∧
     ((starred name = true ∧ r = Ok NotCounted) ∨
      (starred name = false ∧ ∃ field, line !! 4%nat = Some field ∧
         ((Py.int field = None ∧ r = Raise ValueError) ∨
          ∃ mapq, Py.int field = Some mapq ∧
            ((max_mapq < mapq ∧ r = Ok NotCounted) ∨
             (mapq ≤ max_mapq ∧
                ((sirna = false ∧ r = Ok (ToCount name)) ∨
                 (sirna = true ∧
                    (((length line ≤ 9)%nat ∧ r = Raise IndexError) ∨
                     ∃ read, line !! 9%nat = Some read ∧
                       ((Py.int size = None ∧ r = Raise ValueError) ∨
                        ∃ L, Py.int size = Some L ∧
                          ((Z.of_nat (String.length read) = L ∧ r = Ok (ToCountSi name)) ∨
                           (Z.of_nat (String.length read) ≠ L ∧ r = Ok (ToCount name))))))))))))).
Proof.
  intros Hc raw line r. unfold r, Count.classify. fold raw. simpl Py.head.
  change (Ok c ≫= ?f) with (f c). cbv beta.
  rewrite bool_decide_eq_true_2 by done. fold line.
  case_bool_decide as Hlen; [|left; split; [lia|done]].
  right. split; [done|].
  destruct (lookup_lt_is_Some_2 line 2) as [name Hname]; [lia|].
  destruct (lookup_lt_is_Some_2 line 4) as [field Hfield]; [lia|].
  exists name. split; [done|].
  rewrite (index_nonneg line 2) by lia; change (Z.to_nat 2) with 2%nat. rewrite Hname. simpl of_option.
  change (Ok name ≫= ?f) with (f name). cbv beta.
  destruct (head_starred name) as (c2 & -> & Hstar); [by eapply split_nonempty|].
  change (Ok c2 ≫= ?f) with (f c2). cbv beta.
  rewrite Hstar. case_bool_decide as Hc2.
  { left. rewrite bool_decide_eq_false_2 by (by intros ?). done. }
  right. rewrite bool_decide_eq_true_2 by done. split; [done|].
  exists field. split; [done|].
  rewrite (index_nonneg line 4) by lia; change (Z.to_nat 4) with 4%nat. rewrite Hfield. simpl of_option.
  change (Ok field ≫= ?f) with (f field). cbv beta.
  destruct (Py.int field) as [mapq|]; [|by left].
  right. exists mapq. split; [done|]. simpl of_option.
  change (Ok mapq ≫= ?f) with (f mapq). cbv beta.
  case_bool_decide as Hq; [|left; split; [lia|done]].
  right. split; [done|].
  destruct sirna; [right|by left]. split; [done|].
  rewrite (index_nonneg line 9) by lia; change (Z.to_nat 9) with 9%nat.
  destruct (line !! 9%nat) as [read|] eqn:Hread.
  2:{ left. apply lookup_ge_None in Hread. split; [lia|done]. }
  right. exists read. split; [done|]. simpl of_option.
  change (Ok read ≫= ?f) with (f read). cbv beta.
  destruct (Py.int size) as [L|]; [|by left].
  right. exists L. split; [done|]. simpl.
  case_bool_decide; [by right | by left].
Qed.

End classification.

(** ** What the calls of a run change *)

Lemma getitem_Ok `{Countable K} {V} (d : gmap K V) k v :
  Py.getitem d k = Ok v ↔ d !! k = Some v.
Proof. apply of_option_Ok. Qed.

Lemma count_Ok identifier amount st st' :
  Rosette.count identifier amount st = Ok st' →
  (TE_identifier st !! identifier = None ∧
   st' = print (identifier +:+ " not found in the Rosette file") st) ∨
  ∃ keys v counts old counts' total,
    TE_identifier st !! identifier = Some keys ∧
    Rosette.variable_of_keys st keys = Ok v ∧
    TE_count st !! v = Some counts ∧
    Py.index counts (current_sample st) = Ok old ∧
    Py.setitem counts (current_sample st) (old + amount) = Ok counts' ∧
    TE_count_total st !! v = Some total ∧
    st' = with_TE_count_total (<[v := total + amount]> (TE_count_total st))
            (with_TE_count (<[v := counts']> (TE_count st)) st).
Proof.
  unfold Rosette.count. destruct (TE_identifier st !! identifier) as [keys|].
  - intros H. right.
    apply bind_Ok in H as (v & Hv & H).
    apply bind_Ok in H as (counts & Hcounts%getitem_Ok & H).
    apply bind_Ok in H as (old & Hold & H).
    apply bind_Ok in H as (counts' & Hcounts' & H).
    apply bind_Ok in H as (total & Htotal%getitem_Ok & H).
    injection H as <-. exists keys, v, counts, old, counts', total. done.
  - intros [= <-]. by left.
Qed.

Lemma count_si_Ok identifier amount st st' :
  Rosette.count_si identifier amount st = Ok st' →
  (TE_identifier st !! identifier = None ∧
   st' = print (identifier +:+ " not found in the Rosette file") st) ∨
  ∃ keys v counts old counts' total,
    count_sirna st = true ∧
    TE_identifier st !! identifier = Some keys ∧
    Rosette.variable_of_keys st keys = Ok v ∧
    sirna_count st !! v = Some counts ∧
    Py.index counts (current_sample st) = Ok old ∧
    Py.setitem counts (current_sample st) (old + amount) = Ok counts' ∧
    sirna_count_total st !! v = Some total ∧
    st' = with_sirna_count_total (<[v := total + amount]> (sirna_count_total st))
            (with_sirna_count (<[v := counts']> (sirna_count st)) st).
Proof.
  unfold Rosette.count_si. destruct (TE_identifier st !! identifier) as [keys|].
  - intros H. right.
    apply bind_Ok in H as (v & Hv & H).
    destruct (count_sirna st); [|done].
    apply bind_Ok in H as (counts & Hcounts%getitem_Ok & H).
    apply bind_Ok in H as (old & Hold & H).
    apply bind_Ok in H as (counts' & Hcounts' & H).
    apply bind_Ok in H as (total & Htotal%getitem_Ok & H).
    injection H as <-. exists keys, v, counts, old, counts', total. done.
  - intros [= <-]. by left.
Qed.

Lemma reset_slot_Ok item st st' :
  Rosette.reset_slot item st = Ok st' →
  ∃ counts counts',
    TE_count st !! item = Some counts ∧
    Py.setitem counts (current_sample st) 0 = Ok counts' ∧
    ((count_sirna st = false ∧
      st' = with_TE_count (<[item := counts']> (TE_count st)) st) ∨
     (count_sirna st = true ∧ ∃ si si',
        sirna_count st !! item = Some si ∧
        Py.setitem si (current_sample st) 0 = Ok si' ∧
        st' = with_sirna_count (<[item := si']> (sirna_count st))
                (with_TE_count (<[item := counts']> (TE_count st)) st))).
Proof.
  unfold Rosette.reset_slot. intros H.
  apply bind_Ok in H as (counts & Hcounts%getitem_Ok & H).
  apply bind_Ok in H as (counts' & Hcounts' & H).
  exists counts, counts'. split; [done|]. split; [done|].
  cbn [count_sirna with_TE_count] in H.
  destruct (count_sirna st); [right|left; by injection H as <-].
  split; [done|].
  apply bind_Ok in H as (si & Hsi%getitem_Ok & H).
  apply bind_Ok in H as (si' & Hsi' & H).
  injection H as <-. exists si, si'. done.
Qed.

Lemma get_count_variable_Ok identifier st r :
  Rosette.get_count_variable identifier st = Ok r →
  (∃ v, resolve st identifier = Some v ∧ r = (Some v, st)) ∨
  (resolve st identifier = None ∧ ∃ msg, r = (None, print msg st)).
Proof.
  unfold Rosette.get_count_variable, resolve.
  destruct (TE_identifier st !! identifier) as [keys|]; simpl.
  - intros (v & Hv & [= <-])%bind_Ok. rewrite Hv. left. by exists v.
  - intros [= <-]. right. split; [done | by eexists].
Qed.

(** One line of the sequence file: the variable of a header that
    resolves is flagged, nothing else changes but the console. *)
Lemma purge_line_Ok raw st st' :
  Rosette.purge_line raw st = Ok st' →
  match header_variable st raw with
  | Some v => st' = with_TE_count_valid (<[v := true]> (TE_count_valid st)) st
  | None => st' = st ∨ ∃ msg, st' = print msg st
  end.
Proof.
  unfold Rosette.purge_line, header_variable. intros H.
  apply bind_Ok in H as (c & Hc & H).
  destruct raw as [|c' rest]; [done|]. injection Hc as ->.
  case_bool_decide as Hgt.
  - subst c. apply bind_Ok in H as (token & Htoken & H).
    rewrite (index_nonneg _ 0) in Htoken by lia. apply of_option_Ok in Htoken.
    change (Z.to_nat 0) with 0%nat in Htoken.
    rewrite Htoken. simpl.
    apply bind_Ok in H as (r & Hr & H).
    apply get_count_variable_Ok in Hr as [(v & -> & ->) | (-> & msg & ->)];
      injection H as <-; [done | right; by eexists].
  - injection H as <-.
    assert (match String c rest with
            | String ">" _ => Py.split (String c rest) !! 0%nat ≫= λ token, resolve st (Py.tail token)
            | _ => None
            end = None) as ->; [|by left].
    destruct c as [[] [] [] [] [] [] [] []]; done.
Qed.

Section classification_claims.

Implicit Types (raw rest name : string) (line : list string) (c : ascii).

Lemma counts_once_Ok r line :
  counts_once r line → ∃ name, line !! 2%nat = Some name ∧ r ≠ Ok NotCounted ∧ is_Ok r.
Proof.
  intros (name & Hname & [-> | ->]); exists name; (split; [done|]); split; try done;
    eexists; done.
Qed.

(** C3, as the code has it. A line of the alignment stream that does
    not start with [@] is counted once, under the name in its third
    field, exactly when it has more than 4 fields, its third field does
    not start with [*], its fifth field reads as an integer at most the
    maximum and, when small-RNA counts are kept, it has a tenth field
    (and the configured size reads as an integer). A quality equal to
    the maximum counts, a quality one above does not, and a line whose
    third field is the placeholder is never counted. *)
Theorem classify_counts_once sirna max_mapq size c rest :
  c ≠ "@"%char →
  let raw := String c rest in
  let line := Py.split raw in
  let r := Count.classify sirna max_mapq size raw in
  (counts_once r line ↔
     qualifies max_mapq line ∧
     (sirna = true → (9 < length line)%nat ∧ is_Some (Py.int size))) ∧
  ((∃ name, line !! 2%nat = Some name ∧ starred name = false) →
   (sirna = true → (9 < length line)%nat ∧ is_Some (Py.int size)) →
   line !! 4%nat ≫= Py.int = Some max_mapq → counts_once r line) ∧
  (line !! 4%nat ≫= Py.int = Some (max_mapq + 1) → ¬ counts_once r line) ∧
  (line !! 2%nat = Some "*" → r = Ok NotCounted) ∧
  (∀ name, line !! 2%nat = Some name → starred name = true → r = Ok NotCounted).
Proof.
  intros Hc raw line r.
  assert (counts_once r line ↔
     qualifies max_mapq line ∧
     (sirna = true → (9 < length line)%nat ∧ is_Some (Py.int size))) as Hiff.
  { pose proof (classify_cases sirna max_mapq size c rest Hc) as Hcases.
    fold raw line r in Hcases. cbv zeta in Hcases. fold raw line r in Hcases.
    destruct Hcases as [[Hlen Hr] | (Hlen & name & Hname & Hcases)].
    { split.
      - intros (? & ? & ? & ?)%counts_once_Ok. congruence.
      - intros [(? & _) _]. lia. }
    destruct Hcases as [[Hstar Hr] | (Hstar & field & Hfield & Hcases)].
    { split.
      - intros (? & ? & ? & ?)%counts_once_Ok. congruence.
      - intros [(_ & (name' & Hname' & Hstar') & _) _]. congruence. }
    destruct Hcases as [[Hint Hr] | (mapq & Hint & Hcases)].
    { split.
      - intros (? & ? & ? & [? ?])%counts_once_Ok. congruence.
      - intros [(_ & _ & (mapq & Hq & _)) _].
        rewrite Hfield in Hq. simpl in Hq. congruence. }
    destruct Hcases as [[Hq Hr] | (Hq & Hcases)].
    { split.
      - intros (? & ? & ? & ?)%counts_once_Ok. congruence.
      - intros [(_ & _ & (mapq' & Hq' & ?)) _].
        rewrite Hfield in Hq'. simpl in Hq'. rewrite Hint in Hq'.
        injection Hq' as <-. lia. }
    assert (qualifies max_mapq line) as Hqual.
    { split; [done|]. split; [by exists name|].
      exists mapq. rewrite Hfield. simpl. done. }
    destruct Hcases as [[-> Hr] | (-> & Hcases)].
    { split; [intros _|intros _].
      - split; [apply Hqual|]. done.
      - exists name. split; [done|]. by left. }
    destruct Hcases as [[Hlen9 Hr] | (read & Hread & Hcases)].
    { split.
      - intros (? & ? & ? & [? ?])%counts_once_Ok. congruence.
      - intros [_ Hs]. destruct (Hs eq_refl). lia. }
    apply lookup_lt_Some in Hread as Hlen9.
    destruct Hcases as [[Hsize Hr] | (L & Hsize & Hcases)].
    { split.
      - intros (? & ? & ? & [? ?])%counts_once_Ok. congruence.
      - intros [_ Hs]. destruct (Hs eq_refl) as [_ [? ?]]. congruence. }
    split; [intros _|intros _].
    - split; [apply Hqual|]. intros _. split; [done|]. rewrite Hsize. by eexists.
    - exists name. split; [done|]. destruct Hcases as [[_ ->] | [_ ->]]; auto. }
  split; [exact Hiff|].
  assert (∀ name, line !! 2%nat = Some name → starred name = true → r = Ok NotCounted)
    as Hstarred.
  { intros name Hname Hstar.
    pose proof (classify_cases sirna max_mapq size c rest Hc) as Hcases.
    fold raw line r in Hcases. cbv zeta in Hcases. fold raw line r in Hcases.
    destruct Hcases as [[_ Hr] | (_ & name' & Hname' & Hcases)]; [done|].
    destruct Hcases as [[_ Hr] | (Hstar' & _)]; [done|]. congruence. }
  split_and!.
  - intros Hname Hsirna Hq. apply Hiff. split; [|done].
    split_and!; [|done|exists max_mapq; split; [done|lia]].
    destruct (line !! 4%nat) eqn:H4; [|done]. by eapply lookup_lt_Some.
  - intros Hq [(_ & _ & mapq & Hq' & Hle) _]%Hiff.
    rewrite Hq in Hq'. injection Hq' as <-. lia.
  - intros Hname. by eapply Hstarred.
  - exact Hstarred.
Qed.

Lemma count_preserves_si identifier amount st st' :
  Rosette.count identifier amount st = Ok st' →
  sirna_count st' = sirna_count st ∧ sirna_count_total st' = sirna_count_total st.
Proof.
  intros [[_ ->] | (keys & v & counts & old & counts' & total & _ & _ & _ & _ & _ & _ & ->)]
    %count_Ok; done.
Qed.

Lemma count_si_preserves_main identifier amount st st' :
  Rosette.count_si identifier amount st = Ok st' →
  TE_count st' = TE_count st ∧ TE_count_total st' = TE_count_total st.
Proof.
  intros [[_ ->] | (keys & v & counts & old & counts' & total & _ & _ & _ & _ & _ & _ & _ & ->)]
    %count_si_Ok; done.
Qed.

(** C9, as the code has it. A line that passes the three tests of
    [__count] -- more than 4 fields, a third field that does not start
    with [*], a fifth field that reads as an integer at most the
    maximum -- is passed to [count], with amount 1 and under the name
    in its third field, when no small-RNA counts are kept. When they
    are kept, a line of at least 10 fields is passed to [count_si] when
    its tenth field has the configured length and to [count]
    otherwise, never to both; a line of fewer than 10 fields is passed
    to neither: [__count] raises [IndexError]; and a line of at least
    10 fields is passed to neither when the configured size does not
    read as an integer: [__count] raises [ValueError]. [count] leaves
    the small-RNA counts alone and [count_si] the main ones. *)
Theorem count_line_routing self st c rest name :
  c ≠ "@"%char →
  let raw := String c rest in
  let line := Py.split raw in
  qualifies (max_mapq self) line →
  line !! 2%nat = Some name →
  (count_sirna st = false →
     Count.count_line self raw st = Rosette.count name 1 st) ∧
  (count_sirna st = true →
     ((length line ≤ 9)%nat → Count.count_line self raw st = Raise IndexError) ∧
     ((9 < length line)%nat → Py.int (config_sirna_size self) = None →
        Count.count_line self raw st = Raise ValueError) ∧
     ∀ L read, Py.int (config_sirna_size self) = Some L → line !! 9%nat = Some read →
       (Z.of_nat (String.length read) = L →
          Count.count_line self raw st = Rosette.count_si name 1 st) ∧
       (Z.of_nat (String.length read) ≠ L →
          Count.count_line self raw st = Rosette.count name 1 st)) ∧
  (∀ identifier amount st1 st2, Rosette.count identifier amount st1 = Ok st2 →
     sirna_count st2 = sirna_count st1 ∧ sirna_count_total st2 = sirna_count_total st1) ∧
  (∀ identifier amount st1 st2, Rosette.count_si identifier amount st1 = Ok st2 →
     TE_count st2 = TE_count st1 ∧ TE_count_total st2 = TE_count_total st1).
Proof.
  intros Hc raw line (Hlen & (name' & Hname' & Hstar) & (mapq & Hq & Hle)) Hname.
  assert (name' = name) as -> by congruence.
  pose proof (classify_cases (count_sirna st) (max_mapq self) (config_sirna_size self)
                c rest Hc) as Hcases.
  fold raw line in Hcases. cbv zeta in Hcases. fold raw line in Hcases.
  destruct Hcases as [[? _] | (_ & name' & Hname'' & Hcases)]; [lia|].
  assert (name' = name) as -> by congruence.
  destruct Hcases as [[? _] | (_ & field & Hfield & Hcases)]; [congruence|].
  rewrite Hfield in Hq. simpl in Hq.
  destruct Hcases as [[? _] | (mapq' & Hint & Hcases)]; [congruence|].
  assert (mapq' = mapq) as -> by congruence.
  destruct Hcases as [[? _] | (_ & Hcases)]; [lia|].
  split_and!.
  - intros Hsi. unfold Count.count_line, Rosette.sirna.
    destruct Hcases as [[_ ->] | [? _]]; [done | congruence].
  - intros Hsi. unfold Count.count_line, Rosette.sirna.
    destruct Hcases as [[? _] | (_ & Hcases)]; [congruence|].
    split_and!.
    + intros Hshort.
      destruct Hcases as [[_ ->] | (read & Hread%lookup_lt_Some & _)]; [done | lia].
    + intros Hlong Hsize.
      destruct Hcases as [[? _] | (read & _ & [[_ ->] | (L & HL & _)])];
        [lia | done | congruence].
    + intros L read HL Hread.
      destruct Hcases as [[Hlen9 _] | (read' & Hread' & Hcases)].
      { apply lookup_lt_Some in Hread. lia. }
      assert (read' = read) as -> by congruence.
      destruct Hcases as [[? _] | (L' & HL' & Hcases)]; [congruence|].
      assert (L' = L) as -> by congruence.
      destruct Hcases as [[Heq ->] | [Hne ->]]; split; intros; done.
  - apply count_preserves_si.
  - apply count_si_preserves_main.
Qed.

(** Two records that qualify in the words of the specification and are
    passed to neither counter. With small-RNA counts kept, a record of
    five fields makes [__count] raise. Without them, a record whose
    third field is [*c1] is passed on without a trace. *)
Lemma count_line_routing_counterexample :
  let short := "r1 0 c1 1 0" in
  let star := "r1 0 *c1 1 0 4M * 0 0 ACGT IIII" in
  (spec_qualifies 255 (Py.split short) ∧
   count_sirna sample_table_si = true ∧
   Count.count_line (mkCount "4" sample_table_si 255) short sample_table_si
     = Raise IndexError ∧
   ¬ counts_once (Count.classify true 255 "4" short) (Py.split short)) ∧
  (spec_qualifies 255 (Py.split star) ∧
   count_sirna sample_table = false ∧
   Count.count_line (mkCount "4" sample_table 255) star sample_table = Ok sample_table ∧
   ¬ counts_once (Count.classify false 255 "4" star) (Py.split star)).
Proof.
  split.
  - split_and!.
    + split; [vm_compute; lia|]. split.
      * exists "c1". split; [reflexivity | discriminate].
      * exists 0. split; [reflexivity | lia].
    + reflexivity.
    + by vm_compute.
    + intros (name & _ & [H | H]); vm_compute in H; discriminate.
  - split_and!.
    + split; [vm_compute; lia|]. split.
      * exists "*c1". split; [reflexivity | discriminate].
      * exists 0. split; [reflexivity | lia].
    + reflexivity.
    + by vm_compute.
    + intros (name & _ & [H | H]); vm_compute in H; discriminate.
Qed.

(** A line whose third field is [*chr]: the placeholder test of the
    specification passes, the test of the code does not. *)
Lemma classify_starred_counterexample :
  let raw := "r1 0 *chr 1 0 4M * 0 0 ACGT IIII" in
  spec_qualifies 255 (Py.split raw) ∧
  ¬ counts_once (Count.classify false 255 "21" raw) (Py.split raw).
Proof.
  split.
  - split; [vm_compute; lia|]. split.
    + exists "*chr". split; [reflexivity | discriminate].
    + exists 0. split; [reflexivity | lia].
  - intros (name & _ & [H | H]); vm_compute in H; discriminate.
Qed.

Lemma classify_counts_once_witness :
  let raw := "r1 0 chr1 1 255 4M * 0 0 ACGT IIII" in
  "r"%char ≠ "@"%char ∧
  counts_once (Count.classify true 255 "4" raw) (Py.split raw).
Proof.
  split; [discriminate|].
  destruct (classify_counts_once true 255 "4" "r" "1 0 chr1 1 255 4M * 0 0 ACGT IIII")
    as [Hiff _]; [discriminate|].
  apply Hiff. split.
  - split; [vm_compute; lia|]. split.
    + exists "chr1". split; reflexivity.
    + exists 255. split; [reflexivity | lia].
  - intros _. split; [vm_compute; lia | by exists 4].
Defined.

Lemma count_line_routing_witness :
  let raw := "r1 0 c1 1 255 4M * 0 0 ACGT IIII" in
  let self := mkCount "4" sample_table_si 255 in
  qualifies (max_mapq self) (Py.split raw) ∧
  Count.count_line self raw sample_table_si = Rosette.count_si "c1" 1 sample_table_si.
Proof.
  intros raw self.
  assert (qualifies (max_mapq self) (Py.split raw)) as Hq.
  { split; [vm_compute; lia|]. split.
    - exists "c1". split; reflexivity.
    - exists 255. split; [reflexivity | simpl; lia]. }
  split; [exact Hq|].
  destruct (count_line_routing self sample_table_si "r"
              "1 0 c1 1 255 4M * 0 0 ACGT IIII" "c1") as (_ & Hsi & _);
    [discriminate | exact Hq | reflexivity |].
  destruct (Hsi eq_refl) as (_ & _ & Hrouted).
  destruct (Hrouted 4 "ACGT" eq_refl eq_refl) as [Heq _].
  exact (Heq eq_refl).
Defined.

End classification_claims.

(** ** The annotation table: what each method changes *)

Lemma same_config_refl st : same_config st st.
Proof. by repeat split. Qed.

Lemma same_config_trans st1 st2 st3 :
  same_config st1 st2 → same_config st2 st3 → same_config st1 st3.
Proof. unfold same_config. intros (?&?&?&?) (?&?&?&?). split_and!; congruence. Qed.

Lemma same_annotation_refl st : same_annotation st st.
Proof. by repeat split. Qed.

Lemma same_annotation_trans st1 st2 st3 :
  same_annotation st1 st2 → same_annotation st2 st3 → same_annotation st1 st3.
Proof. unfold same_annotation. intros (?&?&?) (?&?&?). split_and!; congruence. Qed.

Lemma for_each_Ok_cons {A S} (f : A → S → result S) a l s s' :
  for_each f (a :: l) s = Ok s' ↔ ∃ s1, f a s = Ok s1 ∧ for_each f l s1 = Ok s'.
Proof. simpl. apply bind_Ok. Qed.

Lemma for_each_app {A S} (f : A → S → result S) l1 l2 s :
  for_each f (l1 ++ l2) s = for_each f l1 s ≫= for_each f l2.
Proof.
  revert s. induction l1 as [|a l1 IH]; intros s; simpl; [done|].
  destruct (f a s); simpl; [apply IH | done].
Qed.

(** An invariant of every round is an invariant of the loop. *)
Lemma for_each_invariant {A S} (P : S → Prop) (f : A → S → result S) l s s' :
  (∀ a s1 s2, a ∈ l → P s1 → f a s1 = Ok s2 → P s2) →
  P s → for_each f l s = Ok s' → P s'.
Proof.
  revert s. induction l as [|a l IH]; intros s Hf Hs; simpl.
  - by intros [= <-].
  - intros (s1 & H1 & H2)%bind_Ok. eapply IH; [|by eapply Hf; [left|..]|done].
    intros ? ? ? ?. apply Hf. by right.
Qed.

(** Everything [add] does when it returns. *)
Lemma add_Ok line st st' :
  Rosette.add line st = Ok st' →
  ∃ identifier item acc,
    line !! 0%nat = Some identifier ∧
    Py.index line (count_column st) = Ok item ∧
    TE st' = acc.1 ∧
    TE_identifier st' = <[identifier := acc.2]> (TE_identifier st) ∧
    TE_count_variable st' = OD.set item acc.2 (TE_count_variable st) ∧
    TE_count st' = <[item := Py.repeat 0 (sample_number st)]> (TE_count st) ∧
    TE_count_total st' = <[item := 0]> (TE_count_total st) ∧
    TE_count_valid st' = <[item := true]> (TE_count_valid st) ∧
    sirna_count st' =
      (if count_sirna st then <[item := Py.repeat 0 (sample_number st)]> (sirna_count st)
       else sirna_count st) ∧
    sirna_count_total st' =
      (if count_sirna st then <[item := 0]> (sirna_count_total st)
       else sirna_count_total st) ∧
    same_config st st' ∧
    current_sample st' = current_sample st ∧
    purged st' = purged st ∧
    stdout st' = stdout st.
Proof.
  unfold Rosette.add. intros H.
  apply bind_Ok in H as (identifier & Hid & H).
  apply bind_Ok in H as (d & Hd & H).
  apply bind_Ok in H as (item & Hitem & H).
  apply bind_Ok in H as (tables & Htables & H).
  apply bind_Ok in H as (acc & Hacc & H).
  apply bind_Ok in H as (item' & Hitem' & H).
  assert (item' = item) as -> by congruence.
  rewrite (index_nonneg line 0) in Hid by lia. apply of_option_Ok in Hid.
  change (Z.to_nat 0) with 0%nat in Hid.
  exists identifier, item, acc.
  cbn [count_sirna with_TE_count_valid with_TE_count_total with_TE_count
       with_TE_count_variable with_TE_identifier with_TE] in H.
  destruct (count_sirna st) eqn:Hsi; injection H as <-; cbn; rewrite ?Hsi;
    split_and!; done.
Qed.

Lemma read_line_Ok i raw st st' :
  Rosette.read_line i raw st = Ok st' →
  ∃ st1, Rosette.add (Py.split raw) st1 = Ok st' ∧
    same_config st st1 ∧ current_sample st1 = current_sample st ∧
    TE st1 = TE st ∧ TE_identifier st1 = TE_identifier st ∧
    TE_count_variable st1 = TE_count_variable st ∧ TE_count st1 = TE_count st ∧
    TE_count_total st1 = TE_count_total st ∧ TE_count_valid st1 = TE_count_valid st ∧
    sirna_count st1 = sirna_count st ∧ sirna_count_total st1 = sirna_count_total st ∧
    purged st1 = purged st.
Proof.
  unfold Rosette.read_line. intros H. eexists. split; [exact H|].
  case_bool_decide; cbn; split_and!; done.
Qed.

(** C8, as the code has it. Right after [add] has loaded a row, the
    grouping variable of that row is flagged valid. *)
Theorem add_marks_valid line st st' :
  Rosette.add line st = Ok st' →
  ∃ count_variable,
    Py.index line (count_column st) = Ok count_variable ∧
    TE_count_valid st' !! count_variable = Some true.
Proof.
  intros (identifier & item & acc & _ & Hitem & _ & _ & _ & _ & _ & Hvalid & _)%add_Ok.
  exists item. split; [done|]. rewrite Hvalid. apply lookup_insert_eq.
Qed.

(** The claim of the specification fails on the first row of the sample
    annotation: its variable is flagged valid, not invalid. *)
Lemma add_marks_valid_counterexample :
  ∃ st', Rosette.add ["c1"; "LINE1"; "x"] (Rosette.fresh 2 2 false 3) = Ok st' ∧
    TE_count_valid st' !! "LINE1" = Some true ∧
    TE_count_valid st' !! "LINE1" ≠ Some false.
Proof. eexists. split; [by vm_compute|]. by vm_compute. Qed.

Lemma add_marks_valid_witness :
  ∃ count_variable,
    Py.index ["c1"; "LINE1"; "x"] (count_column (Rosette.fresh 2 2 false 3)) = Ok count_variable ∧
    TE_count_valid (table_of (Rosette.add ["c1"; "LINE1"; "x"] (Rosette.fresh 2 2 false 3)))
      !! count_variable = Some true.
Proof.
  apply (add_marks_valid ["c1"; "LINE1"; "x"] (Rosette.fresh 2 2 false 3)).
  by vm_compute.
Defined.

(** ** Loading the annotation *)

Lemma OD_keys_set {V} (k : string) (v : V) d x :
  x ∈ OD.keys (OD.set k v d) ↔ x = k ∨ x ∈ OD.keys d.
Proof.
  unfold OD.keys. induction d as [|[k' v'] d IH]; simpl.
  - rewrite list_elem_of_singleton, elem_of_nil. naive_solver.
  - case_decide as Hk; simpl; rewrite !elem_of_cons; [naive_solver|].
    rewrite IH. naive_solver.
Qed.

Lemma OD_get_set {V} (k : string) (v : V) d x :
  OD.get (OD.set k v d) x = if decide (x = k) then Some v else OD.get d x.
Proof.
  induction d as [|[k' v'] d IH]; simpl.
  - repeat case_decide; done.
  - destruct (decide (k = k')) as [<-|Hk]; simpl.
    + repeat case_decide; congruence.
    + rewrite IH. repeat case_decide; congruence.
Qed.

Lemma OD_get_keys {V} (d : list (string * V)) x :
  x ∈ OD.keys d ↔ is_Some (OD.get d x).
Proof.
  unfold OD.keys. induction d as [|[k' v'] d IH]; simpl.
  - rewrite elem_of_nil. split; [done | by intros [? ?]].
  - rewrite elem_of_cons, IH. case_decide; [|naive_solver].
    split; [by eexists | by left].
Qed.

Lemma read_from_Ok i file st st' :
  Rosette.read_from i file st = Ok st' →
  same_config st st' ∧
  current_sample st' = current_sample st ∧
  purged st' = purged st ∧
  stdout st' = stdout st ++ mismatches (column_number st) i file.
Proof.
  revert i st. induction file as [|raw rest IH]; intros i st; simpl.
  - intros [= <-]. rewrite app_nil_r. split_and!; done || apply same_config_refl.
  - intros (st1 & Hline & Hrest)%bind_Ok.
    apply IH in Hrest as (Hcfg' & Hcs' & Hp' & Hout').
    unfold Rosette.read_line in Hline.
    apply add_Ok in Hline as (identifier & item & acc & _ & _ & _ & _ & _ & _ & _ & _ & _ & _
                               & Hcfg & Hcs & Hp & Hout).
    assert (column_number st1 = column_number st) as HN.
    { destruct Hcfg as (_ & _ & _ & ->). by case_bool_decide. }
    split_and!.
    + eapply same_config_trans; [|exact Hcfg'].
      destruct Hcfg as (? & ? & ? & ?). case_bool_decide; split_and!; done.
    + rewrite Hcs', Hcs. by case_bool_decide.
    + rewrite Hp', Hp. by case_bool_decide.
    + rewrite Hout', Hout, HN. case_bool_decide; cbn; [|done].
      unfold Py.print. by rewrite <- app_assoc.
Qed.

Lemma warning_not_mismatch n i file :
  Rosette.wrong_column_warning ∉ mismatches n i file.
Proof.
  revert i. induction file as [|raw rest IH]; intros i; simpl.
  - apply not_elem_of_nil.
  - rewrite elem_of_app. intros [Hin | Hin]; [|by eapply IH].
    case_bool_decide; [|by apply elem_of_nil in Hin].
    apply list_elem_of_singleton in Hin. discriminate.
Qed.

(** C7, as the code has it. A supplied grouping column of 1 or less is
    replaced by list position 1, the second column, and the warning is
    printed; a supplied value [c] of 2 or more selects position [c - 1],
    the [c]-th column, and no warning is printed. *)
Theorem init_count_column file c count_file n sirna_file st :
  Rosette.init file c count_file n sirna_file = Ok st →
  (c ≤ 1 → count_column st = 1 ∧
     ∃ out, stdout st = Rosette.wrong_column_warning :: out) ∧
  (2 ≤ c → count_column st = c - 1 ∧ Rosette.wrong_column_warning ∉ stdout st).
Proof.
  unfold Rosette.init. destruct count_file as [cf|]; [|done].
  unfold Rosette.read. intros ((_ & _ & Hcc & _) & _ & _ & Hout)%read_from_Ok.
  cbn in Hcc, Hout. split.
  - intros Hc. rewrite bool_decide_eq_true_2 in Hcc, Hout by lia.
    split; [done|]. rewrite Hout. by eexists.
  - intros Hc. rewrite bool_decide_eq_false_2 in Hcc, Hout by lia.
    split; [done|]. rewrite Hout. simpl. apply warning_not_mismatch.
Qed.

(** Supplied values 1 and 2 select the same column, so one of them is
    changed; and value 1 does not select the first column. *)
Lemma init_count_column_counterexample :
  ∃ st1 st2,
    Rosette.init sample_annotation 1 (Some "counts.txt") 2 None = Ok st1 ∧
    Rosette.init sample_annotation 2 (Some "counts.txt") 2 None = Ok st2 ∧
    count_column st1 = count_column st2 ∧
    count_column st1 ≠ spec_count_column 1 ∧
    OD.keys (TE_count_variable st1) = ["LINE1"; "SINE1"].
Proof.
  eexists _, _. split; [by vm_compute|]. split; [by vm_compute|].
  split; [reflexivity|]. split; [by vm_compute | reflexivity].
Qed.

Lemma init_count_column_witness :
  count_column sample_table = 1 ∧
  Rosette.wrong_column_warning ∉ stdout sample_table.
Proof.
  apply (init_count_column sample_annotation 2 (Some "counts.txt") 2 None sample_table);
    [by vm_compute | lia].
Defined.

(** ** Runs: what stays, and the lifetime totals *)

Lemma resolve_ext st st' identifier :
  same_config st st' → same_annotation st st' →
  resolve st' identifier = resolve st identifier.
Proof.
  intros (_ & _ & Hcc & _) (HTE & Hid & _).
  unfold resolve, Rosette.variable_of_keys. by rewrite Hid, HTE, Hcc.
Qed.

Lemma counted_ext st st' v calls :
  same_config st st' → same_annotation st st' →
  counted st' v calls = counted st v calls ∧ counted_si st' v calls = counted_si st v calls.
Proof.
  intros Hcfg Hann. induction calls as [|[| | |] calls [IH1 IH2]]; simpl;
    rewrite ?(resolve_ext st st') by done; split; congruence.
Qed.

Lemma header_variable_ext st st' raw :
  same_config st st' → same_annotation st st' →
  header_variable st' raw = header_variable st raw.
Proof.
  intros Hcfg Hann. unfold header_variable.
  destruct raw as [|c rest]; [done|].
  destruct (Py.split (String c rest) !! 0%nat) as [token|]; simpl;
    rewrite ?(resolve_ext st st') by done; done.
Qed.

(** What the loop of [reset_count] leaves alone. *)
Lemma reset_slots_frame items st st' :
  for_each Rosette.reset_slot items st = Ok st' →
  same_config st st' ∧ same_annotation st st' ∧
  current_sample st' = current_sample st ∧
  TE_count_total st' = TE_count_total st ∧
  sirna_count_total st' = sirna_count_total st ∧
  TE_count_valid st' = TE_count_valid st.
Proof.
  apply (for_each_invariant (λ s,
    same_config st s ∧ same_annotation st s ∧
    current_sample s = current_sample st ∧
    TE_count_total s = TE_count_total st ∧
    sirna_count_total s = sirna_count_total st ∧
    TE_count_valid s = TE_count_valid st)).
  - intros item s1 s2 _ (Hcfg & Hann & Hcs & Ht & Hst & Hv) Hslot.
    apply reset_slot_Ok in Hslot
      as (counts & counts' & _ & _ & [[_ ->] | (_ & si & si' & _ & _ & ->)]);
      split_and!; done.
  - split_and!; done || apply same_config_refl || apply same_annotation_refl.
Qed.

Lemma reset_count_frame st st' :
  Rosette.reset_count st = Ok st' →
  same_config st st' ∧ same_annotation st st' ∧
  current_sample st' = current_sample st + 1 ∧
  TE_count_total st' = TE_count_total st ∧
  sirna_count_total st' = sirna_count_total st ∧
  TE_count_valid st' = TE_count_valid st.
Proof. unfold Rosette.reset_count. intros H%reset_slots_frame. exact H. Qed.

(** What the loop of [purge] leaves alone. *)
Lemma purge_lines_frame fasta st st' :
  for_each Rosette.purge_line fasta st = Ok st' →
  same_config st st' ∧ same_annotation st st' ∧
  current_sample st' = current_sample st ∧
  TE_count st' = TE_count st ∧ sirna_count st' = sirna_count st ∧
  TE_count_total st' = TE_count_total st ∧
  sirna_count_total st' = sirna_count_total st.
Proof.
  apply (for_each_invariant (λ s,
    same_config st s ∧ same_annotation st s ∧
    current_sample s = current_sample st ∧
    TE_count s = TE_count st ∧ sirna_count s = sirna_count st ∧
    TE_count_total s = TE_count_total st ∧
    sirna_count_total s = sirna_count_total st)).
  - intros raw s1 s2 _ (Hcfg & Hann & Hcs & Hc & Hs & Ht & Hst) Hline.
    apply purge_line_Ok in Hline.
    destruct (header_variable s1 raw); [|destruct Hline as [-> | [msg ->]]];
      subst; split_and!; done.
  - split_and!; done || apply same_config_refl || apply same_annotation_refl.
Qed.

Lemma purge_frame fasta st st' :
  Rosette.purge fasta st = Ok st' →
  same_config st st' ∧ same_annotation st st' ∧
  current_sample st' = current_sample st ∧
  TE_count st' = TE_count st ∧ sirna_count st' = sirna_count st ∧
  TE_count_total st' = TE_count_total st ∧
  sirna_count_total st' = sirna_count_total st.
Proof.
  unfold Rosette.purge. intros (st2 & H%purge_lines_frame & [= <-])%bind_Ok.
  exact H.
Qed.

Lemma step_frame c st st' :
  step c st = Ok st' → same_config st st' ∧ same_annotation st st'.
Proof.
  destruct c as [|identifier amount|identifier amount|fasta]; simpl.
  - intros (? & ? & _)%reset_count_frame. done.
  - intros [[_ ->] | (keys & v & counts & old & counts' & total & _ & _ & _ & _ & _ & _ & ->)]
      %count_Ok; split; done.
  - intros [[_ ->] | (keys & v & counts & old & counts' & total & _ & _ & _ & _ & _ & _ & _ & ->)]
      %count_si_Ok; split; done.
  - intros (? & ? & _)%purge_frame. done.
Qed.

Lemma run_frame calls st st' :
  run calls st = Ok st' → same_config st st' ∧ same_annotation st st'.
Proof.
  apply (for_each_invariant (λ s, same_config st s ∧ same_annotation st s)).
  - intros c s1 s2 _ [Hcfg Hann] [Hcfg' Hann']%step_frame. split.
    + by eapply same_config_trans.
    + by eapply same_annotation_trans.
  - split; [apply same_config_refl | apply same_annotation_refl].
Qed.

Lemma resolve_Some st identifier keys v :
  TE_identifier st !! identifier = Some keys →
  Rosette.variable_of_keys st keys = Ok v →
  resolve st identifier = Some v.
Proof. intros Hid Hv. unfold resolve. rewrite Hid. simpl. by rewrite Hv. Qed.

Lemma resolve_None st identifier :
  TE_identifier st !! identifier = None → resolve st identifier = None.
Proof. intros Hid. unfold resolve. by rewrite Hid. Qed.

(** One call: each total grows by what the call counts for it. *)
Lemma step_totals c st st' :
  step c st = Ok st' →
  (∀ v t, TE_count_total st !! v = Some t →
     TE_count_total st' !! v = Some (t + counted st v [c])) ∧
  (∀ v t, sirna_count_total st !! v = Some t →
     sirna_count_total st' !! v = Some (t + counted_si st v [c])).
Proof.
  destruct c as [|identifier amount|identifier amount|fasta]; simpl.
  - intros (_ & _ & _ & -> & -> & _)%reset_count_frame.
    split; intros v t ->; f_equal; lia.
  - intros [[Hid ->] | (keys & v0 & counts & old & counts' & total & Hid & Hv0 & _ & _ & _
                        & Htotal & ->)]%count_Ok.
    + rewrite (resolve_None _ _ Hid). cbn.
      split; intros v t ->; [case_decide; [done|]|]; f_equal; lia.
    + rewrite (resolve_Some _ _ _ _ Hid Hv0). cbn. split.
      * intros v t Ht. rewrite lookup_insert. destruct (decide (v0 = v)) as [->|Hne].
        -- rewrite decide_True by done.
           f_equal. assert (t = total) by congruence. lia.
        -- rewrite decide_False by congruence.
           rewrite Ht. f_equal. lia.
      * intros v t ->. f_equal. lia.
  - intros [[Hid ->] | (keys & v0 & counts & old & counts' & total & _ & Hid & Hv0 & _ & _ & _
                        & Htotal & ->)]%count_si_Ok.
    + rewrite (resolve_None _ _ Hid). cbn.
      split; intros v t ->; [|case_decide; [done|]]; f_equal; lia.
    + rewrite (resolve_Some _ _ _ _ Hid Hv0). cbn. split.
      * intros v t ->. f_equal. lia.
      * intros v t Ht. rewrite lookup_insert. destruct (decide (v0 = v)) as [->|Hne].
        -- rewrite decide_True by done.
           f_equal. assert (t = total) by congruence. lia.
        -- rewrite decide_False by congruence.
           rewrite Ht. f_equal. lia.
  - intros (_ & _ & _ & _ & _ & -> & ->)%purge_frame.
    split; intros v t ->; f_equal; lia.
Qed.

Lemma counted_cons st v c calls :
  counted st v (c :: calls) = counted st v [c] + counted st v calls ∧
  counted_si st v (c :: calls) = counted_si st v [c] + counted_si st v calls.
Proof. destruct c; simpl; split; lia. Qed.

Lemma run_totals calls st st' :
  run calls st = Ok st' →
  (∀ v t, TE_count_total st !! v = Some t →
     TE_count_total st' !! v = Some (t + counted st v calls)) ∧
  (∀ v t, sirna_count_total st !! v = Some t →
     sirna_count_total st' !! v = Some (t + counted_si st v calls)).
Proof.
  revert st. induction calls as [|c calls IH]; intros st.
  - intros [= <-]. split; intros v t ->; simpl; f_equal; lia.
  - intros (st1 & Hstep & Hrun)%for_each_Ok_cons.
    destruct (step_frame _ _ _ Hstep) as [Hcfg Hann].
    destruct (step_totals _ _ _ Hstep) as [Hmain Hsi].
    destruct (IH _ Hrun) as [Hmain' Hsi'].
    split; intros v t Ht.
    + rewrite (Hmain' v _ (Hmain v t Ht)).
      destruct (counted_ext st st1 v calls Hcfg Hann) as [-> _].
      destruct (counted_cons st v c calls) as [-> _]. f_equal. lia.
    + rewrite (Hsi' v _ (Hsi v t Ht)).
      destruct (counted_ext st st1 v calls Hcfg Hann) as [_ ->].
      destruct (counted_cons st v c calls) as [_ ->]. f_equal. lia.
Qed.

(** Loading leaves every lifetime total at zero. *)
Lemma add_zero_totals line st st' :
  Rosette.add line st = Ok st' → zero_totals st → zero_totals st'.
Proof.
  intros (identifier & item & acc & _ & _ & _ & _ & Hvar & _ & Htot & _ & _ & Hsitot
          & (Hsi & _) & _)%add_Ok Hzero v.
  rewrite Hvar, OD_keys_set, Htot, Hsitot, Hsi, lookup_insert.
  destruct (decide (item = v)) as [->|Hne].
  - intros _. split; [done|]. intros ->. by rewrite lookup_insert_eq.
  - intros [-> | Hv]; [done|]. destruct (Hzero v Hv) as [Hmain Hsirna].
    split; [done|]. intros Hs. rewrite Hs. rewrite lookup_insert_ne by done. auto.
Qed.

Lemma read_from_zero_totals i file st st' :
  Rosette.read_from i file st = Ok st' → zero_totals st → zero_totals st'.
Proof.
  revert i st. induction file as [|raw rest IH]; intros i st; simpl.
  - by intros [= <-].
  - intros (st1 & Hline & Hrest)%bind_Ok Hzero. eapply IH; [done|].
    unfold Rosette.read_line in Hline. eapply add_zero_totals; [done|].
    case_bool_decide; done.
Qed.

Lemma init_zero_totals file c count_file n sirna_file st :
  Rosette.init file c count_file n sirna_file = Ok st → zero_totals st.
Proof.
  unfold Rosette.init. destruct count_file; [|done].
  intros H%read_from_zero_totals; [done|].
  intros v Hv. cbn in Hv. by apply elem_of_nil in Hv.
Qed.

(** C1. Whatever calls are made on a loaded table, the lifetime total
    of a grouping variable is the sum of the amounts of the [count]
    calls whose identifier resolves to it, and with small-RNA counts
    kept its small-RNA total is that sum over the [count_si] calls;
    [reset_count] changes no lifetime total. *)
Theorem lifetime_totals file c count_file n sirna_file st0 calls st :
  Rosette.init file c count_file n sirna_file = Ok st0 →
  run calls st0 = Ok st →
  (∀ v, v ∈ OD.keys (TE_count_variable st0) →
     TE_count_total st !! v = Some (counted st0 v calls) ∧
     (count_sirna st0 = true →
        sirna_count_total st !! v = Some (counted_si st0 v calls))) ∧
  (∀ st1 st2, Rosette.reset_count st1 = Ok st2 →
     TE_count_total st2 = TE_count_total st1 ∧
     sirna_count_total st2 = sirna_count_total st1).
Proof.
  intros Hzero%init_zero_totals [Hmain Hsi]%run_totals. split.
  - intros v Hv. destruct (Hzero v Hv) as [Hv0 Hsi0]. split.
    + by rewrite (Hmain v 0 Hv0).
    + intros Hs. by rewrite (Hsi v 0 (Hsi0 Hs)).
  - intros st1 st2 (_ & _ & _ & ? & ? & _)%reset_count_frame. done.
Qed.

(** ** Count vectors and sample slots *)

Lemma for_each_is_Ok {A S} (P : S → Prop) (f : A → S → result S) l s :
  (∀ a s1, a ∈ l → P s1 → ∃ s2, f a s1 = Ok s2 ∧ P s2) →
  P s → ∃ s', for_each f l s = Ok s' ∧ P s'.
Proof.
  revert s. induction l as [|a l IH]; intros s Hf Hs; simpl.
  - by exists s.
  - destruct (Hf a s) as (s1 & -> & Hs1); [by left | done |]. simpl.
    apply IH; [|done]. intros ? ? ?. apply Hf. by right.
Qed.

Lemma repeat_length {A} (x : A) n : length (Py.repeat x n) = Z.to_nat n.
Proof. apply length_replicate. Qed.

Lemma counts_wf_fresh c n sirna k : counts_wf (Rosette.fresh c n sirna k).
Proof.
  split_and!; cbn.
  - intros v Hv. by apply elem_of_nil in Hv.
  - intros v counts. by rewrite lookup_empty.
  - intros v counts. by rewrite lookup_empty.
Qed.

Lemma add_counts_wf line st st' :
  Rosette.add line st = Ok st' → counts_wf st → counts_wf st'.
Proof.
  intros (identifier & item & acc & _ & _ & _ & _ & Hvar & Hcount & Htot & Hvalid & Hsic
          & Hsitot & (Hsi & Hn & _) & _)%add_Ok (Hdom & Hlen & Hlensi).
  split_and!.
  - intros v. rewrite Hvar, OD_keys_set, Hcount, Htot, Hvalid, Hsic, Hsitot, Hsi.
    rewrite !lookup_insert. destruct (decide (item = v)) as [->|Hne].
    + intros _. split_and!; try by eexists.
      intros ->. rewrite !lookup_insert_eq. split; by eexists.
    + intros [-> | Hv]; [done|].
      destruct (Hdom v Hv) as (? & ? & ? & Hs). split_and!; try done.
      intros Hsirna. rewrite Hsirna. rewrite !lookup_insert_ne by done. auto.
  - intros v counts. rewrite Hcount, Hn, lookup_insert. case_decide.
    + intros [= <-]. apply repeat_length.
    + apply Hlen.
  - intros v counts. rewrite Hsic, Hn. destruct (count_sirna st); [|apply Hlensi].
    rewrite lookup_insert. case_decide.
    + intros [= <-]. apply repeat_length.
    + apply Hlensi.
Qed.

Lemma read_from_counts_wf i file st st' :
  Rosette.read_from i file st = Ok st' → counts_wf st → counts_wf st'.
Proof.
  revert i st. induction file as [|raw rest IH]; intros i st; simpl.
  - by intros [= <-].
  - intros (st1 & Hline & Hrest)%bind_Ok Hwf. eapply IH; [done|].
    unfold Rosette.read_line in Hline. eapply add_counts_wf; [done|].
    case_bool_decide; done.
Qed.

Lemma init_counts_wf file c count_file n sirna_file st :
  Rosette.init file c count_file n sirna_file = Ok st →
  counts_wf st ∧ sample_number st = n ∧ current_sample st = -1.
Proof.
  unfold Rosette.init. destruct count_file; [|done]. unfold Rosette.read. intros H.
  split; [eapply read_from_counts_wf; [done | apply counts_wf_fresh]|].
  apply read_from_Ok in H as ((_ & ? & _) & ? & _). done.
Qed.

(** Replacing a count vector by one of the same length, or changing
    totals and flags without removing any, keeps the table well formed. *)
Lemma counts_wf_update st st' :
  counts_wf st →
  same_config st st' → TE_count_variable st' = TE_count_variable st →
  (∀ v counts', TE_count st' !! v = Some counts' →
     ∃ counts, TE_count st !! v = Some counts ∧ length counts' = length counts) →
  (∀ v counts', sirna_count st' !! v = Some counts' →
     ∃ counts, sirna_count st !! v = Some counts ∧ length counts' = length counts) →
  (∀ v, is_Some (TE_count st !! v) → is_Some (TE_count st' !! v)) →
  (∀ v, is_Some (sirna_count st !! v) → is_Some (sirna_count st' !! v)) →
  (∀ v, is_Some (TE_count_total st !! v) → is_Some (TE_count_total st' !! v)) →
  (∀ v, is_Some (sirna_count_total st !! v) → is_Some (sirna_count_total st' !! v)) →
  (∀ v, is_Some (TE_count_valid st !! v) → is_Some (TE_count_valid st' !! v)) →
  counts_wf st'.
Proof.
  intros (Hdom & Hlen & Hlensi) (Hsi & Hn & _) Hvar Hc Hs Hc' Hs' Ht Hst Hv.
  split_and!.
  - intros v. rewrite Hvar, Hsi. intros (? & ? & ? & Hsirna)%Hdom.
    split_and!; auto. intros [? ?]%Hsirna. auto.
  - intros v counts' (counts & Hcounts & ->)%Hc. rewrite Hn. by eapply Hlen.
  - intros v counts' (counts & Hcounts & ->)%Hs. rewrite Hn. by eapply Hlensi.
Qed.

Lemma lookup_insert_same_length {A} (m : gmap string (list A)) v0 l l' v x :
  m !! v0 = Some l → length l' = length l →
  <[v0 := l']> m !! v = Some x → ∃ y, m !! v = Some y ∧ length x = length y.
Proof.
  intros Hv0 Hlen. rewrite lookup_insert. case_decide as Hv.
  - subst v0. intros [= <-]. eauto.
  - eauto.
Qed.

Lemma lookup_insert_is_Some' `{Countable K} {A} (m : gmap K A) k x k' :
  is_Some (m !! k') → is_Some (<[k := x]> m !! k').
Proof. rewrite lookup_insert. case_decide; [by eexists | done]. Qed.

Lemma reset_slot_counts_wf item st st' :
  Rosette.reset_slot item st = Ok st' → counts_wf st → counts_wf st'.
Proof.
  intros (counts & counts' & Hcounts & Hset%setitem_length & Hcases)%reset_slot_Ok Hwf.
  destruct Hcases as [[_ ->] | (_ & si & si' & Hsi & Hsiset%setitem_length & ->)];
    (eapply counts_wf_update; [exact Hwf|..]); cbn; try done;
    eauto using lookup_insert_same_length, @lookup_insert_is_Some'.
Qed.

Lemma step_counts_wf c st st' : step c st = Ok st' → counts_wf st → counts_wf st'.
Proof.
  destruct c as [|identifier amount|identifier amount|fasta]; simpl.
  - unfold Rosette.reset_count. intros Hloop Hwf.
    eapply (for_each_invariant counts_wf); [| |exact Hloop].
    + intros item s1 s2 _ Hs1 Hslot. by eapply reset_slot_counts_wf.
    + destruct Hwf as (? & ? & ?). split_and!; done.
  - intros [[_ ->] | (keys & v & counts & old & counts' & total & _ & _ & Hcounts & _
                      & Hset%setitem_length & Htotal & ->)]%count_Ok Hwf.
    + destruct Hwf as (? & ? & ?). split_and!; done.
    + eapply counts_wf_update; [exact Hwf|..]; cbn; try done;
        eauto using lookup_insert_same_length, @lookup_insert_is_Some'.
  - intros [[_ ->] | (keys & v & counts & old & counts' & total & _ & _ & _ & Hcounts & _
                      & Hset%setitem_length & Htotal & ->)]%count_si_Ok Hwf.
    + destruct Hwf as (? & ? & ?). split_and!; done.
    + eapply counts_wf_update; [exact Hwf|..]; cbn; try done;
        eauto using lookup_insert_same_length, @lookup_insert_is_Some'.
  - unfold Rosette.purge. intros (st2 & Hloop & [= <-])%bind_Ok Hwf.
    assert (counts_wf st2) as (? & ? & ?); [|split_and!; done].
    eapply (for_each_invariant counts_wf); [| |exact Hloop].
    + intros raw s1 s2 _ Hs1 Hline%purge_line_Ok.
      destruct (header_variable s1 raw); [|destruct Hline as [-> | [msg ->]]]; subst.
      * eapply counts_wf_update; [exact Hs1|..]; cbn; try done;
          eauto using @lookup_insert_is_Some'.
      * done.
      * destruct Hs1 as (? & ? & ?). split_and!; done.
    + eapply counts_wf_update; [exact Hwf|..]; cbn; try done; eauto.
      intros v. rewrite lookup_fmap. intros [? ->]. by eexists.
Qed.

(** [reset_count] on a slot that exists. *)
Lemma reset_count_in_range st :
  counts_wf st →
  0 ≤ current_sample st + 1 < sample_number st →
  is_Ok (Rosette.reset_count st).
Proof.
  intros Hwf Hcs. unfold Rosette.reset_count.
  set (st1 := with_current_sample (current_sample st + 1) st).
  destruct (for_each_is_Ok
    (λ s, counts_wf s ∧ current_sample s = current_sample st + 1 ∧
          sample_number s = sample_number st ∧
          TE_count_variable s = TE_count_variable st)
    Rosette.reset_slot (OD.keys (TE_count_variable st1)) st1) as (s' & Hs' & _).
  - intros item s1 Hitem (Hs1 & Hcs1 & Hn1 & Hvar1).
    assert (∃ s2, Rosette.reset_slot item s1 = Ok s2) as [s2 Hs2].
    { unfold Rosette.reset_slot. destruct Hs1 as (Hdom & Hlen & Hlensi).
      destruct (Hdom item) as ([counts Hcounts] & _ & _ & Hsi); [by rewrite Hvar1|].
      unfold Py.getitem. rewrite Hcounts. simpl.
      rewrite setitem_nonneg by (rewrite ?(Hlen _ _ Hcounts); lia). simpl.
      destruct (count_sirna s1) eqn:Hsirna; [|by eexists].
      destruct (Hsi eq_refl) as [[si Hsic] _]. rewrite Hsic. simpl.
      rewrite setitem_nonneg by (rewrite ?(Hlensi _ _ Hsic); lia). simpl.
      by eexists. }
    exists s2. split; [done|].
    split; [by eapply reset_slot_counts_wf|].
    apply reset_slot_Ok in Hs2
      as (? & ? & _ & _ & [[_ ->] | (_ & ? & ? & _ & _ & ->)]); done.
  - split_and!; try done; destruct Hwf as (? & ? & ?); split_and!; done.
  - by exists s'.
Qed.

Lemma reset_slot_out_of_range item st counts :
  TE_count st !! item = Some counts →
  length counts = Z.to_nat (sample_number st) →
  0 ≤ current_sample st → sample_number st ≤ current_sample st →
  Rosette.reset_slot item st = Raise IndexError.
Proof.
  intros Hcounts Hlen Hcs0 Hcs. unfold Rosette.reset_slot, Py.getitem.
  rewrite Hcounts. simpl of_option.
  change (Ok counts ≫= ?f) with (f counts). cbv beta.
  unfold Py.setitem. rewrite Hlen.
  assert ((current_sample st <? Z.of_nat (Z.to_nat (sample_number st))) = false) as ->
    by (apply Z.ltb_ge; lia).
  assert ((current_sample st <? 0) = false) as -> by (apply Z.ltb_ge; lia).
  rewrite !andb_false_r. done.
Qed.

(** [reset_count] past the last slot. *)
Lemma reset_count_out_of_range st :
  counts_wf st → TE_count_variable st ≠ [] →
  0 ≤ current_sample st + 1 → sample_number st ≤ current_sample st + 1 →
  Rosette.reset_count st = Raise IndexError.
Proof.
  intros (Hdom & Hlen & _) Hne Hcs0 Hcs. unfold Rosette.reset_count.
  cbn [TE_count_variable with_current_sample].
  destruct (TE_count_variable st) as [|[item keys] rest] eqn:Hvar; [done|].
  destruct (Hdom item) as ([counts Hcounts] & _); [rewrite ?Hvar; cbn; by left|].
  change (OD.keys ((item, keys) :: rest)) with (item :: OD.keys rest).
  cbn [for_each].
  rewrite (reset_slot_out_of_range item _ counts); [done|done|..].
  - cbn. by eapply Hlen.
  - cbn. lia.
  - cbn. lia.
Qed.

(** What holds of a table throughout a run. *)
Lemma run_slots calls st st' :
  run calls st = Ok st' →
  counts_wf st → -1 ≤ current_sample st →
  (TE_count_variable st ≠ [] → current_sample st < sample_number st) →
  counts_wf st' ∧
  current_sample st' = current_sample st + resets calls ∧
  (TE_count_variable st ≠ [] → current_sample st' < sample_number st).
Proof.
  revert st. induction calls as [|c calls IH]; intros st.
  - intros [= <-] Hwf Hcs Hlt. split_and!; [done | simpl; lia | done].
  - intros (st1 & Hstep & Hrun)%for_each_Ok_cons Hwf Hcs Hlt.
    destruct (step_frame _ _ _ Hstep) as [(_ & Hn & _) (_ & _ & Hvar)].
    assert (current_sample st1 = current_sample st + resets [c]) as Hcs1.
    { destruct c as [|identifier amount|identifier amount|fasta]; simpl in *.
      - apply reset_count_frame in Hstep as (_ & _ & -> & _). lia.
      - apply count_Ok in Hstep as [[_ ->] | (? & ? & ? & ? & ? & ? & _ & _ & _ & _ & _ & _ & ->)];
          cbn; lia.
      - apply count_si_Ok in Hstep
          as [[_ ->] | (? & ? & ? & ? & ? & ? & _ & _ & _ & _ & _ & _ & _ & ->)]; cbn; lia.
      - apply purge_frame in Hstep as (_ & _ & -> & _). lia. }
    assert (TE_count_variable st ≠ [] → current_sample st1 < sample_number st) as Hlt1.
    { intros Hne. destruct c as [|identifier amount|identifier amount|fasta];
        simpl in Hcs1; try (specialize (Hlt Hne); lia).
      destruct (decide (current_sample st + 1 < sample_number st)) as [?|Hge]; [lia|].
      rewrite reset_count_out_of_range in Hstep; [done..|lia|lia]. }
    destruct (IH st1 Hrun) as (Hwf' & Hcs' & Hlt').
    + by eapply step_counts_wf.
    + assert (0 ≤ resets [c]) by (destruct c; simpl; lia). lia.
    + rewrite Hvar, Hn. exact Hlt1.
    + split_and!; [done| |].
      * rewrite Hcs', Hcs1. destruct c; simpl; lia.
      * intros Hne. rewrite <- Hn. apply Hlt'. by rewrite Hvar.
Qed.

(** C10. Throughout a run on a loaded table every count vector has one
    slot per sample, and the cursor is the number of [reset_count]
    calls less one. While fewer than [sample_number] calls were made,
    [reset_count] returns; once [sample_number] calls were made the next
    one addresses slot [sample_number], which no vector has, and raises
    [IndexError] as soon as there is a grouping variable. *)
Theorem sample_slots file c count_file n sirna_file st0 calls st :
  0 ≤ n →
  Rosette.init file c count_file n sirna_file = Ok st0 →
  run calls st0 = Ok st →
  (∀ v counts, TE_count st !! v = Some counts → Z.of_nat (length counts) = n) ∧
  (∀ v counts, sirna_count st !! v = Some counts → Z.of_nat (length counts) = n) ∧
  current_sample st = resets calls - 1 ∧
  (resets calls < n → is_Ok (Rosette.reset_count st)) ∧
  (resets calls = n →
     current_sample st + 1 = n ∧
     (∀ v counts, TE_count st !! v = Some counts →
        Py.setitem counts (current_sample st + 1) 0 = Raise IndexError) ∧
     (TE_count_variable st ≠ [] → Rosette.reset_count st = Raise IndexError)) ∧
  (TE_count_variable st ≠ [] → resets calls ≤ n).
Proof.
  intros Hn (Hwf0 & Hn0 & Hcs0)%init_counts_wf Hrun.
  destruct (run_frame _ _ _ Hrun) as [(_ & Hsn & _) (_ & _ & Hvar)].
  destruct (run_slots _ _ _ Hrun Hwf0) as (Hwf & Hcs & Hlt); [lia..|].
  assert (0 ≤ resets calls) as Hres.
  { clear. induction calls as [|[] calls IH]; simpl; lia. }
  pose proof Hwf as (Hdom & Hlen & Hlensi).
  split_and!.
  - intros v counts Hcounts. rewrite (Hlen _ _ Hcounts). lia.
  - intros v counts Hcounts. rewrite (Hlensi _ _ Hcounts). lia.
  - lia.
  - intros Hlt'. apply reset_count_in_range; [done|lia].
  - intros Heq. split_and!; [lia| |].
    + intros v counts Hcounts. unfold Py.setitem. rewrite (Hlen _ _ Hcounts).
      assert ((current_sample st + 1 <? Z.of_nat (Z.to_nat (sample_number st))) = false)
        as -> by (apply Z.ltb_ge; lia).
      assert ((current_sample st + 1 <? 0) = false) as -> by (apply Z.ltb_ge; lia).
      rewrite !andb_false_r. done.
    + intros Hne. apply reset_count_out_of_range; [done..|lia|lia].
  - rewrite Hvar. intros Hne. specialize (Hlt Hne). lia.
Qed.

(** ** Purging, and which lines are written *)

Lemma has_header_ext st st' fasta v :
  (∀ raw, header_variable st' raw = header_variable st raw) →
  has_header st' fasta v ↔ has_header st fasta v.
Proof.
  intros Hext. unfold has_header. rewrite !Exists_exists.
  split; intros (raw & Hraw & Hv); exists raw; by rewrite ?Hext in *.
Qed.

Lemma purge_lines_valid fasta st st' v :
  for_each Rosette.purge_line fasta st = Ok st' →
  valid st' v ↔ has_header st fasta v ∨ valid st v.
Proof.
  revert st. induction fasta as [|raw rest IH]; intros st.
  - intros [= <-]. unfold has_header. rewrite Exists_nil. naive_solver.
  - intros (st1 & Hline & Hrest)%for_each_Ok_cons.
    rewrite (IH _ Hrest). apply purge_line_Ok in Hline.
    assert (∀ raw', header_variable st1 raw' = header_variable st raw') as Hext.
    { intros raw'. apply header_variable_ext;
        destruct (header_variable st raw); [|destruct Hline as [-> | [msg ->]]| |
          destruct Hline as [-> | [msg ->]]]; subst; by repeat split. }
    rewrite (has_header_ext st st1 rest v Hext).
    unfold has_header at 2. rewrite Exists_cons. fold (has_header st rest v).
    unfold valid.
    destruct (header_variable st raw) as [v0|] eqn:Hraw.
    + subst st1. cbn. rewrite lookup_insert. case_decide; naive_solver.
    + destruct Hline as [-> | [msg ->]]; cbn; naive_solver.
Qed.

(** After [purge], the flagged variables are those with a header. *)
Lemma purge_valid fasta st st' v :
  Rosette.purge fasta st = Ok st' → valid st' v ↔ has_header st fasta v.
Proof.
  unfold Rosette.purge. intros (st2 & Hloop & [= <-])%bind_Ok.
  change (valid (with_purged true st2) v) with (valid st2 v).
  rewrite (purge_lines_valid _ _ _ v Hloop).
  assert (∀ raw, header_variable (with_TE_count_valid ((λ _, false) <$> TE_count_valid st) st) raw
                 = header_variable st raw) as Hext.
  { intros raw. apply header_variable_ext; by repeat split. }
  rewrite (has_header_ext _ _ fasta v Hext).
  unfold valid. cbn. rewrite lookup_fmap.
  destruct (TE_count_valid st !! v); simpl; naive_solver.
Qed.

Lemma counting_valid c st st' :
  counting c → step c st = Ok st' → TE_count_valid st' = TE_count_valid st.
Proof.
  destruct c as [|identifier amount|identifier amount|fasta]; simpl; [| | |done]; intros _.
  - intros (_ & _ & _ & _ & _ & ?)%reset_count_frame. done.
  - intros [[_ ->] | (keys & v & counts & old & counts' & total & _ & _ & _ & _ & _ & _ & ->)]
      %count_Ok; done.
  - intros [[_ ->] | (keys & v & counts & old & counts' & total & _ & _ & _ & _ & _ & _ & _ & ->)]
      %count_si_Ok; done.
Qed.

Lemma counting_run_valid calls st st' :
  Forall counting calls → run calls st = Ok st' →
  TE_count_valid st' = TE_count_valid st.
Proof.
  intros Hcalls. revert st. induction Hcalls as [|c calls Hc Hcalls IH]; intros st.
  - by intros [= <-].
  - intros (st1 & Hstep & Hrun)%for_each_Ok_cons.
    rewrite (IH _ Hrun). by eapply counting_valid.
Qed.

Lemma write_item_si st v l :
  Rosette.write_item st v = Ok l → count_sirna st = true ↔ is_Some l.2.
Proof.
  unfold Rosette.write_item. intros H.
  apply bind_Ok in H as (keys & _ & H).
  apply bind_Ok in H as (value & _ & H).
  apply bind_Ok in H as (columns & _ & H).
  apply bind_Ok in H as (counts & _ & H).
  destruct (count_sirna st).
  - apply bind_Ok in H as (si & _ & H).
    apply bind_Ok in H as (total & _ & H).
    apply bind_Ok in H as (sitotal & _ & H).
    injection H as <-. simpl. split; [by eexists | done].
  - apply bind_Ok in H as (total & _ & H).
    injection H as <-. simpl. split; [done | by intros [? ?]].
Qed.

(** [write] sends one line per flagged item, in the order of the items. *)
Lemma write_loop_Ok st items files :
  Rosette.write_loop st items = Ok files →
  lines_of st false (filter (valid st) items) files.1 ∧
  (count_sirna st = true → lines_of st true (filter (valid st) items) files.2).
Proof.
  unfold lines_of. revert files. induction items as [|item rest IH]; intros files; simpl.
  - intros [= <-]. split; [constructor | intros _; constructor].
  - intros (flag & Hflag%getitem_Ok & H)%bind_Ok. destruct flag.
    + apply bind_Ok in H as (lines & Hlines & H).
      apply bind_Ok in H as (files' & Hfiles' & H).
      injection H as <-. destruct (IH _ Hfiles') as [IH1 IH2].
      rewrite filter_cons_True by done. simpl. split.
      * constructor; [by exists lines | done].
      * intros Hsi. destruct (proj1 (write_item_si _ _ _ Hlines) Hsi) as [line Hline].
        rewrite Hline. constructor; [by exists lines | auto].
    + rewrite filter_cons_False by (unfold valid; congruence). by apply IH.
Qed.

Lemma write_Ok st out :
  Rosette.write st = Ok out →
  lines_of st false (filter (valid st) (Rosette.sorted_items st)) out.1 ∧
  (∀ lines, out.2 = Some lines →
     lines_of st true (filter (valid st) (Rosette.sorted_items st)) lines) ∧
  (count_sirna st = true ↔ is_Some out.2).
Proof.
  unfold Rosette.write. intros (files & [H1 H2]%write_loop_Ok & [= <-])%bind_Ok.
  simpl. split; [done|]. destruct (count_sirna st); split.
  - intros lines [= <-]. auto.
  - split; [by eexists | done].
  - done.
  - split; [done | by intros [? ?]].
Qed.

(** C2. After [purge] a grouping variable is flagged valid exactly when
    some header line of the sequence file resolves to it, and whatever
    is counted afterwards, [write] sends to each output file the lines
    of the variables that have such a header, and no other line. *)
Theorem purge_then_write st fasta st1 :
  Rosette.purge fasta st = Ok st1 →
  (∀ v, valid st1 v ↔ has_header st fasta v) ∧
  (∀ calls st2 out,
     Forall counting calls → run calls st1 = Ok st2 → Rosette.write st2 = Ok out →
     lines_of st2 false (filter (has_header st fasta) (Rosette.sorted_items st2)) out.1 ∧
     (∀ lines, out.2 = Some lines →
        lines_of st2 true (filter (has_header st fasta) (Rosette.sorted_items st2)) lines)).
Proof.
  intros Hpurge. split; [intros v; by apply purge_valid|].
  intros calls st2 out Hcalls Hrun (Hmain & Hsi & _)%write_Ok.
  assert (filter (valid st2) (Rosette.sorted_items st2)
          = filter (has_header st fasta) (Rosette.sorted_items st2)) as <-; [|done].
  apply list_filter_iff. intros v. unfold valid at 1.
  rewrite (counting_run_valid _ _ _ Hcalls Hrun). by apply purge_valid.
Qed.

(** ** The tables behind the key vectors *)

Section tables.

Implicit Types (d : Double_dict) (T : list Double_dict) (line : list string).
Implicit Types (keys : list nat) (i k cc : nat).

Lemma dd_add_wf item d :
  dd_wf d →
  dd_wf (DD.add item d).2 ∧
  forward_dict d ⊆ forward_dict (DD.add item d).2 ∧
  forward_dict (DD.add item d).2 !! (DD.add item d).1 = Some item.
Proof.
  intros [vals Hd]. destruct (dd_add_holds d vals item Hd) as [Hd' Hkey].
  split; [by eexists|]. split.
  - apply map_subseteq_spec. intros k x.
    rewrite (dd_holds_forward _ _ _ Hd), (dd_holds_forward _ _ _ Hd').
    intros Hk. eapply prefix_lookup_Some; [done | apply see_prefix].
  - by rewrite (dd_holds_forward _ _ _ Hd').
Qed.

Lemma tables_le_refl T : tables_le T T.
Proof. by split. Qed.

Lemma tables_le_trans T1 T2 T3 : tables_le T1 T2 → tables_le T2 T3 → tables_le T1 T3.
Proof. intros [? ?] [? ?]. split; [congruence | auto]. Qed.

Lemma stored_insert T i d' j k :
  (i < length T)%nat →
  stored (<[i := d']> T) j k = if decide (i = j) then forward_dict d' !! k else stored T j k.
Proof.
  intros Hi. unfold stored. case_decide as Hij.
  - subst j. by rewrite list_lookup_insert_eq.
  - by rewrite list_lookup_insert_ne.
Qed.

(** Replacing a table by a larger one. *)
Lemma tables_le_insert T i d d' :
  T !! i = Some d → forward_dict d ⊆ forward_dict d' → tables_le T (<[i := d']> T).
Proof.
  intros Hi Hsub. split; [apply length_insert|].
  intros j k x. rewrite stored_insert by (by eapply lookup_lt_Some).
  case_decide as Hij; [|done]. subst j. unfold stored. rewrite Hi. simpl.
  intros Hk. by eapply lookup_weaken.
Qed.

Lemma setitem_nat_Ok T i d' T' :
  Py.setitem T (Z.of_nat i) d' = Ok T' → (i < length T)%nat ∧ T' = <[i := d']> T.
Proof.
  unfold Py.setitem.
  destruct ((0 <=? Z.of_nat i) && (Z.of_nat i <? Z.of_nat (length T))) eqn:H1.
  - apply andb_true_iff in H1 as [_ ?%Z.ltb_lt]. rewrite Nat2Z.id.
    intros [= <-]. split; [lia | done].
  - assert ((Z.of_nat i <? 0) = false) as -> by (apply Z.ltb_ge; lia).
    rewrite andb_false_r. done.
Qed.

Lemma setitem_Raise {A} (l : list A) (i : Z) (x : A) e :
  Py.setitem l i x = Raise e → e = IndexError.
Proof. unfold Py.setitem. repeat case_match; congruence. Qed.

(** Interning one value in table [i]. *)
Lemma intern_Ok T i item d T' :
  Forall dd_wf T →
  T !! i = Some d →
  Py.setitem T (Z.of_nat i) (DD.add item d).2 = Ok T' →
  Forall dd_wf T' ∧ tables_le T T' ∧ stored T' i (DD.add item d).1 = Some item.
Proof.
  intros Hwf Hi [Hlt ->]%setitem_nat_Ok.
  destruct (dd_add_wf item d) as (Hwf' & Hsub & Hkey).
  { rewrite Forall_lookup in Hwf. by eapply Hwf. }
  split_and!.
  - by apply Forall_insert.
  - by eapply tables_le_insert.
  - rewrite stored_insert by done. by rewrite decide_True.
Qed.

(** One round of the loop of [add]. *)
Lemma add_attr_Ok line cc i T keys acc' :
  Forall dd_wf T →
  Rosette.add_attr line (Z.of_nat cc) i (T, keys) = Ok acc' →
  (S i = cc ∧ acc' = (T, keys)) ∨
  (S i ≠ cc ∧ ∃ x k,
     line !! S i = Some x ∧ acc'.2 = keys ++ [k] ∧ stored acc'.1 i k = Some x ∧
     tables_le T acc'.1 ∧ Forall dd_wf acc'.1).
Proof.
  intros Hwf. unfold Rosette.add_attr. case_bool_decide as Hi.
  - intros H. right. split; [lia|].
    apply bind_Ok in H as (d & Hd & H).
    apply bind_Ok in H as (x & Hx & H).
    apply bind_Ok in H as (T' & HT' & H). injection H as <-.
    cbn [fst snd] in *.
    rewrite index_nat in Hd. apply of_option_Ok in Hd.
    replace (Z.of_nat i + 1) with (Z.of_nat (S i)) in Hx by lia.
    rewrite index_nat in Hx. apply of_option_Ok in Hx.
    destruct (intern_Ok T i x d T' Hwf Hd HT') as (? & ? & ?).
    exists x, (DD.add x d).1. split_and!; done.
  - intros [= <-]. left. split; [lia | done].
Qed.

(** The loop of [add] over the positions [l]. *)
Lemma add_attrs_Ok line cc l T keys acc' :
  Forall dd_wf T →
  for_each (Rosette.add_attr line (Z.of_nat cc)) l (T, keys) = Ok acc' →
  Forall dd_wf acc'.1 ∧ tables_le T acc'.1 ∧
  ∃ new, acc'.2 = keys ++ new ∧
    Forall2 (λ i k, ∃ x, line !! S i = Some x ∧ stored acc'.1 i k = Some x)
            (filter (λ i, S i ≠ cc) l) new.
Proof.
  revert T keys. induction l as [|i l IH]; intros T keys Hwf.
  - intros [= <-]. split_and!; [done | apply tables_le_refl |].
    exists []. split; [by rewrite app_nil_r | constructor].
  - intros ([T1 keys1] & Hstep & Hrest)%for_each_Ok_cons.
    apply add_attr_Ok in Hstep as [[Hi [= -> ->]] | (Hi & x & k & Hx & Hk & Hst & Hle & Hwf1)];
      [|cbn [fst snd] in *|done].
    + rewrite filter_cons_False by (intros ?; done). by apply IH.
    + destruct (IH _ _ Hwf1 Hrest) as (Hwf' & Hle' & new & Hnew & Hall).
      split_and!; [done | by eapply tables_le_trans |].
      exists (k :: new). split; [by rewrite Hnew, Hk, <- app_assoc|].
      rewrite filter_cons_True by done. constructor; [|done].
      exists x. split; [done|]. by apply Hle'.
Qed.

Lemma add_attr_Raise line (c : Z) i acc e :
  Rosette.add_attr line c i acc = Raise e → e = IndexError.
Proof.
  unfold Rosette.add_attr. case_bool_decide; [|done].
  destruct (Py.index acc.1 (Z.of_nat i)) eqn:H1; simpl;
    [|intros [= <-]; by eapply index_Raise].
  destruct (Py.index line (Z.of_nat i + 1)) eqn:H2; simpl;
    [|intros [= <-]; by eapply index_Raise].
  destruct (Py.setitem _ _ _) eqn:H3; simpl; [done|].
  intros [= <-]. by eapply setitem_Raise.
Qed.

Lemma for_each_Raise {A S} (f : A → S → result S) l s e e0 :
  (∀ a s1 e1, f a s1 = Raise e1 → e1 = e0) →
  for_each f l s = Raise e → e = e0.
Proof.
  intros Hf. revert s. induction l as [|a l IH]; intros s; simpl; [done|].
  destruct (f a s) eqn:Hfa; simpl; [apply IH|]. intros [= <-]. by eapply Hf.
Qed.

Lemma add_attr_is_Ok line cc i T keys :
  (S i ≠ cc → (i < length T)%nat ∧ (S i < length line)%nat) →
  ∃ acc', Rosette.add_attr line (Z.of_nat cc) i (T, keys) = Ok acc' ∧
          length acc'.1 = length T.
Proof.
  intros Hi. unfold Rosette.add_attr. case_bool_decide as Hic; [|by eexists].
  destruct Hi as [HiT Hiline]; [lia|].
  destruct (lookup_lt_is_Some_2 T i HiT) as [d Hd].
  destruct (lookup_lt_is_Some_2 line (S i) Hiline) as [x Hx].
  cbn [fst snd]. rewrite index_nat, Hd. simpl.
  replace (Z.of_nat i + 1) with (Z.of_nat (S i)) by lia.
  rewrite index_nat, Hx. simpl.
  rewrite setitem_nonneg by lia. simpl.
  eexists. split; [done|]. simpl. apply length_insert.
Qed.

(** The loop of [add] returns when every position it visits exists in
    the row. *)
Lemma add_attrs_is_Ok line cc l T keys :
  (∀ i, i ∈ l → S i ≠ cc → (i < length T)%nat ∧ (S i < length line)%nat) →
  ∃ acc', for_each (Rosette.add_attr line (Z.of_nat cc)) l (T, keys) = Ok acc' ∧
          length acc'.1 = length T.
Proof.
  revert T keys. induction l as [|i l IH]; intros T keys Hl.
  - by eexists.
  - destruct (add_attr_is_Ok line cc i T keys) as ([T1 keys1] & Hstep & Hlen1).
    { apply Hl. by left. }
    cbn [for_each]. rewrite Hstep. simpl in *.
    destruct (IH T1 keys1) as (acc' & -> & Hlen).
    { intros j Hj Hjc. rewrite Hlen1. apply Hl; [by right | done]. }
    exists acc'. split; [done | congruence].
Qed.

End tables.

(** ** Loading one row *)

Section loading.

Implicit Types (line row : list string) (rows : list (list string)).
Implicit Types (n cc : nat) (st : Rosette).

Lemma add_Ok_tables line st st' :
  Rosette.add line st = Ok st' →
  ∃ identifier item d tables acc,
    line !! 0%nat = Some identifier ∧
    TE_identifier st' = <[identifier := acc.2]> (TE_identifier st) ∧
    Py.index line (count_column st) = Ok item ∧
    Py.index (TE st) (count_column st) = Ok d ∧
    Py.setitem (TE st) (count_column st) (DD.add item d).2 = Ok tables ∧
    (if bool_decide (1 < Z.of_nat (column_number st) - 1) then
       for_each (Rosette.add_attr line (count_column st))
                (range (column_number st - 1)) (tables, [(DD.add item d).1])
     else Ok (tables, [(DD.add item d).1])) = Ok acc ∧
    TE st' = acc.1 ∧
    TE_count_variable st' = OD.set item acc.2 (TE_count_variable st) ∧
    same_config st st'.
Proof.
  unfold Rosette.add. intros H.
  apply bind_Ok in H as (identifier & Hid & H).
  apply bind_Ok in H as (d & Hd & H).
  apply bind_Ok in H as (item & Hitem & H).
  apply bind_Ok in H as (tables & Htables & H).
  apply bind_Ok in H as (acc & Hacc & H).
  apply bind_Ok in H as (item' & Hitem' & H).
  assert (item' = item) as -> by congruence.
  rewrite (index_nonneg line 0) in Hid by lia. apply of_option_Ok in Hid.
  change (Z.to_nat 0) with 0%nat in Hid.
  exists identifier, item, d, tables, acc.
  cbn [count_sirna with_TE_count_valid with_TE_count_total with_TE_count
       with_TE_count_variable with_TE_identifier with_TE] in H.
  destruct (count_sirna st) eqn:Hsi; injection H as <-; cbn; rewrite ?Hsi;
    split_and!; done.
Qed.

Lemma bind_Raise {A B} (m : result A) (f : A → result B) e :
  m ≫= f = Raise e → m = Raise e ∨ ∃ a, m = Ok a ∧ f a = Raise e.
Proof.
  destruct m as [a|e']; simpl; intros H.
  - right. by exists a.
  - left. by injection H as ->.
Qed.

Lemma add_Raise line st e : Rosette.add line st = Raise e → e = IndexError.
Proof.
  unfold Rosette.add. intros H.
  apply bind_Raise in H as [H | (identifier & _ & H)]; [by eapply index_Raise|].
  apply bind_Raise in H as [H | (d & _ & H)]; [by eapply index_Raise|].
  apply bind_Raise in H as [H | (item & _ & H)]; [by eapply index_Raise|].
  apply bind_Raise in H as [H | (tables & _ & H)]; [by eapply setitem_Raise|].
  apply bind_Raise in H as [H | (acc & _ & H)].
  { case_bool_decide; [|done].
    eapply for_each_Raise; [|exact H]. intros ? ? ?. apply add_attr_Raise. }
  apply bind_Raise in H as [H | (item' & _ & H)]; [by eapply index_Raise|].
  cbn [count_sirna with_TE_count_valid with_TE_count_total with_TE_count
       with_TE_count_variable with_TE_identifier with_TE] in H.
  destruct (count_sirna st); done.
Qed.

Lemma OD_set_NoDup {V} (k : string) (v : V) d :
  NoDup (OD.keys d) → NoDup (OD.keys (OD.set k v d)).
Proof.
  unfold OD.keys. induction d as [|[k' v'] d IH]; simpl.
  - intros _. apply NoDup_singleton.
  - rewrite NoDup_cons. intros [Hk' Hd]. case_decide as Hk; simpl.
    + subst k'. by apply NoDup_cons.
    + apply NoDup_cons. split; [|by apply IH].
      fold (OD.keys (OD.set k v d)). rewrite OD_keys_set. naive_solver.
Qed.

Lemma last_row_snoc cc rows row v :
  last_row cc (rows ++ [row]) v =
  if decide (row !! cc = Some v) then Some row else last_row cc rows v.
Proof.
  induction rows as [|r rows IH]; simpl.
  - done.
  - rewrite IH. case_decide; [done|]. done.
Qed.

Lemma last_row_Some cc rows v row :
  last_row cc rows v = Some row → row ∈ rows ∧ row !! cc = Some v.
Proof.
  induction rows as [|r rows IH]; simpl; [done|].
  destruct (last_row cc rows v) as [r'|].
  - intros [= <-]. destruct IH as [? ?]; [done|]. split; [by right | done].
  - case_decide; [|done]. intros [= <-]. split; [by left | done].
Qed.

Lemma row_keys_le T T' n cc keys v row :
  tables_le T T' → row_keys T n cc keys v row → row_keys T' n cc keys v row.
Proof.
  intros [_ Hle] (k0 & new & -> & Hk0 & Hnew). exists k0, new.
  split_and!; [done | by apply Hle |].
  eapply Forall2_impl; [exact Hnew|]. intros i k (x & ? & ?). exists x. auto.
Qed.

Lemma other_columns_small n cc : (n ≤ 2)%nat → (1 ≤ cc < n)%nat → other_columns n cc = [].
Proof.
  intros Hn Hcc. assert (n = 2%nat) as -> by lia. assert (cc = 1%nat) as -> by lia.
  reflexivity.
Qed.

Lemma fresh_loaded c sample sirna n :
  loaded (Rosette.fresh c sample sirna n) n
         (Z.to_nat (if bool_decide (c - 1 ≤ 0) then 1 else c - 1)) [].
Proof.
  split_and!; cbn.
  - done.
  - case_bool_decide; lia.
  - case_bool_decide; lia.
  - rewrite length_replicate. lia.
  - constructor; [by exists [] ; apply dd_holds_empty|].
    apply Forall_replicate. exists []. apply dd_holds_empty.
  - constructor.
  - intros v. rewrite elem_of_nil. split; [done|]. intros (? & []%elem_of_nil & _).
  - done.
  - intros identifier. by rewrite lookup_empty.
Qed.

(** A row that [add] accepts joins the rows the table holds. *)
Lemma add_loaded line st st' n cc rows :
  loaded st n cc rows → Rosette.add line st = Ok st' →
  loaded st' n cc (rows ++ [line]) ∧ (cc < n)%nat ∧ (n ≤ length line)%nat.
Proof.
  intros (HN & Hcc & Hcc1 & Hlen & Hwf & Hnd & Hmem & Hkeys & Hids) Hadd.
  apply add_Ok_tables in Hadd
    as (identifier & item & d & tables & acc & Hid & Hident & Hitem & Hd & Htables & Hacc
        & HTE & Hvar & Hcfg).
  rewrite Hcc in Hitem, Hd, Htables, Hacc. rewrite HN in Hacc.
  rewrite index_nat in Hitem. rewrite index_nat in Hd.
  apply of_option_Ok in Hitem. apply of_option_Ok in Hd.
  destruct (intern_Ok _ _ _ _ _ Hwf Hd Htables) as (Hwf1 & Hle1 & Hk0).
  assert (cc < n)%nat as Hccn.
  { apply lookup_lt_Some in Hd. lia. }
  assert (Forall dd_wf acc.1 ∧ tables_le tables acc.1 ∧
          ∃ new, acc.2 = (DD.add item d).1 :: new ∧
            Forall2 (λ i k, ∃ x, line !! S i = Some x ∧ stored acc.1 i k = Some x)
                    (other_columns n cc) new) as (Hwf2 & Hle2 & new & Hnew & Hall).
  { case_bool_decide as Hn.
    - apply add_attrs_Ok in Hacc as (? & ? & new & ? & ?); [|done].
      split_and!; [done..|]. by exists new.
    - injection Hacc as <-. split_and!; [done | apply tables_le_refl |].
      exists []. split; [done|]. rewrite other_columns_small by lia. constructor. }
  assert (tables_le (TE st) (TE st')) as Hle.
  { rewrite HTE. by eapply tables_le_trans. }
  assert (row_keys (TE st') n cc acc.2 item line) as Hrow.
  { rewrite HTE. exists (DD.add item d).1, new. split_and!; [done| |done].
    by apply Hle2. }
  assert (n ≤ length line)%nat as Hnline.
  { apply lookup_lt_Some in Hitem.
    destruct (decide (cc = n - 1)%nat) as [->|Hne]; [lia|].
    assert ((n - 2)%nat ∈ other_columns n cc) as Hin.
    { unfold other_columns. apply list_elem_of_filter. split; [lia|].
      apply elem_of_seq. lia. }
    apply list_elem_of_lookup_1 in Hin as [j Hj].
    destruct (Forall2_lookup_l _ _ _ _ _ Hall Hj) as (k & _ & x & Hx & _).
    apply lookup_lt_Some in Hx. lia. }
  split; [|done].
  destruct Hcfg as (_ & _ & Hcc' & HN').
  split_and!.
  - congruence.
  - congruence.
  - done.
  - destruct Hle as [-> _]. done.
  - by rewrite HTE.
  - rewrite Hvar. by apply OD_set_NoDup.
  - intros v. rewrite Hvar, OD_keys_set, Hmem. split.
    + intros [-> | (row & Hrow' & Hv)].
      * exists line. split; [apply elem_of_app; right; by left | done].
      * exists row. split; [apply elem_of_app; by left | done].
    + intros (row & [Hin | ->%list_elem_of_singleton]%elem_of_app & Hv).
      * right. by exists row.
      * left. congruence.
  - intros v keys. rewrite Hvar, OD_get_set, last_row_snoc.
    destruct (decide (v = item)) as [->|Hne].
    + intros [= <-]. rewrite decide_True by done. by exists line.
    + rewrite decide_False by congruence. intros (row & ? & ?)%Hkeys.
      exists row. split; [done|]. by eapply row_keys_le.
  - intros identifier'. rewrite Hident, lookup_insert, last_row_snoc.
    destruct (decide (identifier = identifier')) as [<-|Hne].
    + rewrite decide_True by done. by exists line, item.
    + rewrite decide_False by congruence. specialize (Hids identifier').
      destruct (TE_identifier st !! identifier'); [|done].
      destruct Hids as (row & v & ? & ? & ?). exists row, v.
      split_and!; [done..|]. by eapply row_keys_le.
Qed.

(** [add] accepts every row that has the columns of the header. *)
Lemma add_is_Ok line st n cc rows :
  loaded st n cc rows → (cc < n)%nat → (n ≤ length line)%nat →
  is_Ok (Rosette.add line st).
Proof.
  intros (HN & Hcc & Hcc1 & Hlen & Hwf & _) Hccn Hnline.
  destruct (Rosette.add line st) as [st'|e] eqn:Hadd; [by eexists|].
  exfalso. revert Hadd. unfold Rosette.add.
  destruct (lookup_lt_is_Some_2 line 0) as [identifier Hid]; [lia|].
  destruct (lookup_lt_is_Some_2 line cc) as [item Hitem]; [lia|].
  destruct (lookup_lt_is_Some_2 (TE st) cc) as [d Hd]; [lia|].
  rewrite (index_nonneg line 0) by lia. change (Z.to_nat 0) with 0%nat.
  rewrite Hid, Hcc, !index_nat, Hd, Hitem. simpl.
  rewrite setitem_nonneg by lia. simpl. rewrite Nat2Z.id, HN.
  destruct (add_attrs_is_Ok line cc (range (n - 1)) (<[cc := (DD.add item d).2]> (TE st))
              [(DD.add item d).1]) as (acc & Hacc & _).
  { intros i Hi%elem_of_seq _. rewrite length_insert. lia. }
  rewrite Hacc. case_bool_decide; simpl;
    cbn [count_sirna with_TE_count_valid with_TE_count_total with_TE_count
         with_TE_count_variable with_TE_identifier with_TE];
    destruct (count_sirna st); done.
Qed.

End loading.

(** ** Loading a file *)

Section reading.

Implicit Types (line row : list string) (rows : list (list string)).
Implicit Types (n cc : nat) (st : Rosette) (file : list string).

Lemma loaded_print st n cc rows msg : loaded st n cc rows → loaded (print msg st) n cc rows.
Proof. intros H. exact H. Qed.

Lemma read_line_loaded i raw st st' n cc rows :
  loaded st n cc rows → Rosette.read_line i raw st = Ok st' →
  loaded st' n cc (rows ++ [Py.split raw]) ∧ (cc < n)%nat ∧ (n ≤ length (Py.split raw))%nat.
Proof.
  intros Hst. unfold Rosette.read_line. apply add_loaded.
  case_bool_decide; [by apply loaded_print | done].
Qed.

Lemma read_from_loaded i file st st' n cc rows :
  loaded st n cc rows → Rosette.read_from i file st = Ok st' →
  loaded st' n cc (rows ++ map Py.split file) ∧
  Forall (λ raw, cc < n ∧ n ≤ length (Py.split raw))%nat file.
Proof.
  revert i st rows. induction file as [|raw rest IH]; intros i st rows Hst; simpl.
  - intros [= <-]. rewrite app_nil_r. split; [done | constructor].
  - intros (st1 & Hline & Hrest)%bind_Ok.
    destruct (read_line_loaded _ _ _ _ _ _ _ Hst Hline) as (Hst1 & ? & ?).
    destruct (IH _ _ _ Hst1 Hrest) as [Hst' Hall].
    rewrite <- app_assoc in Hst'. split; [done|]. by constructor.
Qed.

Lemma read_line_Raise i raw st e :
  Rosette.read_line i raw st = Raise e → e = IndexError.
Proof. unfold Rosette.read_line. apply add_Raise. Qed.

Lemma read_from_Raise i file st e :
  Rosette.read_from i file st = Raise e → e = IndexError.
Proof.
  revert i st. induction file as [|raw rest IH]; intros i st; simpl; [done|].
  intros [H | (st1 & _ & H)]%bind_Raise; [by eapply read_line_Raise | by eapply IH].
Qed.

Lemma read_from_is_Ok i file st n cc rows :
  loaded st n cc rows → (cc < n)%nat →
  Forall (λ raw, n ≤ length (Py.split raw))%nat file →
  is_Ok (Rosette.read_from i file st).
Proof.
  intros Hst Hcc Hfile. revert i st rows Hst.
  induction Hfile as [|raw rest Hraw Hrest IH]; intros i st rows Hst; simpl.
  - by eexists.
  - assert (is_Ok (Rosette.read_line (S i) raw st)) as [st1 Hline].
    { unfold Rosette.read_line. eapply add_is_Ok; [|done..].
      case_bool_decide; [by apply loaded_print | done]. }
    rewrite Hline. simpl. eapply IH.
    by eapply read_line_loaded.
Qed.

Lemma init_loaded file c count_file sample sirna_file st :
  Rosette.init file c count_file sample sirna_file = Ok st →
  loaded st (length (Py.split (Rosette.readline file)))
         (Z.to_nat (if bool_decide (c - 1 ≤ 0) then 1 else c - 1))
         (map Py.split file) ∧
  Forall (λ raw, length (Py.split (Rosette.readline file)) ≤ length (Py.split raw))%nat file.
Proof.
  unfold Rosette.init. destruct count_file; [|done]. unfold Rosette.read.
  intros [Hst Hall]%(read_from_loaded _ _ _ _ _ _ [] (fresh_loaded _ _ _ _)).
  split; [done|]. eapply Forall_impl; [exact Hall|]. by intros raw [_ ?].
Qed.

Lemma bind_ext {A B} (m : result A) (f g : A → result B) :
  (∀ a, f a = g a) → m ≫= f = m ≫= g.
Proof. intros Hfg. destruct m; simpl; [apply Hfg | done]. Qed.

(** The columns past those of the header play no part in [add]. *)
Lemma add_take line st n cc rows :
  loaded st n cc rows → (cc < n)%nat → (n ≤ length line)%nat →
  Rosette.add line st = Rosette.add (take n line) st.
Proof.
  intros (HN & Hcc & Hcc1 & _) Hccn Hnline.
  assert (∀ j, (j < n)%nat → Py.index (take n line) (Z.of_nat j) = Py.index line (Z.of_nat j))
    as Hidx.
  { intros j Hj. rewrite !index_nat. by rewrite lookup_take_lt. }
  assert (∀ l acc, Forall (λ i, i < n - 1)%nat l →
            for_each (Rosette.add_attr (take n line) (Z.of_nat cc)) l acc
            = for_each (Rosette.add_attr line (Z.of_nat cc)) l acc) as Hloop.
  { intros l acc Hl. revert acc. induction Hl as [|i l Hi Hl IH]; intros acc; [done|].
    cbn [for_each].
    assert (Rosette.add_attr (take n line) (Z.of_nat cc) i acc
            = Rosette.add_attr line (Z.of_nat cc) i acc) as ->.
    { unfold Rosette.add_attr. case_bool_decide; [|done].
      replace (Z.of_nat i + 1) with (Z.of_nat (S i)) by lia.
      by rewrite Hidx by lia. }
    destruct (Rosette.add_attr line (Z.of_nat cc) i acc); simpl; [apply IH | done]. }
  unfold Rosette.add.
  rewrite Hcc, (Hidx cc Hccn).
  assert (Py.index (take n line) 0 = Py.index line 0) as -> by (apply (Hidx 0%nat); lia).
  rewrite HN.
  apply bind_ext; intros identifier. apply bind_ext; intros d.
  apply bind_ext; intros item. apply bind_ext; intros tables.
  rewrite Hloop; [done|].
  apply Forall_forall. intros i Hi%elem_of_seq. lia.
Qed.

Lemma add_short line st n cc rows :
  loaded st n cc rows → (length line < n)%nat → Rosette.add line st = Raise IndexError.
Proof.
  intros Hst Hline.
  destruct (Rosette.add line st) as [st'|e] eqn:Hadd.
  - destruct (add_loaded _ _ _ _ _ _ Hst Hadd) as (_ & _ & ?). lia.
  - f_equal. by eapply add_Raise.
Qed.

(** When [read] returns, the standard output is that of the table. *)
Lemma read_console_Ok i file st st' :
  Rosette.read_from i file st = Ok st' → Rosette.read_console i file st = stdout st'.
Proof.
  revert i st. induction file as [|raw rest IH]; intros i st; simpl.
  - by intros [= <-].
  - intros (st1 & Hline & Hrest)%bind_Ok. unfold Rosette.read_line in Hline.
    rewrite Hline. by apply IH.
Qed.

(** Up to the first short row every mismatch is printed, that of the
    short row included; what follows the short row is not read. *)
Lemma read_console_short i good short rest st n cc rows :
  loaded st n cc rows → (cc < n)%nat →
  Forall (λ raw, n ≤ length (Py.split raw))%nat good →
  (length (Py.split short) < n)%nat →
  Rosette.read_console i (good ++ short :: rest) st
  = stdout st ++ mismatches n i (good ++ [short]).
Proof.
  intros Hst Hcc Hgood Hshort. revert i st rows Hst.
  induction Hgood as [|raw good Hraw Hgood IH]; intros i st rows Hst.
  - pose proof Hst as (HN & _). cbn [app Rosette.read_console mismatches].
    rewrite HN. rewrite !bool_decide_eq_true_2 by lia.
    rewrite (add_short _ _ n cc rows); [|by apply loaded_print|done].
    done.
  - pose proof Hst as (HN & _).
    cbn [app Rosette.read_console mismatches]. rewrite HN.
    set (st1 := if bool_decide (length (Py.split raw) ≠ n)
                then print (Rosette.mismatch_message (S i) (length (Py.split raw))) st
                else st).
    assert (loaded st1 n cc rows) as Hst1.
    { unfold st1. case_bool_decide; [by apply loaded_print | done]. }
    assert (stdout st1 = stdout st ++
              (if bool_decide (length (Py.split raw) ≠ n)
               then [Rosette.mismatch_message (S i) (length (Py.split raw))] else [])) as Hout1.
    { unfold st1. case_bool_decide; [done | by rewrite app_nil_r]. }
    destruct (add_is_Ok (Py.split raw) st1 n cc rows Hst1 Hcc Hraw) as [st' Hadd].
    rewrite Hadd.
    pose proof (add_loaded _ _ _ _ _ _ Hst1 Hadd) as (Hst' & _).
    apply add_Ok in Hadd as (identifier & item & acc & _ & _ & _ & _ & _ & _ & _ & _ & _ & _
                             & _ & _ & _ & Hout).
    rewrite (IH _ _ _ Hst'), Hout, Hout1. by rewrite <- app_assoc.
Qed.

(** Whatever the file, the output of [read] is the messages of the
    rows it reads. *)
Lemma read_console_rows i file st n cc rows :
  loaded st n cc rows → (cc < n)%nat →
  Rosette.read_console i file st = stdout st ++ mismatches n i (rows_read n file).
Proof.
  intros Hst Hcc. revert i st rows Hst.
  induction file as [|raw rest IH]; intros i st rows Hst.
  - cbn. by rewrite app_nil_r.
  - pose proof Hst as (HN & _).
    cbn [Rosette.read_console rows_read]. rewrite HN.
    set (st1 := if bool_decide (length (Py.split raw) ≠ n)
                then print (Rosette.mismatch_message (S i) (length (Py.split raw))) st
                else st).
    assert (loaded st1 n cc rows) as Hst1.
    { unfold st1. case_bool_decide; [by apply loaded_print | done]. }
    assert (stdout st1 = stdout st ++
              (if bool_decide (length (Py.split raw) ≠ n)
               then [Rosette.mismatch_message (S i) (length (Py.split raw))] else [])) as Hout1.
    { unfold st1. case_bool_decide; [done | by rewrite app_nil_r]. }
    destruct (decide (length (Py.split raw) < n)%nat) as [Hshort|Hlong].
    + rewrite (bool_decide_eq_true_2 (length (Py.split raw) < n)%nat Hshort).
      rewrite (add_short _ _ n cc rows Hst1 Hshort).
      cbn [mismatches]. by rewrite Hout1, app_nil_r.
    + rewrite (bool_decide_eq_false_2 (length (Py.split raw) < n)%nat Hlong).
      destruct (add_is_Ok (Py.split raw) st1 n cc rows Hst1 Hcc) as [st' Hadd]; [lia|].
      rewrite Hadd.
      pose proof (add_loaded _ _ _ _ _ _ Hst1 Hadd) as (Hst' & _).
      apply add_Ok in Hadd as (identifier & item & acc & _ & _ & _ & _ & _ & _ & _ & _ & _ & _
                               & _ & _ & _ & Hout).
      cbn [mismatches]. rewrite (IH _ _ _ Hst'), Hout, Hout1. by rewrite <- app_assoc.
Qed.

(** C6, as the code has it. Loading compares every row it reads with
    the [n] columns of the first line and prints a message for each
    row that differs, before it loads the row. When the grouping
    column is one of the [n] columns, rows with [n] columns or more are
    loaded, the columns past the [n]-th playing no part; a row with
    fewer than [n] columns, and so any row that lacks the grouping
    column, raises [IndexError] and ends the loading: the standard
    output then holds the messages of the rows up to that one, its own
    being the last, and nothing of the rows after it, which are never
    read. In every case the output is the messages of the rows read. *)
Theorem read_mismatched_rows file c count_file sample sirna_file :
  let n := length (Py.split (Rosette.readline file)) in
  let cc := Z.to_nat (if bool_decide (c - 1 ≤ 0) then 1 else c - 1) in
  let warning := if bool_decide (c - 1 ≤ 0) then [Rosette.wrong_column_warning] else [] in
  ((cc < n)%nat → Forall (λ raw, n ≤ length (Py.split raw))%nat file →
     ∃ st, Rosette.init file c (Some count_file) sample sirna_file = Ok st ∧
       stdout st = (if bool_decide (c - 1 ≤ 0) then [Rosette.wrong_column_warning] else [])
                   ++ mismatches n 0 file) ∧
  (Exists (λ raw, length (Py.split raw) < n)%nat file →
     Rosette.init file c (Some count_file) sample sirna_file = Raise IndexError) ∧
  (∀ st rows line, loaded st n cc rows → (cc < n)%nat → (n ≤ length line)%nat →
     is_Ok (Rosette.add line st) ∧ Rosette.add line st = Rosette.add (take n line) st) ∧
  (∀ st rows line, loaded st n cc rows → (length line < n)%nat →
     Rosette.add line st = Raise IndexError) ∧
  (∀ st, Rosette.init file c (Some count_file) sample sirna_file = Ok st →
     Rosette.init_console file c (Some count_file) sample sirna_file = stdout st) ∧
  ((cc < n)%nat →
     Rosette.init_console file c (Some count_file) sample sirna_file
       = warning ++ mismatches n 0 (rows_read n file)) ∧
  (∀ good short rest, file = good ++ short :: rest → (cc < n)%nat →
     Forall (λ raw, n ≤ length (Py.split raw))%nat good →
     (length (Py.split short) < n)%nat →
     Rosette.init file c (Some count_file) sample sirna_file = Raise IndexError ∧
     Rosette.init_console file c (Some count_file) sample sirna_file
       = warning ++ mismatches n 0 (good ++ [short]) ∧
     last (Rosette.init_console file c (Some count_file) sample sirna_file)
       = Some (Rosette.mismatch_message (S (length good)) (length (Py.split short)))).
Proof.
  intros n cc warning.
  assert (Exists (λ raw, length (Py.split raw) < n)%nat file →
     Rosette.init file c (Some count_file) sample sirna_file = Raise IndexError) as Hraise.
  { intros Hshort.
    destruct (Rosette.init file c (Some count_file) sample sirna_file) as [st|e] eqn:Hinit.
    + apply init_loaded in Hinit as [_ Hall]. fold n in Hall.
      apply Exists_exists in Hshort as (raw & Hraw & Hlt).
      rewrite Forall_forall in Hall. specialize (Hall raw Hraw). lia.
    + f_equal. unfold Rosette.init, Rosette.read in Hinit. by eapply read_from_Raise. }
  split_and!.
  - intros Hcc Hfile. unfold Rosette.init, Rosette.read.
    destruct (read_from_is_Ok 0 file
                (Rosette.fresh c sample (bool_decide (is_Some sirna_file)) n) n cc [])
      as [st Hst]; [apply fresh_loaded | done..|].
    exists st. split; [done|].
    apply read_from_Ok in Hst as (_ & _ & _ & ->). done.
  - exact Hraise.
  - intros st rows line Hst Hcc Hline. split.
    + by eapply add_is_Ok.
    + by eapply add_take.
  - intros st rows line Hst Hline. by eapply add_short.
  - intros st. unfold Rosette.init, Rosette.init_console, Rosette.read.
    apply read_console_Ok.
  - intros Hcc. unfold Rosette.init_console. fold n.
    by rewrite (read_console_rows 0 file _ n cc [] (fresh_loaded _ _ _ _)).
  - intros good short rest Hfile Hcc Hgood Hshort.
    assert (Rosette.init_console file c (Some count_file) sample sirna_file
            = warning ++ mismatches n 0 (good ++ [short])) as Hconsole.
    { unfold Rosette.init_console. fold n. rewrite Hfile.
      by rewrite (read_console_short 0 good short rest _ n cc [] (fresh_loaded _ _ _ _)). }
    split_and!.
    + apply Hraise. rewrite Hfile. apply Exists_app. right. by left.
    + exact Hconsole.
    + rewrite Hconsole. clear Hconsole.
      assert (∀ i, mismatches n i (good ++ [short])
                = mismatches n i good
                  ++ [Rosette.mismatch_message (S (i + length good)) (length (Py.split short))])
        as Hlast.
      { clear -Hshort. induction good as [|raw good IH]; intros i.
        - cbn [app mismatches length]. rewrite bool_decide_eq_true_2 by lia.
          by rewrite Nat.add_0_r.
        - cbn [app mismatches length]. rewrite IH, <- app_assoc.
          by replace (S i + length good)%nat with (i + S (length good))%nat by lia. }
      rewrite Hlast, app_assoc. by rewrite last_snoc.
Qed.

(** A row without the grouping column: loading raises. *)
Lemma read_short_row_counterexample :
  Rosette.init ["c1 LINE1 x"; "c2"] 2 (Some "counts.txt") 2 None = Raise IndexError.
Proof. reflexivity. Qed.

(** The short row is reported before loading ends; the long row after
    it is not read. *)
Lemma read_short_row_console :
  Rosette.init_console ["c1 LINE1 x"; "c2"; "c3 LINE1 z w"] 2 (Some "counts.txt") 2 None
  = ["line 2 has 1 rows"].
Proof. by vm_compute. Qed.

End reading.

(** ** Sorting on the key vectors *)

Section sorting.

Context {A : Type} (key : A → list nat).

Lemma list_lt_head (a b : list nat) ka kb :
  head a = Some ka → head b = Some kb → ka ≠ kb →
  list_lt a b = bool_decide (ka < kb)%nat.
Proof.
  destruct a as [|x a], b as [|y b]; simpl; try done. intros [= ->] [= ->] Hne.
  destruct (ka <? kb)%nat eqn:Hxy.
  - apply Nat.ltb_lt in Hxy. by rewrite bool_decide_eq_true_2.
  - apply Nat.ltb_ge in Hxy. rewrite bool_decide_eq_false_2 by lia.
    replace (kb <? ka)%nat with true; [done|]. symmetry. apply Nat.ltb_lt. lia.
Qed.

Lemma insert_by_perm x l : insert_by key x l ≡ₚ x :: l.
Proof.
  induction l as [|y l IH]; simpl; [done|].
  destruct (list_lt (key y) (key x)); [|done].
  rewrite IH. apply Permutation_swap.
Qed.

Lemma sorted_by_perm l : sorted_by key l ≡ₚ l.
Proof.
  induction l as [|x l IH]; simpl; [done|]. by rewrite insert_by_perm, IH.
Qed.

Lemma insert_by_sorted x l :
  is_Some (head (key x)) →
  Forall (λ y, is_Some (head (key y)) ∧ head (key y) ≠ head (key x)) l →
  StronglySorted (key_lt key) l → StronglySorted (key_lt key) (insert_by key x l).
Proof.
  intros [kx Hkx] Hl Hsorted. induction Hsorted as [|y l Hsorted IH Hy]; simpl.
  - repeat constructor.
  - apply Forall_cons in Hl as [[[ky Hky] Hne] Hl].
    rewrite (list_lt_head _ _ ky kx) by congruence.
    case_bool_decide as Hlt.
    + constructor; [by apply IH|].
      rewrite (insert_by_perm x l). constructor; [|done].
      exists ky, kx. done.
    + assert (key_lt key x y) as Hxy.
      { exists kx, ky. split_and!; [done..|].
        assert (kx ≠ ky) by congruence. lia. }
      constructor; [by constructor|]. constructor; [done|].
      eapply Forall_impl; [exact Hy|]. intros z (ky' & kz & ? & ? & ?).
      destruct Hxy as (kx' & ky'' & ? & ? & ?). exists kx', kz.
      split_and!; [done..|]. assert (ky' = ky'') by congruence. lia.
Qed.

(** Sorting entries whose key vectors start with different keys puts
    them in the order of these first keys. *)
Lemma sorted_by_sorted l :
  Forall (λ x, is_Some (head (key x))) l →
  NoDup ((λ x, head (key x)) <$> l) →
  StronglySorted (key_lt key) (sorted_by key l).
Proof.
  induction l as [|x l IH]; simpl; [constructor|].
  rewrite Forall_cons, NoDup_cons. intros [Hx Hl] [Hnotin Hnd].
  apply insert_by_sorted; [done| |by apply IH].
  rewrite (sorted_by_perm l). apply Forall_forall. intros y Hy.
  split; [by eapply Forall_forall in Hl|].
  intros Heq. apply Hnotin. rewrite <- Heq. apply list_elem_of_fmap. by exists y.
Qed.

End sorting.

Lemma StronglySorted_fmap_elem {A B} (f : A → B) (R1 : relation A) (R2 : relation B) l :
  (∀ x y, x ∈ l → y ∈ l → R1 x y → R2 (f x) (f y)) →
  StronglySorted R1 l → StronglySorted R2 (f <$> l).
Proof.
  intros Hf Hsorted. induction Hsorted as [|x l Hsorted IH Hx]; csimpl; constructor.
  - apply IH. intros y z Hy Hz. apply Hf; by right.
  - rewrite Forall_fmap. apply Forall_forall. intros y Hy. simpl.
    apply Hf; [by left | by right |]. by eapply Forall_forall in Hx.
Qed.


(** ** The text of a line *)

Lemma append_assoc (s1 s2 s3 : string) : (s1 +:+ s2) +:+ s3 = s1 +:+ (s2 +:+ s3).
Proof.
  induction s1 as [|a s1 IH]; [done|].
  change (String a ((s1 +:+ s2) +:+ s3) = String a (s1 +:+ (s2 +:+ s3))).
  by rewrite IH.
Qed.

(** Writing the fields one after the other gives the fields, each
    followed by a space, in front of what is written next. *)
Lemma fold_left_text {A} (f : A → string) (l : list A) (text rest : string) :
  fold_left (λ t a, t +:+ f a +:+ " ") l text +:+ rest
  = text +:+ fold_right (λ a t, f a +:+ " " +:+ t) rest l.
Proof.
  revert text. induction l as [|a l IH]; intros text; simpl; [done|].
  by rewrite IH, !append_assoc.
Qed.

Lemma other_columns_1 n : other_columns n 1 = seq 1 (n - 2).
Proof.
  assert (∀ m p, (1 ≤ p)%nat → filter (λ i, S i ≠ 1%nat) (seq p m) = seq p m) as Hall.
  { induction m as [|m IH]; intros p Hp; [done|].
    cbn [seq]. rewrite filter_cons_True by lia. rewrite IH by lia. done. }
  unfold other_columns. destruct n as [|[|n]]; [done..|].
  replace (S (S n) - 1)%nat with (S n) by lia.
  replace (S (S n) - 2)%nat with n by lia.
  cbn [seq]. rewrite filter_cons_False by (intros ?; done). by apply Hall.
Qed.

Section writing.

Implicit Types (st : Rosette) (row : list string) (rows : list (list string)).
Implicit Types (keys pre new : list nat) (n m : nat) (text v : string).

Lemma stored_Some T i k x :
  stored T i k = Some x ↔ ∃ d, T !! i = Some d ∧ forward_dict d !! k = Some x.
Proof.
  unfold stored. destruct (T !! i) as [d|]; simpl; [naive_solver|].
  split; [done | by intros (? & ? & ?)].
Qed.

Lemma write_attr_step st keys i k d x text :
  count_column st = 1 → (1 ≤ i)%nat →
  TE st !! i = Some d → keys !! i = Some k → forward_dict d !! k = Some x →
  Rosette.write_attr st keys i text = Ok (text +:+ x +:+ " ").
Proof.
  intros Hcc Hi Hd Hk Hx. unfold Rosette.write_attr.
  rewrite Hcc, bool_decide_eq_true_2 by lia.
  rewrite !index_nat, Hd. simpl. rewrite Hk. simpl.
  unfold DD.getitem, Py.getitem. by rewrite Hx.
Qed.

Lemma write_attr_skip st keys text :
  count_column st = 1 → Rosette.write_attr st keys 0 text = Ok text.
Proof.
  intros Hcc. unfold Rosette.write_attr. by rewrite Hcc, bool_decide_eq_false_2 by lia.
Qed.

(** The loop of [write] over the attribute columns, when the table is
    grouped on its second column. *)
Lemma write_attrs_Ok st row pre new m text :
  count_column st = 1 → (1 ≤ length pre)%nat →
  Forall2 (λ i k, ∃ x, row !! S i = Some x ∧ stored (TE st) i k = Some x)
          (seq (length pre) m) new →
  for_each (Rosette.write_attr st (pre ++ new)) (seq (length pre) m) text
  = Ok (fold_left (λ t a, t +:+ a +:+ " ") (take m (drop (S (length pre)) row)) text).
Proof.
  intros Hcc. revert pre new text. induction m as [|m IH]; intros pre new text Hpre Hall.
  - by rewrite take_0.
  - cbn [seq] in Hall. apply Forall2_cons_inv_l in Hall
      as (k & new' & (x & Hx & [d [Hd Hk]]%stored_Some) & Hall & ->).
    cbn [seq for_each].
    rewrite (write_attr_step st _ _ k d x) by
      (done || lia || by rewrite lookup_app_r, Nat.sub_diag by done).
    simpl.
    rewrite (drop_S _ x _ Hx). cbn [take fold_left].
    replace (pre ++ k :: new') with ((pre ++ [k]) ++ new') by (by rewrite <- app_assoc).
    replace (S (length pre)) with (length (pre ++ [k])) by (rewrite length_app; simpl; lia).
    apply IH; [rewrite length_app; simpl; lia|].
    replace (length (pre ++ [k])) with (S (length pre)) by (rewrite length_app; simpl; lia).
    done.
Qed.

(** The lines [write_item] builds for a variable of a table grouped on
    its second column. *)
Lemma write_item_loaded st n rows v keys :
  loaded st n 1 rows →
  OD.get (TE_count_variable st) v = Some keys →
  ∀ counts total,
    TE_count st !! v = Some counts → TE_count_total st !! v = Some total →
    (count_sirna st = true →
       is_Some (sirna_count st !! v) ∧ is_Some (sirna_count_total st !! v)) →
    ∃ l, Rosette.write_item st v = Ok l ∧
      line_for st rows (TE_count st) (TE_count_total st) v l.1 ∧
      (∀ line, l.2 = Some line →
         line_for st rows (sirna_count st) (sirna_count_total st) v line).
Proof.
  intros (HN & Hcc & _ & _ & _ & _ & _ & Hkeys & _) Hget counts total Hcounts Htotal Hsi.
  destruct (Hkeys _ _ Hget) as (row & Hrow & k0 & new & -> & Hk0 & Hnew).
  rewrite other_columns_1 in Hnew.
  apply stored_Some in Hk0 as (d & Hd & Hk0).
  assert (Rosette.variable_of_keys st (k0 :: new) = Ok v) as Hv.
  { unfold Rosette.variable_of_keys. rewrite Hcc, index_nat, Hd. simpl.
    unfold DD.getitem, Py.getitem. by rewrite Hk0. }
  assert (for_each (Rosette.write_attr st (k0 :: new)) (range (column_number st - 1))
            (v +:+ " ")
          = Ok (fold_left (λ t a, t +:+ a +:+ " ") (take (n - 2) (drop 2 row)) (v +:+ " ")))
    as Hattrs.
  { rewrite HN. unfold range. destruct n as [|[|n]]; [done..|].
    replace (S (S n) - 1)%nat with (S n) by lia.
    replace (S (S n) - 2)%nat with n in * by lia.
    cbn [seq for_each]. rewrite write_attr_skip by done. simpl.
    by apply (write_attrs_Ok st row [k0] new n). }
  unfold Rosette.write_item. rewrite Hget. simpl. rewrite Hv. simpl.
  rewrite Hattrs. simpl. unfold Py.getitem. rewrite Hcounts, Htotal. simpl.
  destruct (count_sirna st) eqn:Hs.
  - destruct (Hsi eq_refl) as [[si Hsic] [sitotal Hsitotal]].
    rewrite Hsic, Hsitotal. simpl. eexists. split; [done|]. simpl. split.
    + exists row, counts, total. split_and!; [done..|].
      unfold Rosette.write_counts, spec_line. rewrite HN.
      by rewrite (fold_left_text Py.str), (fold_left_text id), append_assoc.
    + intros line [= <-]. exists row, si, sitotal. split_and!; [done..|].
      unfold Rosette.write_counts, spec_line. rewrite HN.
      by rewrite (fold_left_text Py.str), (fold_left_text id), append_assoc.
  - eexists. split; [done|]. simpl. split; [|done].
    exists row, counts, total. split_and!; [done..|].
    unfold Rosette.write_counts, spec_line. rewrite HN.
    by rewrite (fold_left_text Py.str), (fold_left_text id), append_assoc.
Qed.

End writing.

(** ** What [write] produces for a loaded table *)

Section written.

Implicit Types (st : Rosette) (row : list string) (rows : list (list string)).
Implicit Types (keys : list nat) (n cc : nat) (v : string).

Lemma loaded_ext st st' n cc rows :
  same_config st st' → same_annotation st st' →
  loaded st n cc rows → loaded st' n cc rows.
Proof.
  intros (_ & _ & Hcc & HN) (HTE & Hid & Hvar). unfold loaded.
  by rewrite Hcc, HN, HTE, Hvar, Hid.
Qed.

Lemma run_counts_wf calls st st' : run calls st = Ok st' → counts_wf st → counts_wf st'.
Proof.
  intros Hrun Hwf. eapply (for_each_invariant counts_wf); [|exact Hwf|exact Hrun].
  intros c s1 s2 _ Hs1 Hstep. by eapply step_counts_wf.
Qed.

Lemma OD_get_elem {V} (d : list (string * V)) k x :
  NoDup (OD.keys d) → (k, x) ∈ d → OD.get d k = Some x.
Proof.
  unfold OD.keys. induction d as [|[k' x'] d IH]; simpl.
  - by intros _ ?%elem_of_nil.
  - rewrite NoDup_cons. intros [Hk' Hnd] [[= -> ->] | Hin]%elem_of_cons.
    + by rewrite decide_True.
    + rewrite decide_False; [by apply IH|].
      intros ->. apply Hk'. apply list_elem_of_fmap. by exists (k', x).
Qed.

Lemma OD_get_elem_inv {V} (d : list (string * V)) k x :
  OD.get d k = Some x → (k, x) ∈ d.
Proof.
  induction d as [|[k' x'] d IH]; simpl; [done|].
  case_decide; [intros [= ->]; subst; by left | intros ?; right; by apply IH].
Qed.

(** The first key of the key vector of a variable is the key of the
    variable in the table of the grouping column. *)
Lemma loaded_group_key st n cc rows v keys :
  loaded st n cc rows → (v, keys) ∈ TE_count_variable st →
  ∃ k0, head keys = Some k0 ∧ group_key st v = Some k0 ∧ stored (TE st) cc k0 = Some v.
Proof.
  intros (_ & Hcc & _ & _ & Hwf & Hnd & _ & Hkeys & _) Hin.
  destruct (Hkeys v keys) as (row & _ & k0 & new & -> & Hk0 & _); [by apply OD_get_elem|].
  exists k0. split_and!; [done| |done].
  apply stored_Some in Hk0 as (d & Hd & Hk0).
  unfold group_key. rewrite Hcc, Nat2Z.id, Hd. simpl.
  rewrite Forall_lookup in Hwf. destruct (Hwf _ _ Hd) as [vals Hvals].
  rewrite (dd_holds_forward _ _ _ Hvals) in Hk0. by apply Hvals.
Qed.

(** The items, in the order [write] visits them. *)
Lemma sorted_items_loaded st n cc rows :
  loaded st n cc rows →
  Rosette.sorted_items st ≡ₚ OD.keys (TE_count_variable st) ∧
  StronglySorted (interned_before st) (Rosette.sorted_items st).
Proof.
  intros Hst. pose proof Hst as (_ & _ & _ & _ & _ & Hnd & _ & _).
  unfold Rosette.sorted_items, OD.keys. split.
  - apply fmap_Permutation, sorted_by_perm.
  - eapply (StronglySorted_fmap_elem fst (key_lt snd)).
    + intros x y Hx Hy (ka & kb & Hka & Hkb & Hlt).
      rewrite sorted_by_perm in Hx, Hy. destruct x as [u ku], y as [w kw].
      destruct (loaded_group_key _ _ _ _ _ _ Hst Hx) as (ka' & Hka' & Hgu & _).
      destruct (loaded_group_key _ _ _ _ _ _ Hst Hy) as (kb' & Hkb' & Hgw & _).
      simpl in *. exists ka, kb. split_and!; [congruence..|done].
    + apply sorted_by_sorted.
      * apply Forall_forall. intros [u ku] Hu.
        destruct (loaded_group_key _ _ _ _ _ _ Hst Hu) as (k0 & Hk0 & _). by exists k0.
      * apply NoDup_fmap_2_strong; [|by eapply NoDup_fmap_1].
        intros [u ku] [w kw] Hu Hw Heq. simpl in Heq.
        destruct (loaded_group_key _ _ _ _ _ _ Hst Hu) as (ka & Hka & _ & Hsu).
        destruct (loaded_group_key _ _ _ _ _ _ Hst Hw) as (kb & Hkb & _ & Hsw).
        assert (ka = kb) as -> by congruence.
        assert (u = w) as -> by congruence.
        f_equal. apply (OD_get_elem _ _ _ Hnd) in Hu, Hw. congruence.
Qed.


Lemma write_loop_is_Ok st items :
  (∀ v, v ∈ items → is_Some (TE_count_valid st !! v) ∧ is_Ok (Rosette.write_item st v)) →
  is_Ok (Rosette.write_loop st items).
Proof.
  induction items as [|item rest IH]; intros Hitems; simpl; [by eexists|].
  destruct (Hitems item) as [[flag Hflag] [lines Hlines]]; [by left|].
  destruct IH as [files Hfiles]; [intros v Hv; apply Hitems; by right|].
  unfold Py.getitem. rewrite Hflag. simpl. destruct flag; [|by eexists].
  rewrite Hlines. simpl. rewrite Hfiles. simpl. by eexists.
Qed.



End written.

(** ** The sample run *)

Lemma lifetime_totals_witness :
  let st := table_of (run sample_calls_si sample_table_si) in
  TE_count_total st !! "LINE1" = Some (counted sample_table_si "LINE1" sample_calls_si) ∧
  (count_sirna sample_table_si = true →
   sirna_count_total st !! "LINE1" = Some (counted_si sample_table_si "LINE1" sample_calls_si)).
Proof.
  intros st.
  destruct (lifetime_totals sample_annotation 2 (Some "counts.txt") 2 (Some "sirna.txt")
              sample_table_si sample_calls_si st) as [Htotals _];
    [by vm_compute | by vm_compute |].
  apply Htotals. apply list_elem_of_In. vm_compute. auto.
Defined.

Lemma purge_then_write_witness :
  let st1 := table_of (Rosette.purge sample_fasta sample_table) in
  (valid st1 "LINE1" ↔ has_header sample_table sample_fasta "LINE1") ∧
  (valid st1 "SINE1" ↔ has_header sample_table sample_fasta "SINE1").
Proof.
  intros st1.
  destruct (purge_then_write sample_table sample_fasta st1) as [Hvalid _];
    [by vm_compute|].
  split; apply Hvalid.
Defined.

Lemma sample_slots_witness :
  let st := table_of (run sample_calls sample_table) in
  current_sample st = resets sample_calls - 1 ∧
  (resets sample_calls = 2 →
     current_sample st + 1 = 2 ∧
     (∀ v counts, TE_count st !! v = Some counts →
        Py.setitem counts (current_sample st + 1) 0 = Raise IndexError) ∧
     (TE_count_variable st ≠ [] → Rosette.reset_count st = Raise IndexError)).
Proof.
  intros st.
  destruct (sample_slots sample_annotation 2 (Some "counts.txt") 2 None
              sample_table sample_calls st) as (_ & _ & Hcs & _ & Hlast & _);
    [lia | by vm_compute | by vm_compute |].
  split; [exact Hcs | exact Hlast].
Defined.

Lemma read_mismatched_rows_witness :
  (let file := ["c1 LINE1 x"; "c2 LINE1 y extra"] in
   ∃ st, Rosette.init file 2 (Some "counts.txt") 2 None = Ok st ∧
     stdout st = [] ++ mismatches 3 0 file) ∧
  (let file := ["c1 LINE1 x"; "c2 LINE1 y extra"; "c2"; "c3 LINE1 z w"] in
   Rosette.init file 2 (Some "counts.txt") 2 None = Raise IndexError ∧
   Rosette.init_console file 2 (Some "counts.txt") 2 None
     = [] ++ mismatches 3 0 ["c1 LINE1 x"; "c2 LINE1 y extra"; "c2"] ∧
   last (Rosette.init_console file 2 (Some "counts.txt") 2 None)
     = Some (Rosette.mismatch_message 3 1)).
Proof.
  split.
  - intros file.
    destruct (read_mismatched_rows file 2 "counts.txt" 2 None) as (Hload & _).
    apply Hload.
    + vm_compute. lia.
    + repeat constructor; vm_compute; lia.
  - intros file.
    destruct (read_mismatched_rows file 2 "counts.txt" 2 None)
      as (_ & _ & _ & _ & _ & _ & Hshort).
    apply (Hshort ["c1 LINE1 x"; "c2 LINE1 y extra"] "c2" ["c3 LINE1 z w"]).
    + reflexivity.
    + vm_compute. lia.
    + repeat constructor; vm_compute; lia.
    + vm_compute. lia.
Defined.


(** The sample run ends with the file the specification expects: one
    line for LINE1 with counts 2 0 2, none for SINE1. *)
Lemma sample_run_output :
  Rosette.write (table_of (run sample_calls sample_table)) = Ok (["LINE1 z 2 0 2
"], None).
Proof. by vm_compute. Qed.


(** ** Resolution and purging never fail on a loaded table *)

Section totality.

Implicit Types (st : Rosette) (rows : list (list string)) (n cc : nat).

Lemma row_keys_variable st n cc keys v row :
  count_column st = Z.of_nat cc →
  row_keys (TE st) n cc keys v row → Rosette.variable_of_keys st keys = Ok v.
Proof.
  intros Hcc (k0 & new & -> & (d & Hd & Hk0)%stored_Some & _).
  unfold Rosette.variable_of_keys. rewrite Hcc, index_nat, Hd. simpl.
  unfold DD.getitem, Py.getitem. by rewrite Hk0.
Qed.

(** An identifier resolves to the grouping value of the last row loaded
    under it. *)
Lemma resolve_loaded st n cc rows identifier :
  loaded st n cc rows →
  resolve st identifier = row ← last_row 0 rows identifier; row !! cc.
Proof.
  intros (_ & Hcc & _ & _ & _ & _ & _ & _ & Hids). specialize (Hids identifier).
  unfold resolve. destruct (TE_identifier st !! identifier) as [keys|]; simpl.
  - destruct Hids as (row & v & -> & Hv & Hkeys). simpl.
    by rewrite (row_keys_variable _ _ _ _ _ _ Hcc Hkeys).
  - by rewrite Hids.
Qed.

Lemma get_count_variable_is_Ok st n cc rows identifier :
  loaded st n cc rows → is_Ok (Rosette.get_count_variable identifier st).
Proof.
  intros (_ & Hcc & _ & _ & _ & _ & _ & _ & Hids). specialize (Hids identifier).
  unfold Rosette.get_count_variable.
  destruct (TE_identifier st !! identifier) as [keys|]; [|by eexists].
  destruct Hids as (row & v & _ & _ & Hkeys).
  rewrite (row_keys_variable _ _ _ _ _ _ Hcc Hkeys). by eexists.
Qed.

Lemma split_go_tok tok raw : tok ≠ [] → Py.split_go tok raw ≠ [].
Proof.
  revert tok. induction raw as [|c raw IH]; intros tok Htok; simpl.
  - by destruct tok.
  - destruct (Py.isspace c); [by destruct tok | by apply IH].
Qed.

Lemma purge_line_is_Ok st n cc rows raw :
  loaded st n cc rows → raw ≠ "" →
  ∃ st', Rosette.purge_line raw st = Ok st' ∧ loaded st' n cc rows.
Proof.
  intros Hst Hraw. destruct raw as [|c rest]; [done|].
  unfold Rosette.purge_line. simpl Py.head.
  change (Ok c ≫= ?f) with (f c). cbv beta.
  case_bool_decide as Hc; [|by exists st].
  subst c.
  destruct (Py.split (String ">" rest)) as [|token tokens] eqn:Hsplit.
  { exfalso. revert Hsplit. unfold Py.split. simpl. by apply split_go_tok. }
  change (Py.index (token :: tokens) 0) with (Ok token : result string).
  change (Ok token ≫= ?f) with (f token). cbv beta.
  destruct (get_count_variable_is_Ok st n cc rows (Py.tail token) Hst) as [r Hr].
  rewrite Hr. simpl.
  apply get_count_variable_Ok in Hr as [(v & _ & ->) | (_ & msg & ->)]; simpl;
    eexists; (split; [done|]); exact Hst.
Qed.

(** [purge] returns on every loaded table and sequence file. *)
Lemma purge_is_Ok st n cc rows fasta :
  loaded st n cc rows → Forall (λ raw, raw ≠ "") fasta →
  is_Ok (Rosette.purge fasta st).
Proof.
  intros Hst Hfasta. unfold Rosette.purge.
  destruct (for_each_is_Ok (λ s, loaded s n cc rows) Rosette.purge_line fasta
              (with_TE_count_valid ((λ _, false) <$> TE_count_valid st) st))
    as (st2 & -> & _).
  - intros raw s1 Hraw Hs1. apply purge_line_is_Ok; [done|].
    by eapply Forall_forall in Hfasta.
  - exact Hst.
  - by eexists.
Qed.

End totality.

(** * Further properties *)

(** ** The slot a call writes *)

Section slots_written.

Implicit Types (st : Rosette) (v : string) (si : bool) (vec : list Z).

Lemma setitem_slot {A} (l l' : list A) (n i : Z) (y : A) :
  length l = Z.to_nat n → Py.setitem l i y = Ok l' →
  l' = <[slot_index n i := y]> l ∧ (slot_index n i < length l)%nat.
Proof.
  intros Hlen. unfold Py.setitem, slot_index.
  destruct ((0 <=? i) && (i <? Z.of_nat (length l))) eqn:H1.
  - apply andb_true_iff in H1 as [?%Z.leb_le ?%Z.ltb_lt].
    assert ((i <? 0) = false) as -> by (apply Z.ltb_ge; lia).
    intros [= <-]. split; [done | lia].
  - destruct ((- Z.of_nat (length l) <=? i) && (i <? 0)) eqn:H2; [|done].
    apply andb_true_iff in H2 as [?%Z.leb_le Hneg]. rewrite Hneg.
    apply Z.ltb_lt in Hneg. intros [= <-].
    replace (Z.of_nat (length l) + i) with (n + i) by lia. split; [done | lia].
Qed.

Lemma index_slot {A} (l : list A) (n i : Z) (x : A) :
  length l = Z.to_nat n → Py.index l i = Ok x → l !! slot_index n i = Some x.
Proof.
  intros Hlen. unfold Py.index, slot_index.
  destruct ((0 <=? i) && (i <? Z.of_nat (length l))) eqn:H1.
  - apply andb_true_iff in H1 as [?%Z.leb_le ?%Z.ltb_lt].
    assert ((i <? 0) = false) as -> by (apply Z.ltb_ge; lia).
    by intros ?%of_option_Ok.
  - destruct ((- Z.of_nat (length l) <=? i) && (i <? 0)) eqn:H2; [|done].
    apply andb_true_iff in H2 as [?%Z.leb_le Hneg]. rewrite Hneg.
    apply Z.ltb_lt in Hneg. intros ?%of_option_Ok.
    by replace (n + i) with (Z.of_nat (length l) + i) by lia.
Qed.

Lemma counts_of_length si st v vec :
  counts_wf st → counts_of si st !! v = Some vec →
  length vec = Z.to_nat (sample_number st).
Proof. intros (_ & Hmain & Hsi). destruct si; [apply Hsi | apply Hmain]. Qed.

(** One round of [reset_count] zeroes the slot under the cursor in the
    vectors of its item, and in no other vector. *)
Lemma reset_slot_counts item st st' si v vec :
  Rosette.reset_slot item st = Ok st' → counts_wf st →
  (si = true → count_sirna st = true) →
  counts_of si st !! v = Some vec →
  counts_of si st' !! v =
    Some (if decide (v = item)
          then <[slot_index (sample_number st) (current_sample st) := 0]> vec else vec).
Proof.
  intros (counts & counts' & Hcounts & Hset & Hcases)%reset_slot_Ok Hwf Hsi Hvec.
  pose proof Hwf as (_ & Hlen & Hlensi).
  apply (setitem_slot _ _ (sample_number st)) in Hset as [-> _]; [|by eapply Hlen].
  destruct Hcases as [[Hno ->] | (_ & sic & sic' & Hsic & Hsiset & ->)].
  - destruct si; [by rewrite Hsi in Hno|]. cbn in *.
    rewrite lookup_insert. destruct (decide (item = v)) as [->|Hne].
    + rewrite decide_True by done. congruence.
    + by rewrite decide_False by congruence.
  - apply (setitem_slot _ _ (sample_number st)) in Hsiset as [-> _]; [|by eapply Hlensi].
    destruct si; cbn in *; rewrite lookup_insert;
      (destruct (decide (item = v)) as [->|Hne];
       [rewrite decide_True by done; congruence | by rewrite decide_False by congruence]).
Qed.

Lemma reset_slots_counts items st st' si v vec :
  for_each Rosette.reset_slot items st = Ok st' → counts_wf st →
  (si = true → count_sirna st = true) →
  counts_of si st !! v = Some vec →
  counts_of si st' !! v =
    Some (if decide (v ∈ items)
          then <[slot_index (sample_number st) (current_sample st) := 0]> vec else vec).
Proof.
  revert st vec. induction items as [|item items IH]; intros st vec.
  - intros [= <-] _ _ ->. rewrite decide_False; [done | apply not_elem_of_nil].
  - intros (st1 & Hslot & Hrest)%for_each_Ok_cons Hwf Hsi Hvec.
    pose proof (reset_slot_counts _ _ _ si v vec Hslot Hwf Hsi Hvec) as Hvec1.
    pose proof (reset_slot_counts_wf _ _ _ Hslot Hwf) as Hwf1.
    apply reset_slot_Ok in Hslot as (? & ? & _ & _ & Hst1).
    assert (sample_number st1 = sample_number st ∧ current_sample st1 = current_sample st
            ∧ count_sirna st1 = count_sirna st) as (Hn & Hcs & Hs).
    { destruct Hst1 as [[_ ->] | (_ & ? & ? & _ & _ & ->)]; done. }
    rewrite (IH _ _ Hrest Hwf1 (λ H, eq_trans Hs (Hsi H)) Hvec1), Hn, Hcs.
    f_equal. destruct (decide (v = item)) as [->|Hne].
    + rewrite (decide_True (P := item ∈ item :: items)) by (by left).
      case_decide; [by rewrite list_insert_insert_eq | done].
    + destruct (decide (v ∈ items)) as [Hin|Hnotin].
      * by rewrite decide_True by (by right).
      * rewrite decide_False; [done|]. by intros [?|?]%elem_of_cons.
Qed.

(** One call: every slot of every grouping variable follows [slot]. *)
Lemma step_slot c st st' si v vec :
  step c st = Ok st' → counts_wf st →
  (si = true → count_sirna st = true) →
  v ∈ OD.keys (TE_count_variable st) →
  counts_of si st !! v = Some vec →
  ∃ vec', counts_of si st' !! v = Some vec' ∧ length vec' = length vec ∧
    ∀ k x, vec !! k = Some x →
      vec' !! k = Some (slot st v si k (current_sample st) [c] x).
Proof.
  intros Hstep Hwf Hsi Hv Hvec.
  pose proof (counts_of_length _ _ _ _ Hwf Hvec) as Hlen.
  destruct c as [|identifier amount|identifier amount|fasta]; simpl in Hstep.
  - unfold Rosette.reset_count in Hstep.
    eapply (reset_slots_counts _ _ _ si v vec) in Hstep;
      [|by destruct Hwf as (? & ? & ?); split_and!|done|done].
    cbn [TE_count_variable with_current_sample sample_number current_sample] in Hstep.
    rewrite decide_True in Hstep by done.
    eexists. split; [done|]. split; [apply length_insert|].
    intros k x Hk. simpl. rewrite list_lookup_insert. case_decide as Hidx.
    + destruct Hidx as [-> _]. by rewrite decide_True.
    + rewrite decide_False; [done|]. intros Heq. apply Hidx. split; [done|].
      rewrite Heq. by eapply lookup_lt_Some.
  - apply count_Ok in Hstep
      as [[Hid ->] | (keys & v0 & counts & old & counts' & total & Hid & Hv0 & Hcounts & Hold
                      & Hset & _ & ->)].
    + exists vec. split; [by destruct si|]. split; [done|]. intros k x Hk.
      simpl. rewrite (resolve_None _ _ Hid).
      destruct si; simpl; case_decide; rewrite ?Z.add_0_r; done || by case_decide.
    + pose proof Hwf as (_ & Hlenmain & _).
      apply (setitem_slot _ _ (sample_number st)) in Hset as [-> Hlt]; [|by eapply Hlenmain].
      apply (index_slot _ (sample_number st)) in Hold; [|by eapply Hlenmain].
      simpl. rewrite (resolve_Some _ _ _ _ Hid Hv0).
      destruct si; cbn.
      * exists vec. split; [done|]. split; [done|]. intros k x Hk.
        case_decide; rewrite ?Z.add_0_r; done.
      * rewrite lookup_insert. destruct (decide (v0 = v)) as [->|Hne].
        -- assert (counts = vec) as -> by (cbn in Hvec; congruence).
           eexists. split; [done|]. split; [apply length_insert|].
           intros k x Hk. rewrite list_lookup_insert.
           rewrite (decide_True (P := Some v = Some v)) by done.
           case_decide as Hidx.
           ++ destruct Hidx as [Heq _]. rewrite decide_True by done.
              rewrite Heq in Hold. congruence.
           ++ rewrite decide_False; [done|]. intros Heq. apply Hidx. by split.
        -- exists vec. split; [done|]. split; [done|]. intros k x Hk.
           rewrite (decide_False (P := Some v0 = Some v)) by congruence.
           case_decide; rewrite ?Z.add_0_r; done.
  - apply count_si_Ok in Hstep
      as [[Hid ->] | (keys & v0 & counts & old & counts' & total & Hs & Hid & Hv0 & Hcounts
                      & Hold & Hset & _ & ->)].
    + exists vec. split; [by destruct si|]. split; [done|]. intros k x Hk.
      simpl. rewrite (resolve_None _ _ Hid).
      destruct si; simpl; case_decide; rewrite ?Z.add_0_r; done || by case_decide.
    + pose proof Hwf as (_ & _ & Hlensi).
      apply (setitem_slot _ _ (sample_number st)) in Hset as [-> Hlt]; [|by eapply Hlensi].
      apply (index_slot _ (sample_number st)) in Hold; [|by eapply Hlensi].
      simpl. rewrite (resolve_Some _ _ _ _ Hid Hv0).
      destruct si; cbn.
      * rewrite lookup_insert. destruct (decide (v0 = v)) as [->|Hne].
        -- assert (counts = vec) as -> by (cbn in Hvec; congruence).
           eexists. split; [done|]. split; [apply length_insert|].
           intros k x Hk. rewrite list_lookup_insert.
           rewrite (decide_True (P := Some v = Some v)) by done.
           case_decide as Hidx.
           ++ destruct Hidx as [Heq _]. rewrite decide_True by done.
              rewrite Heq in Hold. congruence.
           ++ rewrite decide_False; [done|]. intros Heq. apply Hidx. by split.
        -- exists vec. split; [done|]. split; [done|]. intros k x Hk.
           rewrite (decide_False (P := Some v0 = Some v)) by congruence.
           case_decide; rewrite ?Z.add_0_r; done.
      * exists vec. split; [done|]. split; [done|]. intros k x Hk.
        case_decide; rewrite ?Z.add_0_r; done.
  - apply purge_frame in Hstep as (_ & _ & _ & Hmain & Hsirna & _).
    exists vec. split; [destruct si; cbn in *; congruence|]. split; [done|].
    intros k x Hk. simpl. destruct si; case_decide; rewrite ?Z.add_0_r; done.
Qed.

End slots_written.

(** ** The count vectors after a run *)

Section run_slots.

Implicit Types (st : Rosette) (v : string) (si : bool) (vec : list Z).

Lemma step_cursor c st st' :
  step c st = Ok st' → current_sample st' = current_sample st + resets [c].
Proof.
  destruct c as [|identifier amount|identifier amount|fasta]; simpl.
  - intros (_ & _ & -> & _)%reset_count_frame. lia.
  - intros [[_ ->] | (? & ? & ? & ? & ? & ? & _ & _ & _ & _ & _ & _ & ->)]%count_Ok;
      cbn; lia.
  - intros [[_ ->] | (? & ? & ? & ? & ? & ? & _ & _ & _ & _ & _ & _ & _ & ->)]%count_si_Ok;
      cbn; lia.
  - intros (_ & _ & -> & _)%purge_frame. lia.
Qed.

Lemma amount_for_ext st st' v si c :
  same_config st st' → same_annotation st st' →
  amount_for st' v si c = amount_for st v si c.
Proof.
  intros Hcfg Hann. destruct c, si; simpl; rewrite ?(resolve_ext st st') by done; done.
Qed.

Lemma slot_ext st st' v si k cs calls x :
  same_config st st' → same_annotation st st' →
  slot st' v si k cs calls x = slot st v si k cs calls x.
Proof.
  intros Hcfg Hann. pose proof Hcfg as (_ & Hn & _).
  revert cs x. induction calls as [|c calls IH]; intros cs x; [done|].
  destruct c; cbn [slot]; rewrite ?IH, ?Hn, ?(amount_for_ext st st') by done; done.
Qed.

Lemma slot_cons st v si k cs c calls x :
  slot st v si k cs (c :: calls) x
  = slot st v si k (cs + resets [c]) calls (slot st v si k cs [c] x).
Proof.
  destruct c; simpl; rewrite ?Z.add_0_r; try done.
Qed.

Lemma slot_app st v si k cs calls1 calls2 x :
  slot st v si k cs (calls1 ++ calls2) x
  = slot st v si k (cs + resets calls1) calls2 (slot st v si k cs calls1 x).
Proof.
  revert cs x. induction calls1 as [|c calls1 IH]; intros cs x.
  - simpl. by rewrite Z.add_0_r.
  - rewrite <- app_comm_cons, slot_cons, IH, (slot_cons _ _ _ _ _ c calls1).
    f_equal. destruct c; simpl; lia.
Qed.

(** Every slot of the vector of a grouping variable follows [slot]
    through a run. *)
Lemma run_slot calls st st' si v vec :
  run calls st = Ok st' → counts_wf st →
  (si = true → count_sirna st = true) →
  v ∈ OD.keys (TE_count_variable st) →
  counts_of si st !! v = Some vec →
  ∃ vec', counts_of si st' !! v = Some vec' ∧ length vec' = length vec ∧
    ∀ k x, vec !! k = Some x →
      vec' !! k = Some (slot st v si k (current_sample st) calls x).
Proof.
  revert st vec. induction calls as [|c calls IH]; intros st vec.
  - intros [= <-] _ _ _ Hvec. by exists vec.
  - intros (st1 & Hstep & Hrun)%for_each_Ok_cons Hwf Hsi Hv Hvec.
    destruct (step_slot _ _ _ si v vec Hstep Hwf Hsi Hv Hvec) as (vec1 & Hvec1 & Hlen1 & Hslot1).
    destruct (step_frame _ _ _ Hstep) as [Hcfg Hann].
    pose proof Hcfg as (Hs & _). pose proof Hann as (_ & _ & Hvar).
    destruct (IH st1 vec1 Hrun) as (vec' & Hvec' & Hlen' & Hslot'); [| | |done|].
    { by eapply step_counts_wf. }
    { intros H. rewrite Hs. auto. }
    { by rewrite Hvar. }
    exists vec'. split; [done|]. split; [congruence|].
    intros k x Hk. rewrite (Hslot' k _ (Hslot1 k x Hk)).
    rewrite (step_cursor _ _ _ Hstep), (slot_ext st st1) by done.
    by rewrite (slot_cons _ _ _ _ _ c calls).
Qed.

Lemma add_zero_counts line st st' :
  Rosette.add line st = Ok st' → zero_counts st → zero_counts st'.
Proof.
  intros (identifier & item & acc & _ & _ & _ & _ & Hvar & Hcount & _ & _ & Hsic & _
          & (Hsi & Hn & _) & _)%add_Ok Hzero v.
  rewrite Hvar, OD_keys_set, Hcount, Hsic, Hsi, Hn, lookup_insert.
  destruct (decide (item = v)) as [->|Hne].
  - intros _. split; [done|]. intros ->. by rewrite lookup_insert_eq.
  - intros [-> | Hv]; [done|]. destruct (Hzero v Hv) as [Hmain Hsirna].
    split; [done|]. intros Hs. rewrite Hs. rewrite lookup_insert_ne by done. auto.
Qed.

Lemma read_from_zero_counts i file st st' :
  Rosette.read_from i file st = Ok st' → zero_counts st → zero_counts st'.
Proof.
  revert i st. induction file as [|raw rest IH]; intros i st; simpl.
  - by intros [= <-].
  - intros (st1 & Hline & Hrest)%bind_Ok Hzero. eapply IH; [done|].
    unfold Rosette.read_line in Hline. eapply add_zero_counts; [done|].
    case_bool_decide; done.
Qed.

Lemma init_zero_counts file c count_file n sirna_file st :
  Rosette.init file c count_file n sirna_file = Ok st → zero_counts st.
Proof.
  unfold Rosette.init. destruct count_file; [|done].
  intros H%read_from_zero_counts; [done|].
  intros v Hv. cbn in Hv. by apply elem_of_nil in Hv.
Qed.

Lemma init_config file c count_file n sirna_file st :
  Rosette.init file c count_file n sirna_file = Ok st →
  sample_number st = n ∧ current_sample st = -1 ∧
  count_sirna st = bool_decide (is_Some sirna_file) ∧
  count_column st = Z.of_nat (used_column c) ∧
  column_number st = length (Py.split (Rosette.readline file)).
Proof.
  unfold Rosette.init. destruct count_file; [|done]. unfold Rosette.read.
  intros ((Hs & Hn & Hcc & HN) & Hcs & _)%read_from_Ok. cbn in *.
  split_and!; try done. rewrite Hcc. unfold used_column. case_bool_decide; lia.
Qed.

Lemma init_counts_of file c count_file n sirna_file st0 si v :
  Rosette.init file c count_file n sirna_file = Ok st0 →
  (si = true → count_sirna st0 = true) →
  v ∈ OD.keys (TE_count_variable st0) →
  counts_wf st0 ∧ current_sample st0 = -1 ∧
  counts_of si st0 !! v = Some (Py.repeat 0 n).
Proof.
  intros Hinit Hsi Hv.
  destruct (init_counts_wf _ _ _ _ _ _ Hinit) as (Hwf & Hn & Hcs).
  destruct (init_zero_counts _ _ _ _ _ _ Hinit v Hv) as [Hmain Hsirna].
  split_and!; [done | done |].
  rewrite <- Hn. destruct si; [by apply Hsirna, Hsi | done].
Qed.

(** X1. On a table that was loaded, after any calls, slot [k] of the
    count vector of a grouping variable holds what the calls left in
    it: a [reset_count] that moves the cursor to [k] zeroes it, a count
    made while the cursor addresses [k] adds its amount when its
    identifier resolves to the variable, and nothing else changes it.
    Before the first [reset_count] the cursor is -1 and addresses the
    last slot.  The same holds of the small-RNA vectors when they are
    kept. *)
Theorem slot_contents file c count_file n sirna_file st0 calls st si v :
  Rosette.init file c count_file n sirna_file = Ok st0 →
  run calls st0 = Ok st →
  (si = true → count_sirna st0 = true) →
  v ∈ OD.keys (TE_count_variable st0) →
  ∃ vec, counts_of si st !! v = Some vec ∧ length vec = Z.to_nat n ∧
    ∀ k, (k < Z.to_nat n)%nat → vec !! k = Some (slot st0 v si k (-1) calls 0).
Proof.
  intros Hinit Hrun Hsi Hv.
  destruct (init_counts_of _ _ _ _ _ _ si v Hinit Hsi Hv) as (Hwf & Hcs & Hvec).
  destruct (run_slot _ _ _ si v _ Hrun Hwf Hsi Hv Hvec) as (vec & Hvec' & Hlen & Hslot).
  exists vec. rewrite repeat_length in Hlen. split; [done|]. split; [done|].
  intros k Hk. rewrite <- Hcs. apply Hslot. unfold Py.repeat.
  by apply lookup_replicate_2.
Qed.

End run_slots.

(** ** From the sam files to the count matrix *)

Section driver.

Implicit Types (st : Rosette) (self : Count) (v : string) (si sirna : bool).
Implicit Types (sam : list string) (sams : list (list string)).

Lemma run_app calls1 calls2 st : run (calls1 ++ calls2) st = run calls1 st ≫= run calls2.
Proof. apply for_each_app. Qed.

Lemma step_count_sirna c st st' : step c st = Ok st' → count_sirna st' = count_sirna st.
Proof. intros [(? & _) _]%step_frame. done. Qed.

(** The loop of [__count] makes the calls of the lines it counts. *)
Lemma count_lines_run self sam st st' :
  for_each (Count.count_line self) sam st = Ok st' →
  run (omap (line_call self (count_sirna st)) sam) st = Ok st'.
Proof.
  revert st. induction sam as [|raw sam IH]; intros st; [done|].
  intros (st1 & Hline & Hrest)%for_each_Ok_cons.
  unfold Count.count_line, Rosette.sirna in Hline.
  apply bind_Ok in Hline as (r & Hr & Hline).
  cbn [omap list_omap]. unfold line_call at 1. rewrite Hr.
  destruct r as [identifier|identifier|].
  - change (run (?c :: ?l) st) with (step c st ≫= run l). simpl step. rewrite Hline. simpl.
    rewrite <- (step_count_sirna (CountCall identifier 1) st st1 Hline). by apply IH.
  - change (run (?c :: ?l) st) with (step c st ≫= run l). simpl step. rewrite Hline. simpl.
    rewrite <- (step_count_sirna (CountSmallRNA identifier 1) st st1 Hline). by apply IH.
  - injection Hline as <-. by apply IH.
Qed.

Lemma from_sam_run self sam self' :
  Count.from_sam sam self = Ok self' →
  run (sam_calls self (count_sirna (rosette self)) sam) (rosette self) = Ok (rosette self') ∧
  config_sirna_size self' = config_sirna_size self ∧ max_mapq self' = max_mapq self.
Proof.
  unfold Count.from_sam, Count.count. intros (st1 & Hreset & H)%bind_Ok.
  apply bind_Ok in H as (st2 & Hlines & [= <-]). cbn in *. split; [|done].
  unfold sam_calls. change (run (?c :: ?l) ?s) with (step c s ≫= run l).
  simpl step. rewrite Hreset. simpl.
  rewrite <- (step_count_sirna StartSample _ _ Hreset).
  by apply (count_lines_run (mkCount (config_sirna_size self) st1 (max_mapq self))).
Qed.

Lemma line_call_ext self self' sirna raw :
  config_sirna_size self' = config_sirna_size self → max_mapq self' = max_mapq self →
  line_call self' sirna raw = line_call self sirna raw.
Proof. intros Hsize Hmapq. unfold line_call. by rewrite Hsize, Hmapq. Qed.

Lemma sam_calls_ext self self' sirna sam :
  config_sirna_size self' = config_sirna_size self → max_mapq self' = max_mapq self →
  sam_calls self' sirna sam = sam_calls self sirna sam.
Proof.
  intros Hsize Hmapq. unfold sam_calls. f_equal.
  induction sam as [|raw sam IH]; [done|]. cbn [omap list_omap].
  by rewrite (line_call_ext self self'), IH.
Qed.

(** The loop over the samples makes the calls of each sam file in turn. *)
Lemma samples_run sams self self' :
  for_each Count.from_sam sams self = Ok self' →
  run (concat (map (sam_calls self (count_sirna (rosette self))) sams)) (rosette self)
  = Ok (rosette self').
Proof.
  revert self. induction sams as [|sam sams IH]; intros self.
  - by intros [= <-].
  - intros (self1 & (Hsam & Hsize & Hmapq)%from_sam_run & Hrest)%for_each_Ok_cons.
    cbn [map concat]. rewrite run_app, Hsam. simpl.
    destruct (run_frame _ _ _ Hsam) as [(Hs & _) _].
    rewrite <- Hs.
    erewrite map_ext; [by apply IH|]. intros sam'. simpl. symmetry.
    by apply sam_calls_ext.
Qed.

Lemma omap_line_call_counting self sirna sam :
  Forall (λ c, c ≠ StartSample) (omap (line_call self sirna) sam).
Proof.
  induction sam as [|raw sam IH]; [constructor|]. cbn [omap list_omap].
  unfold line_call at 1.
  destruct (Count.classify _ _ _ _) as [[| |]|]; simpl; try done;
    constructor; done.
Qed.

(** Without [reset_count], the calls add to the slot under the cursor
    what they count for the variable. *)
Lemma slot_counting st v si k cs calls x :
  Forall (λ c, c ≠ StartSample) calls →
  slot st v si k cs calls x =
  if decide (slot_index (sample_number st) cs = k)
  then x + (if si then counted_si st v calls else counted st v calls) else x.
Proof.
  intros Hcalls. revert x. induction Hcalls as [|c calls Hc Hcalls IH]; intros x.
  - simpl. destruct si; case_decide; lia.
  - destruct c as [|identifier amount|identifier amount|fasta]; [done|..];
      cbn [slot]; rewrite IH; destruct si; simpl; repeat case_decide; lia.
Qed.

Lemma slot_index_nat n (p : nat) : slot_index n (Z.of_nat p) = p.
Proof.
  unfold slot_index.
  assert ((Z.of_nat p <? 0) = false) as -> by (apply Z.ltb_ge; lia). lia.
Qed.

Lemma resets_sam_calls self sirna sam : resets (sam_calls self sirna sam) = 1.
Proof.
  unfold sam_calls. simpl.
  assert (∀ l, Forall (λ c, c ≠ StartSample) l → resets l = 0) as H0.
  { induction 1 as [|[] ? ? ? ?]; simpl; done. }
  rewrite H0; [done | apply omap_line_call_counting].
Qed.

(** The calls of one sam file zero the slot of the sample and fill it. *)
Lemma slot_sam self sirna st v si k (p : nat) sam x :
  slot st v si k (Z.of_nat p - 1) (sam_calls self sirna sam) x =
  if decide (p = k)
  then (if si then counted_si st v (sam_calls self sirna sam)
        else counted st v (sam_calls self sirna sam))
  else x.
Proof.
  unfold sam_calls. cbn [slot counted counted_si].
  rewrite slot_counting by apply omap_line_call_counting.
  replace (Z.of_nat p - 1 + 1) with (Z.of_nat p) by lia. rewrite slot_index_nat.
  case_decide; [|done]. destruct si; lia.
Qed.

(** Slot [k] after the samples: what sample [k] counts. *)
Lemma slot_samples self sirna st v si k (p : nat) sams x :
  slot st v si k (Z.of_nat p - 1) (concat (map (sam_calls self sirna) sams)) x =
  if decide (k < p)%nat then x
  else match sams !! (k - p)%nat with
       | Some sam => if si then counted_si st v (sam_calls self sirna sam)
                     else counted st v (sam_calls self sirna sam)
       | None => x
       end.
Proof.
  revert p x. induction sams as [|sam sams IH]; intros p x.
  - simpl. by case_decide.
  - cbn [map concat]. rewrite slot_app, resets_sam_calls.
    replace (Z.of_nat p - 1 + 1) with (Z.of_nat (S p) - 1) by lia.
    rewrite IH, slot_sam.
    destruct (decide (k < p)%nat) as [Hlt|Hge].
    + rewrite decide_True by lia. by rewrite decide_False by lia.
    + destruct (decide (p = k)) as [->|Hne].
      * rewrite decide_True by lia. by rewrite Nat.sub_diag.
      * rewrite decide_False by lia.
        replace (k - p)%nat with (S (k - S p)) by lia. done.
Qed.

Lemma counted_app st v calls1 calls2 :
  counted st v (calls1 ++ calls2) = counted st v calls1 + counted st v calls2 ∧
  counted_si st v (calls1 ++ calls2) = counted_si st v calls1 + counted_si st v calls2.
Proof.
  induction calls1 as [|c calls1 [IH1 IH2]]; [done|].
  destruct c; simpl; rewrite ?IH1, ?IH2; split; lia.
Qed.

Lemma counted_samples self sirna st v si sams :
  (if si then counted_si st v (concat (map (sam_calls self sirna) sams))
   else counted st v (concat (map (sam_calls self sirna) sams)))
  = sum_list (map (λ sam, if si then counted_si st v (sam_calls self sirna sam)
                          else counted st v (sam_calls self sirna sam)) sams).
Proof.
  induction sams as [|sam sams IH]; [by destruct si|].
  cbn [map concat sum_list foldr]. fold (sum_list (map
    (λ sam, if si then counted_si st v (sam_calls self sirna sam)
            else counted st v (sam_calls self sirna sam)) sams)).
  rewrite <- IH. destruct (counted_app st v (sam_calls self sirna sam)
    (concat (map (sam_calls self sirna) sams))) as [H1 H2]. by destruct si.
Qed.

(** X2. When the module body has counted every sample, row [v] of the
    count matrix is what each sam file counts for [v], sample by
    sample, and the lifetime total is the sum of the row; with
    small-RNA counts kept, so is the small-RNA matrix. *)
Theorem main_counts fastq sams rosette_file c count_file sirna_file mapq fasta size count :
  Main.count_samples fastq sams rosette_file c count_file sirna_file mapq fasta size = Ok count →
  ∃ st0,
    Rosette.init rosette_file c count_file (Z.of_nat (length sams)) sirna_file = Ok st0 ∧
    ∀ v si, v ∈ OD.keys (TE_count_variable st0) →
      (si = true → count_sirna st0 = true) →
      counts_of si (rosette count) !! v
        = Some (map (hits (mkCount size st0 mapq) st0 v si) sams) ∧
      totals_of si (rosette count) !! v
        = Some (sum_list (map (hits (mkCount size st0 mapq) st0 v si) sams)).
Proof.
  unfold Main.count_samples. intros (n & Hn & H)%bind_Ok.
  assert (n = Z.of_nat (length sams)) as ->.
  { unfold Main.sample_number in Hn. destruct fastq; repeat case_bool_decide; congruence. }
  apply bind_Ok in H as (st0 & Hinit & H).
  apply bind_Ok in H as (count0 & Hcount0 & Hloop).
  exists st0. split; [done|]. intros v si Hv Hsi.
  unfold Count.init in Hcount0. apply bind_Ok in Hcount0 as (st1 & Hpurge & [= <-]).
  apply samples_run in Hloop. cbn [rosette] in Hloop.
  destruct (purge_frame _ _ _ Hpurge) as ((Hs & _) & _).
  rewrite Hs in Hloop.
  set (self := mkCount size st1 mapq) in *.
  set (calls := concat (map (sam_calls self (count_sirna st0)) sams)) in *.
  assert (run (Purge fasta :: calls) st0 = Ok (rosette count)) as Hrun.
  { change (run (?c :: ?l) ?s) with (step c s ≫= run l). simpl step. by rewrite Hpurge. }
  assert (∀ sam, hits (mkCount size st0 mapq) st0 v si sam
                 = if si then counted_si st0 v (sam_calls self (count_sirna st0) sam)
                   else counted st0 v (sam_calls self (count_sirna st0) sam)) as Hhits.
  { intros sam. unfold hits. by rewrite (sam_calls_ext self (mkCount size st0 mapq)). }
  split.
  - destruct (init_counts_of _ _ _ _ _ _ si v Hinit Hsi Hv) as (Hwf & Hcs & Hvec).
    destruct (run_slot _ _ _ si v _ Hrun Hwf Hsi Hv Hvec) as (vec & -> & Hlen & Hslot0).
    rewrite repeat_length in Hlen.
    assert (∀ k, (k < length sams)%nat →
              vec !! k = Some (slot st0 v si k (-1) (Purge fasta :: calls) 0)) as Hslot.
    { intros k Hk. rewrite <- Hcs. apply Hslot0. unfold Py.repeat.
      apply lookup_replicate_2. lia. }
    f_equal. apply list_eq. intros k. rewrite list_lookup_fmap.
    destruct (decide (k < length sams)%nat) as [Hlt|Hge].
    + rewrite Hslot by lia.
      replace (slot st0 v si k (-1) (Purge fasta :: calls) 0)
        with (slot st0 v si k (-1) calls 0)
        by (cbn [slot]; destruct si; simpl; by case_decide).
      change (-1) with (Z.of_nat 0 - 1). unfold calls. rewrite slot_samples.
      rewrite decide_False by lia. rewrite Nat.sub_0_r.
      destruct (lookup_lt_is_Some_2 sams k Hlt) as [sam ->]. simpl. by rewrite Hhits.
    + rewrite !lookup_ge_None_2; [done | lia | lia].
  - destruct (init_zero_totals _ _ _ _ _ _ Hinit v Hv) as [Hmain Hsirna].
    destruct (run_totals _ _ _ Hrun) as [Hmain' Hsirna'].
    erewrite (map_ext _ _ Hhits).
    rewrite <- (counted_samples self (count_sirna st0) st0 v si sams). fold calls.
    destruct si; cbn.
    + by rewrite (Hsirna' v 0 (Hsirna (Hsi eq_refl))).
    + by rewrite (Hmain' v 0 Hmain).
Qed.

End driver.

(** ** Single calls on a table in use *)

Section calls_in_use.

Implicit Types (st : Rosette) (v identifier : string) (rows : list (list string)).

(** A table in use: loaded for at least one sample, then taken through
    some calls. *)
Lemma in_use file c count_file n sirna_file st0 calls st :
  0 < n →
  Rosette.init file c count_file n sirna_file = Ok st0 →
  run calls st0 = Ok st →
  loaded st (length (Py.split (Rosette.readline file))) (used_column c) (map Py.split file) ∧
  counts_wf st ∧ sample_number st = n ∧ count_sirna st = count_sirna st0 ∧
  current_sample st = resets calls - 1 ∧
  (TE_count_variable st ≠ [] → current_sample st < n) ∧
  (∀ identifier, resolve st identifier = resolve st0 identifier) ∧
  TE_count_variable st = TE_count_variable st0.
Proof.
  intros Hpos Hinit Hrun.
  destruct (init_loaded _ _ _ _ _ _ Hinit) as [Hst0 _].
  destruct (init_counts_wf _ _ _ _ _ _ Hinit) as (Hwf0 & Hn0 & Hcs0).
  destruct (run_frame _ _ _ Hrun) as [Hcfg Hann].
  destruct (run_slots _ _ _ Hrun Hwf0) as (Hwf & Hcs & Hlt); [lia | lia |].
  pose proof Hcfg as (Hs & Hn & _). pose proof Hann as (_ & _ & Hvar).
  split_and!.
  - by eapply loaded_ext.
  - done.
  - congruence.
  - done.
  - lia.
  - rewrite Hvar. intros Hne. specialize (Hlt Hne). lia.
  - intros identifier. by apply resolve_ext.
  - done.
Qed.

Lemma last_row_elem cc rows v row :
  last_row cc rows v = Some row → row ∈ rows ∧ row !! cc = Some v.
Proof.
  induction rows as [|r rows IH]; simpl; [done|].
  destruct (last_row cc rows v) as [r'|].
  - intros [= ->]. destruct (IH eq_refl). split; [by right | done].
  - case_decide; [|done]. intros [= ->]. split; [by left | done].
Qed.

Lemma resets_nonneg calls : 0 ≤ resets calls.
Proof. induction calls as [|[] calls IH]; simpl; lia. Qed.

Lemma loaded_identifier st n cc rows identifier :
  loaded st n cc rows →
  match TE_identifier st !! identifier with
  | Some keys => ∃ v, Rosette.variable_of_keys st keys = Ok v ∧
                      v ∈ OD.keys (TE_count_variable st) ∧
                      resolve st identifier = Some v
  | None => resolve st identifier = None
  end.
Proof.
  intros (_ & Hcc & _ & _ & _ & _ & Hkeys & _ & Hids). specialize (Hids identifier).
  destruct (TE_identifier st !! identifier) as [keys|] eqn:Hid.
  - destruct Hids as (row & v & Hrow & Hv & Hrk).
    pose proof (row_keys_variable _ _ _ _ _ _ Hcc Hrk) as Hvar.
    exists v. split; [done|]. split; [|by eapply resolve_Some].
    apply Hkeys. exists row. split; [|done]. by eapply (last_row_elem 0).
  - by apply resolve_None.
Qed.

Lemma index_in_window {A} (l : list A) (n i : Z) :
  length l = Z.to_nat n → - n ≤ i < n → is_Ok (Py.index l i).
Proof.
  intros Hlen Hi. unfold Py.index.
  destruct (decide (0 ≤ i)) as [Hpos|Hneg].
  - assert ((0 <=? i) && (i <? Z.of_nat (length l)) = true) as ->.
    { apply andb_true_iff. split; [apply Z.leb_le | apply Z.ltb_lt]; lia. }
    destruct (lookup_lt_is_Some_2 l (Z.to_nat i)) as [x ->]; [lia|]. by eexists.
  - assert ((0 <=? i) && (i <? Z.of_nat (length l)) = false) as ->.
    { apply andb_false_iff. left. apply Z.leb_gt. lia. }
    assert ((- Z.of_nat (length l) <=? i) && (i <? 0) = true) as ->.
    { apply andb_true_iff. split; [apply Z.leb_le | apply Z.ltb_lt]; lia. }
    destruct (lookup_lt_is_Some_2 l (Z.to_nat (Z.of_nat (length l) + i))) as [x ->]; [lia|].
    by eexists.
Qed.

(** What a count does to a vector and a total kept under [v]. *)
Lemma bump_slot (counts : gmap string (list Z)) (totals : gmap string Z) n cs v amount :
  (∀ v vec, counts !! v = Some vec → length vec = Z.to_nat n) →
  is_Some (counts !! v) → is_Some (totals !! v) → - n ≤ cs < n →
  ∃ vec old total,
    counts !! v = Some vec ∧ vec !! slot_index n cs = Some old ∧ totals !! v = Some total ∧
    Py.getitem counts v = Ok vec ∧ Py.index vec cs = Ok old ∧
    Py.setitem vec cs (old + amount) = Ok (<[slot_index n cs := old + amount]> vec).
Proof.
  intros Hlen [vec Hvec] [total Htotal] Hcs.
  pose proof (Hlen _ _ Hvec) as Hl.
  destruct (index_in_window vec n cs Hl Hcs) as [old Hold].
  destruct (proj2 (setitem_is_Ok vec cs (old + amount))) as [vec' Hset]; [by eexists|].
  destruct (setitem_slot _ _ _ _ _ Hl Hset) as [-> _].
  exists vec, old, total. split_and!; try done.
  - by eapply index_slot.
  - unfold Py.getitem. by rewrite Hvec.
Qed.

Lemma count_known st n cc rows identifier amount v :
  loaded st n cc rows → counts_wf st →
  - sample_number st ≤ current_sample st < sample_number st →
  resolve st identifier = Some v →
  ∃ vec old total,
    TE_count st !! v = Some vec ∧
    vec !! slot_index (sample_number st) (current_sample st) = Some old ∧
    TE_count_total st !! v = Some total ∧
    Rosette.count identifier amount st =
      Ok (with_TE_count_total (<[v := total + amount]> (TE_count_total st))
           (with_TE_count
              (<[v := <[slot_index (sample_number st) (current_sample st) := old + amount]> vec]>
                 (TE_count st)) st)).
Proof.
  intros Hst Hwf Hcs Hres.
  pose proof (loaded_identifier _ _ _ _ identifier Hst) as Hid.
  unfold Rosette.count.
  destruct (TE_identifier st !! identifier) as [keys|]; [|congruence].
  destruct Hid as (v' & Hvar & Hv & Hres'). assert (v' = v) as -> by congruence.
  pose proof Hwf as (Hdom & Hlen & _).
  destruct (Hdom v Hv) as (Hc & Ht & _).
  destruct (bump_slot (TE_count st) (TE_count_total st) _ _ v amount Hlen Hc Ht Hcs)
    as (vec & old & total & Hvec & Hold & Htotal & Hget & Hidx & Hset).
  exists vec, old, total. split_and!; try done.
  rewrite Hvar. simpl. rewrite Hget. simpl. rewrite Hidx. simpl. rewrite Hset. simpl.
  unfold Py.getitem. cbn. by rewrite Htotal.
Qed.

Lemma count_si_known st n cc rows identifier amount v :
  loaded st n cc rows → counts_wf st → count_sirna st = true →
  - sample_number st ≤ current_sample st < sample_number st →
  resolve st identifier = Some v →
  ∃ vec old total,
    sirna_count st !! v = Some vec ∧
    vec !! slot_index (sample_number st) (current_sample st) = Some old ∧
    sirna_count_total st !! v = Some total ∧
    Rosette.count_si identifier amount st =
      Ok (with_sirna_count_total (<[v := total + amount]> (sirna_count_total st))
           (with_sirna_count
              (<[v := <[slot_index (sample_number st) (current_sample st) := old + amount]> vec]>
                 (sirna_count st)) st)).
Proof.
  intros Hst Hwf Hsi Hcs Hres.
  pose proof (loaded_identifier _ _ _ _ identifier Hst) as Hid.
  unfold Rosette.count_si.
  destruct (TE_identifier st !! identifier) as [keys|]; [|congruence].
  destruct Hid as (v' & Hvar & Hv & Hres'). assert (v' = v) as -> by congruence.
  pose proof Hwf as (Hdom & _ & Hlen).
  destruct (Hdom v Hv) as (_ & _ & _ & Hs). destruct (Hs Hsi) as [Hc Ht].
  destruct (bump_slot (sirna_count st) (sirna_count_total st) _ _ v amount Hlen Hc Ht Hcs)
    as (vec & old & total & Hvec & Hold & Htotal & Hget & Hidx & Hset).
  exists vec, old, total. split_and!; try done.
  rewrite Hvar, Hsi. simpl. rewrite Hget. simpl. rewrite Hidx. simpl. rewrite Hset. simpl.
  unfold Py.getitem. cbn. by rewrite Htotal.
Qed.

Lemma count_si_unkept st n cc rows identifier amount v :
  loaded st n cc rows → count_sirna st = false →
  resolve st identifier = Some v →
  Rosette.count_si identifier amount st = Raise AttributeError.
Proof.
  intros Hst Hsi Hres.
  pose proof (loaded_identifier _ _ _ _ identifier Hst) as Hid.
  unfold Rosette.count_si.
  destruct (TE_identifier st !! identifier) as [keys|]; [|congruence].
  destruct Hid as (v' & Hvar & _). by rewrite Hvar, Hsi.
Qed.

Lemma count_unknown st n cc rows identifier amount :
  loaded st n cc rows → resolve st identifier = None →
  Rosette.count identifier amount st =
    Ok (print (identifier +:+ " not found in the Rosette file") st) ∧
  Rosette.count_si identifier amount st =
    Ok (print (identifier +:+ " not found in the Rosette file") st).
Proof.
  intros Hst Hres.
  pose proof (loaded_identifier _ _ _ _ identifier Hst) as Hid.
  unfold Rosette.count, Rosette.count_si.
  destruct (TE_identifier st !! identifier) as [keys|]; [|done].
  destruct Hid as (v' & _ & _ & ?). congruence.
Qed.

(** The cursor of a table in use addresses a slot whenever some
    identifier resolves. *)
Lemma in_use_window st n cc rows identifier v :
  loaded st n cc rows → 0 < sample_number st → -1 ≤ current_sample st →
  (TE_count_variable st ≠ [] → current_sample st < sample_number st) →
  resolve st identifier = Some v →
  - sample_number st ≤ current_sample st < sample_number st.
Proof.
  intros Hst Hpos Hcs Hlt Hres.
  pose proof (loaded_identifier _ _ _ _ identifier Hst) as Hid.
  destruct (TE_identifier st !! identifier) as [keys|]; [|congruence].
  destruct Hid as (v' & _ & Hv & _).
  assert (TE_count_variable st ≠ []) as Hne.
  { intros Heq. rewrite Heq in Hv. by apply elem_of_nil in Hv. }
  specialize (Hlt Hne). lia.
Qed.

(** X3. On a table loaded for at least one sample, [count] never
    raises, whatever came before and whatever the identifier.  An
    identifier no row was loaded under only leaves a message on the
    standard output; for any other, the amount is added to the slot
    under the cursor of the vector of the grouping variable it resolves
    to, and to that variable's lifetime total, and nothing else
    changes. *)
Theorem count_never_raises file c count_file n sirna_file st0 calls st identifier amount :
  0 < n →
  Rosette.init file c count_file n sirna_file = Ok st0 →
  run calls st0 = Ok st →
  match resolve st0 identifier with
  | None =>
      Rosette.count identifier amount st =
        Ok (print (identifier +:+ " not found in the Rosette file") st)
  | Some v =>
      ∃ vec old total,
        TE_count st !! v = Some vec ∧
        vec !! slot_index n (resets calls - 1) = Some old ∧
        TE_count_total st !! v = Some total ∧
        Rosette.count identifier amount st =
          Ok (with_TE_count_total (<[v := total + amount]> (TE_count_total st))
               (with_TE_count
                  (<[v := <[slot_index n (resets calls - 1) := old + amount]> vec]>
                     (TE_count st)) st))
  end.
Proof.
  intros Hpos Hinit Hrun.
  destruct (in_use _ _ _ _ _ _ _ _ Hpos Hinit Hrun)
    as (Hst & Hwf & Hn & Hsi & Hcs & Hlt & Hres & _).
  rewrite <- Hres. destruct (resolve st identifier) as [v|] eqn:Hv.
  - rewrite <- Hn, <- Hcs. eapply count_known; [done.. | | done].
    eapply in_use_window; [done | lia | | by rewrite Hn | done].
    pose proof (resets_nonneg calls). lia.
  - by eapply count_unknown.
Qed.

(** X4. [count_si] on a table loaded for at least one sample: an
    identifier no row was loaded under only leaves a message.  For any
    other, when the table keeps small-RNA counts the amount is added to
    the slot under the cursor of the small-RNA vector and to the
    small-RNA total of the grouping variable; when it keeps none, the
    call raises [AttributeError]. *)
Theorem count_si_cases file c count_file n sirna_file st0 calls st identifier amount :
  0 < n →
  Rosette.init file c count_file n sirna_file = Ok st0 →
  run calls st0 = Ok st →
  match resolve st0 identifier, sirna_file with
  | None, _ =>
      Rosette.count_si identifier amount st =
        Ok (print (identifier +:+ " not found in the Rosette file") st)
  | Some v, None => Rosette.count_si identifier amount st = Raise AttributeError
  | Some v, Some _ =>
      ∃ vec old total,
        sirna_count st !! v = Some vec ∧
        vec !! slot_index n (resets calls - 1) = Some old ∧
        sirna_count_total st !! v = Some total ∧
        Rosette.count_si identifier amount st =
          Ok (with_sirna_count_total (<[v := total + amount]> (sirna_count_total st))
               (with_sirna_count
                  (<[v := <[slot_index n (resets calls - 1) := old + amount]> vec]>
                     (sirna_count st)) st))
  end.
Proof.
  intros Hpos Hinit Hrun.
  destruct (in_use _ _ _ _ _ _ _ _ Hpos Hinit Hrun)
    as (Hst & Hwf & Hn & Hsi & Hcs & Hlt & Hres & _).
  destruct (init_config _ _ _ _ _ _ Hinit) as (_ & _ & Hkept & _).
  rewrite Hkept in Hsi.
  rewrite <- Hres. destruct (resolve st identifier) as [v|] eqn:Hv.
  - destruct sirna_file as [name|].
    + rewrite <- Hn, <- Hcs. eapply count_si_known; [done.. | | done].
      eapply in_use_window; [done | lia | | by rewrite Hn | done].
      pose proof (resets_nonneg calls). lia.
    + by eapply count_si_unkept.
  - destruct sirna_file; by eapply count_unknown.
Qed.

End calls_in_use.

(** ** Starting a sample *)

Section reset_and_load.

Implicit Types (st : Rosette) (v identifier : string) (si : bool).

(** X5. While a sample is left, [reset_count] returns: the cursor
    moves to the next slot, that slot is zeroed in every count vector
    (and in every small-RNA vector when they are kept), and no other
    slot, no lifetime total and no validity flag changes. *)
Theorem reset_count_isolated file c count_file n sirna_file st0 calls st :
  Rosette.init file c count_file n sirna_file = Ok st0 →
  run calls st0 = Ok st →
  resets calls < n →
  ∃ st', Rosette.reset_count st = Ok st' ∧
    current_sample st' = resets calls ∧
    TE_count_total st' = TE_count_total st ∧
    sirna_count_total st' = sirna_count_total st ∧
    TE_count_valid st' = TE_count_valid st ∧
    ∀ v si, v ∈ OD.keys (TE_count_variable st0) → (si = true → count_sirna st0 = true) →
      ∃ vec, counts_of si st !! v = Some vec ∧
             (Z.to_nat (resets calls) < length vec)%nat ∧
             counts_of si st' !! v = Some (<[Z.to_nat (resets calls) := 0]> vec).
Proof.
  intros Hinit Hrun Hleft. pose proof (resets_nonneg calls) as Hres.
  assert (0 < n) as Hpos by lia.
  destruct (in_use _ _ _ _ _ _ _ _ Hpos Hinit Hrun)
    as (Hst & Hwf & Hn & Hsi & Hcs & _ & _ & Hvar).
  destruct (reset_count_in_range st Hwf) as [st' Hreset]; [lia|].
  exists st'. split; [done|].
  destruct (reset_count_frame _ _ Hreset) as (_ & _ & Hcs' & Ht & Hst' & Hv).
  split_and!; [lia | done..|].
  intros v si Hv0 Hsi0. rewrite <- Hvar in Hv0. rewrite <- Hsi in Hsi0.
  pose proof Hwf as (Hdom & _).
  assert (is_Some (counts_of si st !! v)) as [vec Hvec].
  { destruct (Hdom v Hv0) as (Hc & _ & _ & Hs). destruct si; [by apply Hs, Hsi0 | done]. }
  exists vec. split; [done|].
  pose proof (counts_of_length si st v vec Hwf Hvec) as Hlen.
  split; [lia|].
  unfold Rosette.reset_count in Hreset.
  pose proof (reset_slots_counts _ _ _ si v vec Hreset Hwf Hsi0 Hvec) as Hvec'.
  rewrite Hvec'. rewrite decide_True by done. cbn.
  do 2 f_equal. unfold slot_index.
  assert ((current_sample st + 1 <? 0) = false) as -> by (apply Z.ltb_ge; lia).
  f_equal. lia.
Qed.

(** ** Loading *)

(** X6. With a count file, [__init__] returns exactly when the
    annotation file is empty, or the grouping column lies within the
    columns of the first line and every line has at least as many
    columns as the first; in every other case it raises [IndexError],
    in particular when the grouping column lies beyond the first line.
    Without a count file the program exits with status 1. *)
Theorem init_returns file c count_file n sirna_file :
  let N := length (Py.split (Rosette.readline file)) in
  let cc := used_column c in
  (is_Ok (Rosette.init file c (Some count_file) n sirna_file) ↔
     Forall (λ raw, (cc < N)%nat ∧ (N ≤ length (Py.split raw))%nat) file) ∧
  (∀ e, Rosette.init file c (Some count_file) n sirna_file = Raise e → e = IndexError) ∧
  (file ≠ [] → (N ≤ cc)%nat →
     Rosette.init file c (Some count_file) n sirna_file = Raise IndexError) ∧
  Rosette.init file c None n sirna_file = Raise (SystemExit 1).
Proof.
  intros N cc.
  assert (is_Ok (Rosette.init file c (Some count_file) n sirna_file) ↔
     Forall (λ raw, (cc < N)%nat ∧ (N ≤ length (Py.split raw))%nat) file) as Hiff.
  { unfold Rosette.init, Rosette.read. split.
    - intros [st Hst].
      by destruct (read_from_loaded _ _ _ _ _ _ [] (fresh_loaded _ _ _ _) Hst).
    - intros Hall. destruct file as [|raw rest]; [by eexists|].
      pose proof (Forall_inv Hall) as [Hcc _].
      eapply read_from_is_Ok; [apply fresh_loaded | exact Hcc |].
      eapply Forall_impl; [exact Hall|]. by intros ? [_ ?]. }
  assert (∀ e, Rosette.init file c (Some count_file) n sirna_file = Raise e → e = IndexError)
    as Hraise.
  { unfold Rosette.init, Rosette.read. intros e. apply read_from_Raise. }
  split_and!; [done | done | | done].
  intros Hfile Hcc.
  destruct (Rosette.init file c (Some count_file) n sirna_file) as [st|e] eqn:Hinit.
  - exfalso. destruct file as [|raw rest]; [done|].
    assert (Forall (λ raw, (cc < N)%nat ∧ (N ≤ length (Py.split raw))%nat) (raw :: rest))
      as Hall by (apply Hiff; by eexists).
    apply Forall_inv in Hall as [? _]. lia.
  - f_equal. by apply Hraise.
Qed.

Lemma OD_keys_set_see {V} (k : string) (x : V) d :
  OD.keys (OD.set k x d) = see (OD.keys d) k.
Proof.
  unfold OD.keys, see. induction d as [|[k' x'] d IH]; simpl.
  - done.
  - destruct (decide (k = k')) as [->|Hne]; simpl.
    + rewrite decide_True; [done | by left].
    + rewrite IH. case_decide as Hin.
      * rewrite decide_True; [done | by right].
      * rewrite decide_False; [done|]. rewrite elem_of_cons. naive_solver.
Qed.

Lemma add_flagged line st st' : Rosette.add line st = Ok st' → flagged st → flagged st'.
Proof.
  intros (identifier & item & acc & _ & _ & _ & _ & Hvar & _ & _ & Hvalid & _)%add_Ok Hfl v.
  rewrite Hvar, OD_keys_set, Hvalid.
  destruct (decide (item = v)) as [->|Hne].
  - intros _. by rewrite lookup_insert_eq.
  - intros [-> | Hv]; [done|]. rewrite lookup_insert_ne by done. by apply Hfl.
Qed.

(** Loading visits the grouping values row by row. *)
Lemma read_from_keys i file st st' (cc : nat) :
  count_column st = Z.of_nat cc →
  Rosette.read_from i file st = Ok st' →
  OD.keys (TE_count_variable st')
    = foldl see (OD.keys (TE_count_variable st)) (column cc (map Py.split file)) ∧
  (flagged st → flagged st').
Proof.
  revert i st. induction file as [|raw rest IH]; intros i st Hcc; simpl.
  - by intros [= <-].
  - intros (st1 & Hline & Hrest)%bind_Ok.
    unfold Rosette.read_line in Hline.
    set (st0 := if bool_decide (length (Py.split raw) ≠ column_number st)
                then print (Rosette.mismatch_message (S i) (length (Py.split raw))) st
                else st) in *.
    assert (count_column st0 = Z.of_nat cc ∧ TE_count_variable st0 = TE_count_variable st ∧
            (flagged st → flagged st0)) as (Hcc0 & Hvar0 & Hfl0).
    { unfold st0. case_bool_decide; done. }
    pose proof (add_flagged _ _ _ Hline) as Hfl1.
    apply add_Ok in Hline as (identifier & item & acc & _ & Hitem & _ & _ & Hvar & _ & _ & _ & _
                              & _ & (_ & _ & Hcc1 & _) & _).
    rewrite Hcc0, index_nat in Hitem. apply of_option_Ok in Hitem.
    assert (count_column st1 = Z.of_nat cc) as Hcc' by congruence.
    destruct (IH _ _ Hcc' Hrest) as [Hkeys Hfl].
    split; [|by auto].
    rewrite Hkeys, Hvar, OD_keys_set_see, Hvar0.
    unfold column. cbn [omap list_omap]. by rewrite Hitem.
Qed.

Lemma fresh_count_column c n sirna k :
  count_column (Rosette.fresh c n sirna k) = Z.of_nat (used_column c).
Proof. cbn. unfold used_column. case_bool_decide; lia. Qed.

(** X7. Once loaded, the grouping variables of the table are the
    distinct values of the grouping column in the order of their first
    row; each has a count vector of [n] zeros, a lifetime total of zero
    and a set validity flag (and the same small-RNA vector and total
    when they are kept); the cursor is -1 and the table is not purged. *)
Theorem loaded_state file c count_file n sirna_file st :
  Rosette.init file c count_file n sirna_file = Ok st →
  OD.keys (TE_count_variable st) = first_seen (column (used_column c) (map Py.split file)) ∧
  current_sample st = -1 ∧ purged st = false ∧
  ∀ v, v ∈ OD.keys (TE_count_variable st) →
    TE_count st !! v = Some (Py.repeat 0 n) ∧
    TE_count_total st !! v = Some 0 ∧
    TE_count_valid st !! v = Some true ∧
    (is_Some sirna_file →
       sirna_count st !! v = Some (Py.repeat 0 n) ∧ sirna_count_total st !! v = Some 0).
Proof.
  intros Hinit.
  pose proof (init_zero_counts _ _ _ _ _ _ Hinit) as Hzc.
  pose proof (init_zero_totals _ _ _ _ _ _ Hinit) as Hzt.
  destruct (init_config _ _ _ _ _ _ Hinit) as (Hn & Hcs & Hsi & _).
  unfold Rosette.init in Hinit. destruct count_file as [cf|]; [|done].
  unfold Rosette.read in Hinit.
  pose proof (read_from_Ok _ _ _ _ Hinit) as (_ & _ & Hp & _).
  destruct (read_from_keys _ _ _ _ (used_column c)
              (fresh_count_column c n _ _) Hinit) as [Hkeys Hfl].
  split_and!; [done | done | done |].
  intros v Hv. destruct (Hzc v Hv) as [Hc Hsc]. destruct (Hzt v Hv) as [Ht Hst].
  rewrite Hn in Hc, Hsc. split_and!; [done | done | |].
  - apply Hfl; [|done]. intros v' Hv'. cbn in Hv'. by apply elem_of_nil in Hv'.
  - intros Hkept. rewrite Hsi in Hsc, Hst.
    split; [apply Hsc | apply Hst]; by apply bool_decide_eq_true_2.
Qed.

(** X8. On a loaded table, at any point of a run, an identifier
    resolves to the grouping value of the last row of the annotation
    file that starts with it: a later row under the same identifier
    replaces the earlier one.  [get_count_variable] returns that value
    and changes nothing, and for an identifier that starts no row it
    returns [None] and leaves a message on the standard output. *)
Theorem resolve_last_row file c count_file n sirna_file st0 calls st identifier :
  Rosette.init file c count_file n sirna_file = Ok st0 →
  run calls st0 = Ok st →
  let found := row ← last_row 0 (map Py.split file) identifier; row !! used_column c in
  resolve st identifier = found ∧
  Rosette.get_count_variable identifier st =
    Ok (match found with
        | Some v => (Some v, st)
        | None => (None, print (identifier +:+ " copy name not found                   in the Rosette file") st)
        end).
Proof.
  intros Hinit Hrun found.
  destruct (init_loaded _ _ _ _ _ _ Hinit) as [Hst0 _].
  destruct (run_frame _ _ _ Hrun) as [Hcfg Hann].
  pose proof (loaded_ext _ _ _ _ _ Hcfg Hann Hst0) as Hst.
  pose proof (resolve_loaded _ _ _ _ identifier Hst) as Hres.
  fold (used_column c) in Hres. fold found in Hres. split; [done|].
  pose proof (loaded_identifier _ _ _ _ identifier Hst) as Hid.
  unfold Rosette.get_count_variable.
  destruct (TE_identifier st !! identifier) as [keys|].
  - destruct Hid as (v & -> & _ & Hv). simpl. rewrite <- Hres, Hv. done.
  - by rewrite <- Hres, Hid.
Qed.

End reset_and_load.

(** ** Purging a table in use *)

Section purge_again.

Implicit Types (st : Rosette) (v : string) (fasta : list string).

Lemma purge_line_header_ext raw st st1 :
  Rosette.purge_line raw st = Ok st1 →
  ∀ raw', header_variable st1 raw' = header_variable st raw'.
Proof.
  intros Hline%purge_line_Ok raw'. apply header_variable_ext;
    destruct (header_variable st raw); [|destruct Hline as [-> | [msg ->]]| |
      destruct Hline as [-> | [msg ->]]]; subst; by repeat split.
Qed.

(** The flags after the loop of [purge], one by one. *)
Lemma purge_lines_flags fasta st st' v :
  for_each Rosette.purge_line fasta st = Ok st' →
  TE_count_valid st' !! v =
    if decide (has_header st fasta v) then Some true else TE_count_valid st !! v.
Proof.
  revert st. induction fasta as [|raw rest IH]; intros st.
  - intros [= <-]. rewrite decide_False; [done|]. intros H. by apply Exists_nil in H.
  - intros (st1 & Hline & Hrest)%for_each_Ok_cons.
    rewrite (IH _ Hrest).
    pose proof (purge_line_header_ext _ _ _ Hline) as Hext.
    pose proof (has_header_ext st st1 rest v Hext) as Hiff.
    apply purge_line_Ok in Hline.
    assert (has_header st (raw :: rest) v ↔
            header_variable st raw = Some v ∨ has_header st rest v) as Hcons.
    { unfold has_header. by rewrite Exists_cons. }
    destruct (decide (has_header st1 rest v)) as [H1|H1].
    + rewrite decide_True; [done|]. apply Hcons. right. by apply Hiff.
    + destruct (header_variable st raw) as [v0|] eqn:Hraw.
      * subst st1. cbn. destruct (decide (v0 = v)) as [->|Hne].
        -- rewrite lookup_insert_eq. rewrite decide_True; [done|]. apply Hcons. by left.
        -- rewrite lookup_insert_ne by done. rewrite decide_False; [done|].
           rewrite Hcons, <- Hiff. intros [[= ?] | ?]; done.
      * rewrite decide_False.
        -- destruct Hline as [-> | [msg ->]]; done.
        -- rewrite Hcons, <- Hiff. intros [? | ?]; done.
Qed.

Lemma purge_flags fasta st st' v :
  Rosette.purge fasta st = Ok st' →
  TE_count_valid st' !! v =
    if decide (has_header st fasta v) then Some true
    else (λ _, false) <$> TE_count_valid st !! v.
Proof.
  unfold Rosette.purge. intros (st2 & Hloop & [= <-])%bind_Ok.
  cbn [TE_count_valid with_purged].
  rewrite (purge_lines_flags _ _ _ v Hloop).
  assert (∀ raw, header_variable (with_TE_count_valid ((λ _, false) <$> TE_count_valid st) st) raw
                 = header_variable st raw) as Hext.
  { intros raw. apply header_variable_ext; by repeat split. }
  pose proof (has_header_ext _ _ fasta v Hext) as Hiff.
  cbn [TE_count_valid with_TE_count_valid]. rewrite lookup_fmap.
  destruct (decide (has_header st fasta v)) as [H|H].
  - rewrite decide_True; [done | by apply Hiff].
  - rewrite decide_False; [done | by rewrite Hiff].
Qed.

(** X9. [purge] returns on every table in use and every sequence
    file without an empty line.  It changes no count, no total and not
    the cursor; it marks the table purged; it sets the flag of every
    grouping variable that some header of the file resolves to and
    clears every other flag, whatever the flags were before; and
    purging again with the same file changes no flag. *)
Theorem purge_rebuilds_flags file c count_file n sirna_file st0 calls st fasta :
  Rosette.init file c count_file n sirna_file = Ok st0 →
  run calls st0 = Ok st →
  Forall (λ raw, raw ≠ "") fasta →
  ∃ st', Rosette.purge fasta st = Ok st' ∧
    purged st' = true ∧ current_sample st' = current_sample st ∧
    TE_count st' = TE_count st ∧ sirna_count st' = sirna_count st ∧
    TE_count_total st' = TE_count_total st ∧
    sirna_count_total st' = sirna_count_total st ∧
    (∀ v, v ∈ OD.keys (TE_count_variable st0) →
       TE_count_valid st' !! v = Some (bool_decide (has_header st0 fasta v))) ∧
    ∃ st'', Rosette.purge fasta st' = Ok st'' ∧ TE_count_valid st'' = TE_count_valid st'.
Proof.
  intros Hinit Hrun Hfasta.
  destruct (init_loaded _ _ _ _ _ _ Hinit) as [Hst0 _].
  destruct (init_counts_wf _ _ _ _ _ _ Hinit) as (Hwf0 & _).
  destruct (run_frame _ _ _ Hrun) as [Hcfg Hann].
  pose proof (loaded_ext _ _ _ _ _ Hcfg Hann Hst0) as Hst.
  pose proof (run_counts_wf _ _ _ Hrun Hwf0) as Hwf.
  destruct (purge_is_Ok _ _ _ _ fasta Hst Hfasta) as [st' Hpurge].
  exists st'. split; [done|].
  destruct (purge_frame _ _ _ Hpurge) as (Hcfg' & Hann' & Hcs & Hc & Hsc & Ht & Hsct).
  assert (∀ v, has_header st fasta v ↔ has_header st0 fasta v) as Hhead.
  { intros v. apply has_header_ext. intros raw. by apply header_variable_ext. }
  assert (∀ v, has_header st' fasta v ↔ has_header st fasta v) as Hhead'.
  { intros v. apply has_header_ext. intros raw. by apply header_variable_ext. }
  split_and!; try done.
  - unfold Rosette.purge in Hpurge. apply bind_Ok in Hpurge as (st2 & _ & [= <-]). done.
  - intros v Hv. rewrite (purge_flags _ _ _ v Hpurge).
    destruct Hann as (_ & _ & Hvar). rewrite <- Hvar in Hv.
    destruct Hwf as (Hdom & _). destruct (Hdom v Hv) as (_ & _ & [b Hb] & _).
    rewrite Hb. simpl.
    destruct (decide (has_header st fasta v)) as [H|H].
    + by rewrite bool_decide_eq_true_2 by by apply Hhead.
    + by rewrite bool_decide_eq_false_2 by by rewrite <- Hhead.
  - pose proof (loaded_ext _ _ _ _ _ Hcfg' Hann' Hst) as Hst'.
    destruct (purge_is_Ok _ _ _ _ fasta Hst' Hfasta) as [st'' Hagain].
    exists st''. split; [done|]. apply map_eq. intros v.
    rewrite (purge_flags _ _ _ v Hagain), (purge_flags _ _ _ v Hpurge).
    destruct (decide (has_header st fasta v)) as [H|H].
    + rewrite decide_True; [done | by apply Hhead'].
    + rewrite decide_False by by rewrite Hhead'.
      by destruct (TE_count_valid st !! v).
Qed.

End purge_again.

(** ** The sam files as calls, and when the module body returns *)

Section driver_returns.

Implicit Types (st : Rosette) (self : Count) (v : string) (si sirna : bool).
Implicit Types (sam : list string) (sams : list (list string)).

Lemma count_lines_eq self sam st :
  readable self (count_sirna st) sam →
  for_each (Count.count_line self) sam st
  = run (omap (line_call self (count_sirna st)) sam) st.
Proof.
  revert st. induction sam as [|raw sam IH]; intros st; [done|].
  intros Hread. apply Forall_cons in Hread as [[r Hr] Hread].
  cbn [for_each omap list_omap]. unfold Count.count_line, Rosette.sirna, line_call at 1.
  rewrite Hr. simpl.
  destruct r as [identifier|identifier|].
  - change (run (?c :: ?l) st) with (step c st ≫= run l). simpl step.
    destruct (Rosette.count identifier 1 st) as [st1|e] eqn:Hstep; [|done]. simpl.
    pose proof (step_count_sirna (CountCall identifier 1) st st1 Hstep) as Hs.
    rewrite <- Hs. apply IH. by rewrite Hs.
  - change (run (?c :: ?l) st) with (step c st ≫= run l). simpl step.
    destruct (Rosette.count_si identifier 1 st) as [st1|e] eqn:Hstep; [|done]. simpl.
    pose proof (step_count_sirna (CountSmallRNA identifier 1) st st1 Hstep) as Hs.
    rewrite <- Hs. apply IH. by rewrite Hs.
  - by apply IH.
Qed.

Lemma omap_counted_lines self sirna sam :
  omap (line_call self sirna) (filter (λ raw, counted_line self sirna raw) sam)
  = omap (line_call self sirna) sam.
Proof.
  induction sam as [|raw sam IH]; [done|].
  rewrite filter_cons.
  destruct (line_call self sirna raw) as [c|] eqn:Hc.
  - rewrite decide_True by (unfold counted_line; by rewrite Hc).
    cbn [omap list_omap]. by rewrite Hc, IH.
  - rewrite decide_False by (unfold counted_line; rewrite Hc; exact id).
    cbn [omap list_omap]. by rewrite Hc.
Qed.

Lemma from_sam_eq self sam :
  readable self (count_sirna (rosette self)) sam →
  Count.from_sam sam self =
    st ← run (sam_calls self (count_sirna (rosette self)) sam) (rosette self);
    Ok (mkCount (config_sirna_size self) st (max_mapq self)).
Proof.
  intros Hread. unfold Count.from_sam, Count.count, sam_calls.
  change (run (?c :: ?l) ?s) with (step c s ≫= run l). simpl step.
  destruct (Rosette.reset_count (rosette self)) as [st1|e] eqn:Hreset; [|done]. simpl.
  pose proof (step_count_sirna StartSample _ _ Hreset) as Hs.
  rewrite (count_lines_eq (mkCount (config_sirna_size self) st1 (max_mapq self))).
  - by rewrite Hs.
  - by rewrite Hs.
Qed.

(** X10. [from_sam] on a sam file whose lines can all be read does to
    the table what [reset_count] followed by one call for each counted
    line does, in the order of the file: [count] with amount 1, or
    [count_si] with amount 1, on the reference name of the line.  The
    lines [__count] passes on -- headers, lines of at most four fields,
    unmapped reads and reads above the quality bound -- leave no trace:
    dropping them from the file changes nothing. *)
Theorem from_sam_calls self sam :
  readable self (count_sirna (rosette self)) sam →
  Count.from_sam sam self =
    (st ← run (sam_calls self (count_sirna (rosette self)) sam) (rosette self);
     Ok (mkCount (config_sirna_size self) st (max_mapq self))) ∧
  Count.from_sam (filter (λ raw, counted_line self (count_sirna (rosette self)) raw) sam) self
  = Count.from_sam sam self.
Proof.
  intros Hread. split; [by apply from_sam_eq|].
  rewrite !from_sam_eq; [|done|].
  - unfold sam_calls. by rewrite omap_counted_lines.
  - unfold readable in *. rewrite Forall_forall in Hread |- *.
    intros raw [_ Hraw]%list_elem_of_filter. by apply Hread.
Qed.

Lemma classify_no_si max_mapq size raw r identifier :
  Count.classify false max_mapq size raw = Ok r → r ≠ ToCountSi identifier.
Proof.
  unfold Count.classify. intros H ->.
  apply bind_Ok in H as (c & _ & H). case_bool_decide; [|done].
  case_bool_decide; [|done].
  apply bind_Ok in H as (name & _ & H). apply bind_Ok in H as (c2 & _ & H).
  case_bool_decide; [|done].
  apply bind_Ok in H as (field & _ & H). apply bind_Ok in H as (mapq & _ & H).
  case_bool_decide; done.
Qed.

(** What a call that returns keeps of a table in use. *)
Lemma step_ready c st st' N cc rows :
  step c st = Ok st' → loaded st N cc rows → counts_wf st →
  loaded st' N cc rows ∧ counts_wf st' ∧
  current_sample st' = current_sample st + resets [c] ∧
  sample_number st' = sample_number st ∧ count_sirna st' = count_sirna st.
Proof.
  intros Hstep Hst Hwf.
  destruct (step_frame _ _ _ Hstep) as [Hcfg Hann].
  pose proof Hcfg as (Hs & Hn & _).
  split_and!; [by eapply loaded_ext | by eapply step_counts_wf | by apply step_cursor | done..].
Qed.

Lemma count_line_ready self raw st N cc rows :
  loaded st N cc rows → counts_wf st →
  0 ≤ current_sample st < sample_number st →
  is_Ok (Count.classify (count_sirna st) (max_mapq self) (config_sirna_size self) raw) →
  ∃ st', Count.count_line self raw st = Ok st' ∧
    loaded st' N cc rows ∧ counts_wf st' ∧
    current_sample st' = current_sample st ∧
    sample_number st' = sample_number st ∧ count_sirna st' = count_sirna st.
Proof.
  intros Hst Hwf Hcs [r Hr]. unfold Count.count_line, Rosette.sirna. rewrite Hr. simpl.
  assert (∀ c, resets [c] = 0 → is_Ok (step c st) →
            ∃ st', step c st = Ok st' ∧ loaded st' N cc rows ∧ counts_wf st' ∧
              current_sample st' = current_sample st ∧
              sample_number st' = sample_number st ∧ count_sirna st' = count_sirna st) as Hcall.
  { intros c Hc [st' Hstep]. exists st'. split; [done|].
    destruct (step_ready _ _ _ _ _ _ Hstep Hst Hwf) as (? & ? & Hcs' & ? & ?).
    split_and!; try done. lia. }
  destruct r as [identifier|identifier|].
  - apply (Hcall (CountCall identifier 1)); [done|]. simpl.
    destruct (resolve st identifier) as [v|] eqn:Hv.
    + destruct (count_known st N cc rows identifier 1 v Hst Hwf ltac:(lia) Hv)
        as (vec & old & total & _ & _ & _ & ->). by eexists.
    + destruct (count_unknown st N cc rows identifier 1 Hst Hv) as [-> _]. by eexists.
  - apply (Hcall (CountSmallRNA identifier 1)); [done|]. simpl.
    destruct (resolve st identifier) as [v|] eqn:Hv.
    + destruct (count_sirna st) eqn:Hsi.
      * destruct (count_si_known st N cc rows identifier 1 v Hst Hwf Hsi ltac:(lia) Hv)
          as (vec & old & total & _ & _ & _ & ->). by eexists.
      * by apply classify_no_si with (identifier := identifier) in Hr.
    + destruct (count_unknown st N cc rows identifier 1 Hst Hv) as [_ ->]. by eexists.
  - exists st. by split_and!.
Qed.

Lemma from_sam_ready self sam N cc rows :
  loaded (rosette self) N cc rows → counts_wf (rosette self) →
  0 ≤ current_sample (rosette self) + 1 < sample_number (rosette self) →
  readable self (count_sirna (rosette self)) sam →
  ∃ self', Count.from_sam sam self = Ok self' ∧
    loaded (rosette self') N cc rows ∧ counts_wf (rosette self') ∧
    current_sample (rosette self') = current_sample (rosette self) + 1 ∧
    sample_number (rosette self') = sample_number (rosette self) ∧
    count_sirna (rosette self') = count_sirna (rosette self) ∧
    config_sirna_size self' = config_sirna_size self ∧ max_mapq self' = max_mapq self.
Proof.
  intros Hst Hwf Hcs Hread. unfold Count.from_sam, Count.count.
  destruct (reset_count_in_range _ Hwf Hcs) as [st1 Hreset]. rewrite Hreset. simpl.
  destruct (step_ready StartSample _ _ _ _ _ Hreset Hst Hwf) as (Hst1 & Hwf1 & Hcs1 & Hn1 & Hs1).
  simpl in Hcs1.
  destruct (for_each_is_Ok
    (λ s, loaded s N cc rows ∧ counts_wf s ∧ current_sample s = current_sample st1 ∧
          sample_number s = sample_number st1 ∧ count_sirna s = count_sirna st1)
    (Count.count_line (mkCount (config_sirna_size self) st1 (max_mapq self))) sam st1)
    as (st2 & -> & Hst2 & Hwf2 & Hcs2 & Hn2 & Hs2).
  - intros raw s Hraw (Hs & Hwfs & Hcss & Hns & Hss).
    destruct (count_line_ready (mkCount (config_sirna_size self) st1 (max_mapq self))
                raw s N cc rows Hs Hwfs) as (s' & Hline & ? & ? & ? & ? & ?).
    + lia.
    + unfold readable in Hread. rewrite Forall_forall in Hread.
      rewrite Hss, Hs1. by apply Hread.
    + exists s'. split; [done|]. split_and!; congruence.
  - by split_and!.
  - simpl. eexists. split; [done|]. cbn. split_and!; try done; lia || congruence.
Qed.

Lemma samples_ready sams self N cc rows :
  loaded (rosette self) N cc rows → counts_wf (rosette self) →
  -1 ≤ current_sample (rosette self) →
  current_sample (rosette self) + Z.of_nat (length sams) < sample_number (rosette self) →
  Forall (readable self (count_sirna (rosette self))) sams →
  is_Ok (for_each Count.from_sam sams self).
Proof.
  revert self. induction sams as [|sam sams IH]; intros self Hst Hwf Hcs Hn Hread.
  - by eexists.
  - apply Forall_cons in Hread as [Hsam Hread]. cbn [length] in Hn.
    destruct (from_sam_ready self sam N cc rows Hst Hwf ltac:(lia) Hsam)
      as (self1 & Hfrom & Hst1 & Hwf1 & Hcs1 & Hn1 & Hs1 & Hsize & Hmapq).
    cbn [for_each]. rewrite Hfrom. simpl. apply IH; try done; [lia | lia |].
    rewrite Hs1. eapply Forall_impl; [exact Hread|]. intros sam'.
    unfold readable. by rewrite Hsize, Hmapq.
Qed.

(** [write] returns on every table in use that is grouped on its
    second column. *)
Lemma write_is_Ok st n rows :
  loaded st n 1 rows → counts_wf st → is_Ok (Rosette.write st).
Proof.
  intros Hst Hwf.
  destruct (sorted_items_loaded _ _ _ _ Hst) as [Hperm _].
  destruct (write_loop_is_Ok st (Rosette.sorted_items st)) as [files Hfiles].
  - intros v Hv. rewrite Hperm in Hv. pose proof Hwf as (Hdom & _).
    destruct (Hdom v Hv) as ([counts Hcounts] & [total Htotal] & Hvalid & Hsi).
    split; [done|]. apply OD_get_keys in Hv as [keys Hkeys].
    destruct (write_item_loaded st _ _ v keys Hst Hkeys counts total Hcounts Htotal Hsi)
      as (l & Hl & _). by exists l.
  - unfold Rosette.write. rewrite Hfiles. simpl. by eexists.
Qed.

(** X11. Whenever there is at least one sam file and no more fastq
    files than sam files, the annotation file loads, the sequence file
    has no empty line and every line of every sam file can be read, the
    module body counts every sample: no [reset_count], [count] or
    [count_si] it makes can fail.  When moreover the table is grouped
    on its second column, the final [write] returns too, and so does
    the module body. *)
Theorem main_returns fastq sams rosette_file c count_file sirna_file mapq fasta size st0 :
  sams ≠ [] →
  (∀ f, fastq = Some f → (f ≤ length sams)%nat) →
  Rosette.init rosette_file c count_file (Z.of_nat (length sams)) sirna_file = Ok st0 →
  Forall (λ raw, raw ≠ "") fasta →
  Forall (readable (mkCount size st0 mapq) (count_sirna st0)) sams →
  is_Ok (Main.count_samples fastq sams rosette_file c count_file sirna_file mapq fasta size) ∧
  (c ≤ 2 →
   is_Ok (Main.main fastq sams rosette_file c count_file sirna_file mapq fasta size)).
Proof.
  intros Hsams Hfastq Hinit Hfasta Hread.
  destruct (init_loaded _ _ _ _ _ _ Hinit) as [Hst0 _].
  destruct (init_counts_wf _ _ _ _ _ _ Hinit) as (Hwf0 & Hn0 & Hcs0).
  destruct (purge_is_Ok _ _ _ _ fasta Hst0 Hfasta) as [st1 Hpurge].
  destruct (step_ready (Purge fasta) _ _ _ _ _ Hpurge Hst0 Hwf0) as (Hst1 & Hwf1 & Hcs1 & Hn1 & Hs1).
  simpl in Hcs1.
  destruct (samples_ready sams (mkCount size st1 mapq) _ _ _ Hst1 Hwf1) as [count Hcount];
    cbn [rosette]; [lia | lia | |].
  { rewrite Hs1. eapply Forall_impl; [exact Hread|]. intros sam. done. }
  assert (Main.count_samples fastq sams rosette_file c count_file sirna_file mapq fasta size
          = Ok count) as Hcounted.
  { unfold Main.count_samples.
    assert (Main.sample_number fastq (Some (length sams)) = Ok (Z.of_nat (length sams))) as ->.
    { unfold Main.sample_number. destruct sams; [done|]. destruct fastq as [f|].
      - specialize (Hfastq f eq_refl). rewrite bool_decide_eq_false_2 by lia.
        by rewrite bool_decide_eq_false_2.
      - by rewrite bool_decide_eq_false_2. }
    simpl. rewrite Hinit. simpl. unfold Count.init. rewrite Hpurge. simpl. exact Hcount. }
  split; [by eexists|].
  intros Hc. unfold Main.main. rewrite Hcounted. simpl.
  apply samples_run in Hcount. cbn [rosette] in Hcount.
  destruct (run_frame _ _ _ Hcount) as [Hcfg Hann].
  pose proof (loaded_ext _ _ _ _ _ Hcfg Hann Hst1) as Hst.
  pose proof (run_counts_wf _ _ _ Hcount Hwf1) as Hwf.
  replace (Z.to_nat (if bool_decide (c - 1 ≤ 0) then 1 else c - 1)) with 1%nat in Hst
    by (case_bool_decide; lia).
  destruct (write_is_Ok _ _ _ Hst Hwf) as [files Hfiles].
  unfold Count.write. rewrite Hfiles. by eexists.
Qed.

End driver_returns.

(** ** Lookups in an interning table *)

Section lookups.

(** X12. In an interning table built by [add] calls, lookup by key
    and lookup by value are inverse to each other; [in] holds of the
    values added and of no other; a key below [len] is found, a key
    from [len] on raises [KeyError], and so does a value never added. *)
Theorem double_dict_lookups items :
  let d := (DD.add_all items DD.empty).2 in
  (∀ k v, DD.getitem d k = Ok v ↔ DD.getitem_item d v = Ok k) ∧
  (∀ v, DD.contains d v = true ↔ v ∈ items) ∧
  (∀ k, (k < DD.len d)%nat ↔ is_Ok (DD.getitem d k)) ∧
  (∀ k, (DD.len d ≤ k)%nat → DD.getitem d k = Raise KeyError) ∧
  (∀ v, v ∉ items → DD.getitem_item d v = Raise KeyError).
Proof.
  intros d.
  destruct (dd_add_all_holds items DD.empty [] dd_holds_empty) as [Hd _].
  fold (first_seen items) in Hd. fold d in Hd.
  pose proof (dd_holds_len _ _ Hd) as Hlen.
  pose proof (λ k, dd_holds_forward _ _ k Hd) as Hfwd.
  destruct Hd as (Hnd & _ & Hrev).
  assert (∀ v, v ∈ first_seen items ↔ v ∈ items) as Hmem.
  { intros v. unfold first_seen. rewrite foldl_see_elem_of, elem_of_nil. naive_solver. }
  unfold DD.getitem, DD.getitem_item, DD.contains, Py.getitem.
  split_and!.
  - intros k v. rewrite !of_option_Ok, Hfwd. symmetry. apply Hrev.
  - intros v. rewrite bool_decide_eq_true, <- Hmem, list_elem_of_lookup.
    split; intros [k Hk]; exists k; by apply Hrev.
  - intros k. rewrite Hlen, Hfwd. split.
    + intros [v ->]%lookup_lt_is_Some_2. by eexists.
    + intros [v Hv%of_option_Ok]. by eapply lookup_lt_Some.
  - intros k Hk. rewrite Hfwd, lookup_ge_None_2; [done | lia].
  - intros v Hv. destruct (reverse_dict d !! v) as [k|] eqn:Hk; [|done].
    exfalso. apply Hv, Hmem. apply Hrev in Hk. by eapply list_elem_of_lookup_2.
Qed.

End lookups.

(** ** An annotation file without rows *)

Section no_rows.

Implicit Types (st : Rosette) (calls : list call).

Lemma step_no_rows c st N cc :
  loaded st N cc [] →
  match c with Purge fasta => Forall (λ raw, raw ≠ "") fasta | _ => True end →
  ∃ st', step c st = Ok st' ∧ loaded st' N cc [].
Proof.
  intros Hst Hc.
  assert (TE_count_variable st = []) as Hvar.
  { destruct Hst as (_ & _ & _ & _ & _ & _ & Hkeys & _).
    destruct (TE_count_variable st) as [|[v keys] rest]; [done|].
    destruct (proj1 (Hkeys v)) as (row & []%elem_of_nil & _). by left. }
  assert (is_Ok (step c st)) as [st' Hstep].
  { destruct c as [|identifier amount|identifier amount|fasta]; simpl.
    - unfold Rosette.reset_count. cbn. rewrite Hvar. by eexists.
    - destruct (count_unknown st N cc [] identifier amount Hst) as [-> _]; [|by eexists].
      by rewrite (resolve_loaded _ _ _ _ identifier Hst).
    - destruct (count_unknown st N cc [] identifier amount Hst) as [_ ->]; [|by eexists].
      by rewrite (resolve_loaded _ _ _ _ identifier Hst).
    - by eapply purge_is_Ok. }
  exists st'. split; [done|].
  destruct (step_frame _ _ _ Hstep) as [Hcfg Hann]. by eapply loaded_ext.
Qed.

(** X13. An annotation file without rows loads into a table without
    grouping variables.  On it every call returns -- [reset_count]
    however often it is called, [count] and [count_si] for every
    identifier, [purge] for every sequence file without an empty line --
    and [write] writes no line. *)
Theorem no_rows_table c count_file n sirna_file calls :
  Forall (λ c, match c with
               | Purge fasta => Forall (λ raw, raw ≠ "") fasta
               | _ => True
               end) calls →
  ∃ st0 st,
    Rosette.init [] c (Some count_file) n sirna_file = Ok st0 ∧
    run calls st0 = Ok st ∧
    TE_count_variable st = [] ∧
    current_sample st = resets calls - 1 ∧
    Rosette.write st = Ok ([], if bool_decide (is_Some sirna_file) then Some [] else None).
Proof.
  intros Hcalls.
  assert (is_Ok (Rosette.init [] c (Some count_file) n sirna_file)) as [st0 Hinit]
    by by eexists.
  destruct (init_loaded _ _ _ _ _ _ Hinit) as [Hst0 _]. simpl map in Hst0.
  destruct (init_config _ _ _ _ _ _ Hinit) as (_ & Hcs0 & Hsi0 & _).
  destruct (for_each_is_Ok (λ s, loaded s (length (Py.split (Rosette.readline [])))
                               (used_column c) []) step calls st0) as (st & Hrun & Hst).
  { intros call s Hcall Hs. apply step_no_rows; [done|].
    rewrite Forall_forall in Hcalls. by apply Hcalls. }
  { exact Hst0. }
  exists st0, st. split; [done|]. split; [done|].
  assert (TE_count_variable st = []) as Hvar.
  { destruct Hst as (_ & _ & _ & _ & _ & _ & Hkeys & _).
    destruct (TE_count_variable st) as [|[v keys] rest]; [done|].
    destruct (proj1 (Hkeys v)) as (row & []%elem_of_nil & _). by left. }
  destruct (run_frame _ _ _ Hrun) as [(Hs & _) _].
  split_and!; [done | |].
  - assert (∀ calls' s s', run calls' s = Ok s' →
              current_sample s' = current_sample s + resets calls') as Hcursor.
    { clear. induction calls' as [|call calls' IH]; intros s s'.
      - intros [= <-]. simpl. lia.
      - intros (s1 & Hstep%step_cursor & Hrest%IH)%for_each_Ok_cons.
        rewrite Hrest, Hstep. destruct call; simpl; lia. }
    rewrite (Hcursor _ _ _ Hrun). lia.
  - unfold Rosette.write, Rosette.sorted_items. rewrite Hvar. cbn. by rewrite Hs, Hsi0.
Qed.

End no_rows.

(** ** The sample run, continued *)

Lemma slot_contents_witness :
  ∃ vec, counts_of false (table_of (run sample_calls sample_table)) !! "LINE1" = Some vec ∧
    length vec = Z.to_nat 2 ∧
    ∀ k, (k < Z.to_nat 2)%nat →
      vec !! k = Some (slot sample_table "LINE1" false k (-1) sample_calls 0).
Proof.
  apply (slot_contents sample_annotation 2 (Some "counts.txt") 2 None
           sample_table sample_calls);
    [by vm_compute | by vm_compute | done |].
  apply list_elem_of_In. vm_compute. auto.
Defined.

Lemma main_counts_witness :
  ∃ st0,
    Rosette.init sample_annotation 2 (Some "counts.txt")
                 (Z.of_nat (length sample_sams)) None = Ok st0 ∧
    ∀ v si, v ∈ OD.keys (TE_count_variable st0) →
      (si = true → count_sirna st0 = true) →
      counts_of si (rosette (count_of sample_counted)) !! v
        = Some (map (hits (mkCount "4" st0 10) st0 v si) sample_sams) ∧
      totals_of si (rosette (count_of sample_counted)) !! v
        = Some (sum_list (map (hits (mkCount "4" st0 10) st0 v si) sample_sams)).
Proof.
  apply (main_counts None sample_sams sample_annotation 2 (Some "counts.txt") None 10
           sample_fasta "4" (count_of sample_counted)).
  by vm_compute.
Defined.

Lemma count_never_raises_witness :
  let st := table_of (run sample_calls sample_table) in
  ∃ vec old total,
    TE_count st !! "LINE1" = Some vec ∧
    vec !! slot_index 2 (resets sample_calls - 1) = Some old ∧
    TE_count_total st !! "LINE1" = Some total ∧
    Rosette.count "c1" 1 st =
      Ok (with_TE_count_total (<["LINE1" := total + 1]> (TE_count_total st))
           (with_TE_count
              (<["LINE1" := <[slot_index 2 (resets sample_calls - 1) := old + 1]> vec]>
                 (TE_count st)) st)).
Proof.
  intros st.
  assert (0 < 2) as Hpos by lia.
  assert (Rosette.init sample_annotation 2 (Some "counts.txt") 2 None = Ok sample_table)
    as Hinit by by vm_compute.
  assert (run sample_calls sample_table = Ok st) as Hrun by by vm_compute.
  pose proof (count_never_raises sample_annotation 2 (Some "counts.txt") 2 None
                sample_table sample_calls st "c1" 1 Hpos Hinit Hrun) as H.
  assert (resolve sample_table "c1" = Some "LINE1") as Hr by by vm_compute.
  rewrite Hr in H. exact H.
Defined.

Lemma count_si_cases_witness :
  Rosette.count_si "c1" 1 (table_of (run sample_calls sample_table)) = Raise AttributeError.
Proof.
  assert (0 < 2) as Hpos by lia.
  assert (Rosette.init sample_annotation 2 (Some "counts.txt") 2 None = Ok sample_table)
    as Hinit by by vm_compute.
  assert (run sample_calls sample_table = Ok (table_of (run sample_calls sample_table)))
    as Hrun by by vm_compute.
  pose proof (count_si_cases sample_annotation 2 (Some "counts.txt") 2 None
                sample_table sample_calls _ "c1" 1 Hpos Hinit Hrun) as H.
  assert (resolve sample_table "c1" = Some "LINE1") as Hr by by vm_compute.
  rewrite Hr in H. exact H.
Defined.

Lemma reset_count_isolated_witness :
  let st := table_of (run sample_first_calls sample_table) in
  ∃ st', Rosette.reset_count st = Ok st' ∧
    current_sample st' = resets sample_first_calls ∧
    TE_count_total st' = TE_count_total st ∧
    sirna_count_total st' = sirna_count_total st ∧
    TE_count_valid st' = TE_count_valid st ∧
    ∀ v si, v ∈ OD.keys (TE_count_variable sample_table) →
      (si = true → count_sirna sample_table = true) →
      ∃ vec, counts_of si st !! v = Some vec ∧
             (Z.to_nat (resets sample_first_calls) < length vec)%nat ∧
             counts_of si st' !! v = Some (<[Z.to_nat (resets sample_first_calls) := 0]> vec).
Proof.
  intros st.
  apply (reset_count_isolated sample_annotation 2 (Some "counts.txt") 2 None
           sample_table sample_first_calls st);
    [by vm_compute | by vm_compute | vm_compute; done].
Defined.

Lemma init_returns_witness :
  is_Ok (Rosette.init sample_annotation 2 (Some "counts.txt") 2 None) ∧
  Rosette.init sample_annotation 9 (Some "counts.txt") 2 None = Raise IndexError.
Proof.
  split.
  - destruct (init_returns sample_annotation 2 "counts.txt" 2 None) as (Hiff & _).
    apply Hiff. repeat constructor; vm_compute; lia.
  - destruct (init_returns sample_annotation 9 "counts.txt" 2 None) as (_ & _ & Hbeyond & _).
    apply Hbeyond; [done | vm_compute; lia].
Defined.

Lemma loaded_state_witness :
  OD.keys (TE_count_variable sample_table_si)
    = first_seen (column (used_column 2) (map Py.split sample_annotation)) ∧
  current_sample sample_table_si = -1 ∧ purged sample_table_si = false ∧
  ∀ v, v ∈ OD.keys (TE_count_variable sample_table_si) →
    TE_count sample_table_si !! v = Some (Py.repeat 0 2) ∧
    TE_count_total sample_table_si !! v = Some 0 ∧
    TE_count_valid sample_table_si !! v = Some true ∧
    (is_Some (Some "sirna.txt") →
       sirna_count sample_table_si !! v = Some (Py.repeat 0 2) ∧
       sirna_count_total sample_table_si !! v = Some 0).
Proof.
  apply (loaded_state sample_annotation 2 (Some "counts.txt") 2 (Some "sirna.txt")).
  by vm_compute.
Defined.

Lemma resolve_last_row_witness :
  let st := table_of (run sample_calls sample_table) in
  let found := row ← last_row 0 (map Py.split sample_annotation) "c2"; row !! used_column 2 in
  resolve st "c2" = found ∧
  Rosette.get_count_variable "c2" st =
    Ok (match found with
        | Some v => (Some v, st)
        | None => (None, print ("c2" +:+ " copy name not found                   in the Rosette file") st)
        end).
Proof.
  intros st.
  apply (resolve_last_row sample_annotation 2 (Some "counts.txt") 2 None
           sample_table sample_calls st "c2"); by vm_compute.
Defined.

Lemma purge_rebuilds_flags_witness :
  let st := table_of (run sample_calls sample_table) in
  ∃ st', Rosette.purge sample_fasta st = Ok st' ∧
    purged st' = true ∧ current_sample st' = current_sample st ∧
    TE_count st' = TE_count st ∧ sirna_count st' = sirna_count st ∧
    TE_count_total st' = TE_count_total st ∧
    sirna_count_total st' = sirna_count_total st ∧
    (∀ v, v ∈ OD.keys (TE_count_variable sample_table) →
       TE_count_valid st' !! v = Some (bool_decide (has_header sample_table sample_fasta v))) ∧
    ∃ st'', Rosette.purge sample_fasta st' = Ok st'' ∧ TE_count_valid st'' = TE_count_valid st'.
Proof.
  intros st.
  apply (purge_rebuilds_flags sample_annotation 2 (Some "counts.txt") 2 None
           sample_table sample_calls st sample_fasta);
    [by vm_compute | by vm_compute |].
  repeat constructor; done.
Defined.

Lemma from_sam_calls_witness :
  let self := mkCount "4" sample_table 10 in
  let sam := ["@HD VN:1.0"; "r1 0 c1 1 255 4M * 0 0 ACGT IIII";
              "r2 0 c2 1 0 4M * 0 0 ACGT IIII"; "r3 4 * 0 0 * * 0 0 ACGT IIII"] in
  Count.from_sam sam self =
    (st ← run (sam_calls self (count_sirna (rosette self)) sam) (rosette self);
     Ok (mkCount (config_sirna_size self) st (max_mapq self))) ∧
  Count.from_sam (filter (λ raw, counted_line self (count_sirna (rosette self)) raw) sam) self
  = Count.from_sam sam self.
Proof.
  intros self sam. apply (from_sam_calls self sam).
  repeat constructor; eexists; by vm_compute.
Defined.

Lemma main_returns_witness : is_Ok sample_counted ∧ is_Ok sample_main.
Proof.
  destruct (main_returns None sample_sams sample_annotation 2 (Some "counts.txt") None 10
              sample_fasta "4" sample_table) as [Hcounted Hmain].
  - done.
  - done.
  - by vm_compute.
  - repeat constructor; done.
  - repeat constructor; eexists; by vm_compute.
  - split; [exact Hcounted | apply Hmain; lia].
Defined.

Lemma no_rows_table_witness :
  ∃ st0 st,
    Rosette.init [] 2 (Some "counts.txt") 2 None = Ok st0 ∧
    run sample_calls_no_rows st0 = Ok st ∧
    TE_count_variable st = [] ∧
    current_sample st = resets sample_calls_no_rows - 1 ∧
    Rosette.write st = Ok ([], if bool_decide (is_Some (None : option string))
                               then Some [] else None).
Proof.
  apply (no_rows_table 2 "counts.txt" 2 None sample_calls_no_rows).
  repeat constructor; done.
Defined.

(** The count matrix of the sample run of the module body: two reads
    of the first sam file and one of the second are counted, a read on
    an unknown copy only leaves a message. *)
Lemma sample_main_counts :
  TE_count (rosette (count_of sample_counted)) !! "LINE1" = Some [1; 1] ∧
  TE_count (rosette (count_of sample_counted)) !! "SINE1" = Some [1; 0] ∧
  stdout (rosette (count_of sample_counted)) = ["zz not found in the Rosette file"].
Proof. by vm_compute. Qed.

(** The sample run of the module body writes the line of LINE1, the
    only family with a sequence in the sample sequence file. *)
Lemma sample_main_output :
  ∃ count, sample_main = Ok (count, (["LINE1 z 1 1 2
"], None)).
Proof. eexists. by vm_compute. Qed.

(** On an annotation grouped on its third column the samples are
    counted and the final [write] raises. *)
Lemma wide_main_raises :
  is_Ok (Main.count_samples None [["r1 0 c3 1 0 4M * 0 0 ACGT IIII"]] wide_annotation 3
           (Some "counts.txt") None 10 [">c3"] "4") ∧
  Main.main None [["r1 0 c3 1 0 4M * 0 0 ACGT IIII"]] wide_annotation 3
            (Some "counts.txt") None 10 [">c3"] "4" = Raise KeyError.
Proof. split; [eexists|]; by vm_compute. Qed.
